(** * NicoTracker: the log store, the estimation function and the analytics

    A shallow embedding of the storage utilities (load, save, add, update,
    export and import of logs, settings, dose estimation, time-of-day
    classification, queries by date, streak, sample data), of the analytics
    (daily statistics, sweet-spot matrix, focus and anxiety by time of day)
    and of the application (the intake wizard and its steps, the cognitive
    check-in and the settings form).

    Conventions of the model.
    - A JavaScript number is an exact rational ([Qc]): no rounding and no
      infinity.  Where the program adds up values that it has not checked,
      the result is a number or NaN ([jsNumber]), or a string when an operand
      is one ([primitive]).
    - A log, the settings and the wizard data are JavaScript objects used as
      maps from property names to values: [gmap string value].  A property
      that is absent and a property that holds [undefined] are the same thing
      ([JSON.stringify] drops the latter when the object is persisted), so a
      property read [o.k] is the lookup [o !! k : option value] and [None] is
      [undefined].
    - [localStorage] is explicit state, threaded through a state and
      exception monad; whether the medium accepts a write is decided by the
      host ([fits]).
    - What the program asks of the host (the clock's renderings, the local
      time zone, the storage quota, the conversions between numbers and
      their texts) are variables of the section. *)

From Stdlib Require Import QArith Qcanon Qround Lqa ZArith Ascii String.
From stdpp Require Import gmap strings list fin_maps numbers pretty.

Set Default Proof Using "Type".

(** ** JavaScript values *)

(** The values a stored log holds after [JSON.parse]: null, booleans, numbers,
    strings, and arrays of strings (the [healthEffects] tags). *)
Inductive value :=
  | VNull
  | VBool (b : bool)
  | VNum (x : Qc)
  | VStr (s : string)
  | VArr (l : list string).

#[global] Instance value_eq_dec : EqDecision value.
Proof. solve_decision. Defined.

Abbreviation obj := (gmap string value).

(** [!!v]: null, undefined, false, 0 and the empty string are falsy. *)
Definition truthy (v : option value) : bool :=
  match v with
  | None | Some VNull => false
  | Some (VBool b) => b
  | Some (VNum x) => negb (bool_decide (x = Qc_of_Z 0))
  | Some (VStr s) => negb (bool_decide (s = ""))
  | Some (VArr _) => true
  end.

(** [v === null || v === undefined]. *)
Definition nullish (v : option value) : bool :=
  match v with
  | None | Some VNull => true
  | Some _ => false
  end.

(** [a === b], which on these values is also the SameValueZero of [Set]:
    primitives are compared by value; two arrays are equal only when they are
    the same object, which never holds between values that come out of
    separate [JSON.parse] calls or literals. *)
Definition strict_eq (a b : option value) : bool :=
  match a, b with
  | Some (VArr _), _ | _, Some (VArr _) => false
  | _, _ => bool_decide (a = b)
  end.

(** A number as an addition or a division gives it: a rational or NaN. *)
Inductive jsNumber :=
  | Num (x : Qc)
  | NaN.

(** What [+] gives: a number, or a string when an operand is a string (or an
    array, which counts as the string of its elements joined by commas). *)
Inductive primitive :=
  | PNumber (n : jsNumber)
  | PString (s : string).

(** The property key a value converts to: a string is its own key, an array
    is its elements joined by commas.  The decimal form of a number is not
    modelled ([None]); it is the name of no property of the objects below,
    whose keys are words. *)
Definition ToPropertyKey (v : option value) : option string :=
  match v with
  | Some (VStr s) => Some s
  | Some (VArr l) => Some (String.concat "," l)
  | Some VNull => Some "null"
  | Some (VBool b) => Some (if b then "true" else "false")
  | None => Some "undefined"
  | Some (VNum _) => None
  end.

Definition Math_min (a b : Qc) : Qc := if bool_decide (a ≤ b)%Qc then a else b.
Definition Math_max (a b : Qc) : Qc := if bool_decide (a ≤ b)%Qc then b else a.

(** An object literal [{k1: v1, ..., kn: vn}] with distinct keys; a property
    whose value is [undefined] is left out. *)
Definition object (fields : list (string * option value)) : obj :=
  list_to_map (omap (λ '(k, v), pair k <$> v) fields).

(** [new Set(values)], in insertion order, and [set.has(v)]. *)
Definition Set_add (s : list (option value)) (v : option value) : list (option value) :=
  if existsb (strict_eq v) s then s else s ++ [v].

Definition new_Set (values : list (option value)) : list (option value) :=
  foldl Set_add [] values.

Definition Set_has (s : list (option value)) (v : option value) : bool :=
  existsb (strict_eq v) s.

(** [array.findIndex(p)]: the first index whose element satisfies [p],
    or -1. *)
Fixpoint findIndex {A : Type} (p : A → bool) (l : list A) : Z :=
  match l with
  | [] => (-1)%Z
  | x :: l' =>
      if p x then 0%Z
      else let i := findIndex p l' in if bool_decide (i = (-1)%Z) then (-1)%Z else (i + 1)%Z
  end.

(** ** Exceptions and the storage state *)

(** A call returns a value or throws an [Error] with a message; for
    [importData], [Return] is the resolved promise and [Throw] the rejected
    one. *)
Inductive outcome (A : Type) :=
  | Return (a : A)
  | Throw (message : string).
Arguments Return {A} a.
Arguments Throw {A} message.

#[global] Instance outcome_ret : MRet outcome := λ A a, Return a.
#[global] Instance outcome_bind : MBind outcome := λ A B f m,
  match m with
  | Return a => f a
  | Throw e => Throw e
  end.

(** What [localStorage.getItem] finds under a key: nothing, a text that
    [JSON.parse] rejects, or the JSON text of a value. *)
Inductive slot (A : Type) :=
  | Absent
  | Corrupt
  | Stored (a : A).
Arguments Absent {A}.
Arguments Corrupt {A}.
Arguments Stored {A} a.

Record localStorage := LocalStorage {
  nicotracker_logs : slot (list obj);
  nicotracker_settings : slot obj }.

(** A computation over the storage: it returns or throws, and leaves a
    storage state either way. *)
Definition js (A : Type) : Type := localStorage → outcome A * localStorage.

#[global] Instance js_ret : MRet js := λ A a st, (Return a, st).
#[global] Instance js_bind : MBind js := λ A B f m st,
  match m st with
  | (Return a, st') => f a st'
  | (Throw e, st') => (Throw e, st')
  end.

Definition throw {A : Type} (message : string) : js A := λ st, (Throw message, st).

(** ** Time *)

Definition msPerDay : Z := 86400000.

(** The UTC day number of an instant given in milliseconds since the epoch. *)
Definition utcDay (t : Z) : Z := (t `div` msPerDay)%Z.

(** ** A host in a time zone at a fixed offset from UTC

    A concrete reading of the [Date] built-ins the program uses, for a host
    whose local time is UTC minus [tz] minutes all year round ([tz] is what
    [getTimezoneOffset] returns).  The results below are stated for any host;
    this one instantiates them. *)
Module FixedOffsetHost.

(** The proleptic Gregorian date (year, month, day of month) of a day
    number, day 0 being 1970-01-01. *)
Definition civil_from_days (d : Z) : Z * Z * Z :=
  let z := (d + 719468)%Z in
  let era := (z `div` 146097)%Z in
  let doe := (z - era * 146097)%Z in
  let yoe := ((doe - doe `div` 1460 + doe `div` 36524 - doe `div` 146096) `div` 365)%Z in
  let doy := (doe - (365 * yoe + yoe `div` 4 - yoe `div` 100))%Z in
  let mp := ((5 * doy + 2) `div` 153)%Z in
  let day := (doy - (153 * mp + 2) `div` 5 + 1)%Z in
  let m := (if bool_decide (mp < 10) then mp + 3 else mp - 9)%Z in
  let y := (yoe + era * 400)%Z in
  ((if bool_decide (m ≤ 2) then y + 1 else y)%Z, m, day).

Definition days_from_civil (y m day : Z) : Z :=
  let y' := (if bool_decide (m ≤ 2) then y - 1 else y)%Z in
  let era := (y' `div` 400)%Z in
  let yoe := (y' - era * 400)%Z in
  let mp := (if bool_decide (2 < m) then m - 3 else m + 9)%Z in
  let doy := ((153 * mp + 2) `div` 5 + day - 1)%Z in
  let doe := (yoe * 365 + yoe `div` 4 - yoe `div` 100 + doy)%Z in
  (era * 146097 + doe - 719468)%Z.

(** A natural number in decimal, padded with zeros to [width] digits. *)
Definition pad (width : nat) (n : Z) : string :=
  let s := pretty (Z.to_N n) in
  String.concat "" (replicate (width - String.length s) "0") +:+ s.

(** The text before the [T] of [toISOString()]: YYYY-MM-DD, with a sign and
    six digits for a year outside 0..9999. *)
Definition isoDay (d : Z) : string :=
  let '(y, m, day) := civil_from_days d in
  (if bool_decide (0 ≤ y ≤ 9999)%Z then pad 4 y
   else (if bool_decide (y < 0)%Z then "-" else "+") +:+ pad 6 (Z.abs y))
  +:+ "-" +:+ pad 2 m +:+ "-" +:+ pad 2 day.

Definition toISOString (t : Z) : string :=
  let ms := (t `mod` msPerDay)%Z in
  isoDay (utcDay t) +:+ "T" +:+ pad 2 (ms `div` 3600000) +:+ ":"
  +:+ pad 2 ((ms `div` 60000) `mod` 60) +:+ ":" +:+ pad 2 ((ms `div` 1000) `mod` 60)
  +:+ "." +:+ pad 3 (ms `mod` 1000) +:+ "Z".

Definition digit (c : ascii) : option Z :=
  let n := Z.of_N (N_of_ascii c) in
  if bool_decide (48 ≤ n ≤ 57)%Z then Some (n - 48)%Z else None.

Fixpoint digits (acc : Z) (s : string) : option Z :=
  match s with
  | EmptyString => Some acc
  | String c s' => n ← digit c; digits (10 * acc + n)%Z s'
  end.

(** The milliseconds into the day that the text of an instant,
    YYYY-MM-DDTHH:mm:ss.sssZ, gives after the T: 0 for a date-only text. *)
Definition clock (s : string) : Z :=
  default 0%Z
    (h ← digits 0 (substring 11 2 s);
     m ← digits 0 (substring 14 2 s);
     sec ← digits 0 (substring 17 2 s);
     ms ← digits 0 (substring 20 3 s);
     Some (h * 3600000 + m * 60000 + sec * 1000 + ms)%Z).

(** [new Date(s).getTime()] for a date-only text YYYY-MM-DD, which stands for
    that day's midnight in UTC, and for the text of an instant as
    [toISOString] writes it (0 here for any other text). *)
Definition Date_parse (s : string) : Z :=
  default 0%Z
    (y ← digits 0 (substring 0 4 s);
     m ← digits 0 (substring 5 2 s);
     day ← digits 0 (substring 8 2 s);
     Some (days_from_civil y m day * msPerDay + clock s)%Z).

Definition localTime (tz t : Z) : Z := (t - tz * 60000)%Z.

(** The local calendar day of an instant, as a day number. *)
Definition localDay (tz t : Z) : Z := (localTime tz t `div` msPerDay)%Z.

Definition getHours (tz t : Z) : Z := ((localTime tz t `div` 3600000) `mod` 24)%Z.

Definition getDate (tz t : Z) : Z := (civil_from_days (localDay tz t)).2.

(** [d.setDate(n)]: the same local time of day, [n - d.getDate()] days
    later. *)
Definition setDate (tz t n : Z) : Z := (t + (n - getDate tz t) * msPerDay)%Z.

(** [d.setHours(h, m)]: the local day of [t], its hour and minute replaced, the
    seconds and milliseconds kept. *)
Definition setHours (tz t h m : Z) : Z :=
  (localDay tz t * msPerDay + h * 3600000 + m * 60000 + localTime tz t `mod` 60000
   + tz * 60000)%Z.

End FixedOffsetHost.

(** ** A host with daylight saving time

    New York around the end of daylight saving time in 2026: local time is
    four hours behind UTC until 2026-11-01T06:00:00Z, when the clocks go back
    from 02:00 to 01:00, and five hours behind from then on. *)
Module DaylightHost.

Definition switch : Z := (FixedOffsetHost.days_from_civil 2026 11 1 * msPerDay + 6 * 3600000)%Z.

(** [getTimezoneOffset()] at an instant, in minutes. *)
Definition getTimezoneOffset (t : Z) : Z := if bool_decide (t < switch)%Z then 240%Z else 300%Z.

Definition localTime (t : Z) : Z := (t - getTimezoneOffset t * 60000)%Z.

(** The instant at which the local clock shows a given local time; the hour
    that the clocks show twice is read as the first of the two. *)
Definition instantOf (local : Z) : Z :=
  if bool_decide (local + 240 * 60000 < switch)%Z then (local + 240 * 60000)%Z
  else (local + 300 * 60000)%Z.

Definition getDate (t : Z) : Z :=
  (FixedOffsetHost.civil_from_days (localTime t `div` msPerDay)).2.

(** [d.setDate(n)]: the same local time of day, [n - d.getDate()] local days
    later. *)
Definition setDate (t n : Z) : Z := instantOf (localTime t + (n - getDate t) * msPerDay).

End DaylightHost.

(** ** The import file and the operations on the store *)

(** What [importData] gets from the file: a read error, a text that is not
    JSON (with the parser's message), or the parsed object.  Of the parsed
    object, the [logs] property is missing (or falsy), is not an array, or is
    an array of logs; the [settings] property is an object or is missing (or
    falsy). *)
Inductive logsProperty :=
  | LogsMissing
  | LogsNotArray
  | LogsArray (logs : list obj).

Record importedData := ImportedData {
  imported_logs : logsProperty;
  imported_settings : option obj }.

Inductive fileContents :=
  | Unreadable
  | NotJSON (message : string)
  | Parsed (data : importedData).

(** The operations on the store: [addLog] with what it reads from the host,
    [updateLog] and [importData]. *)
Inductive operation :=
  | Append (logData : obj) (idClock : Z) (random : string) (stampClock : Z)
  | Amend (logId : option value) (updates : obj)
  | Import (file : fileContents).

(** ** Sample data *)

Module Sample.

(** A medium that accepts every write. *)
Definition roomy (st : localStorage) : bool := true.

(** The conversions between numbers and texts, as far as the samples go: the
    decimal text of an integer (a fraction is written with a slash, which no
    sample prints), and the number that a text of digits stands for. *)
Definition numberText (x : Qc) : string :=
  if bool_decide (Qden x = 1%positive) then pretty (Qnum x)
  else pretty (Qnum x) +:+ "/" +:+ pretty (Zpos (Qden x)).

Definition textNumber (s : string) : option Qc := Qc_of_Z <$> FixedOffsetHost.digits 0 s.

(** A sort for arrays that are already in order. *)
Definition sorted (logs : list obj) : list obj := logs.

Definition log (id date timeOfDay : string) (estimatedMg focusLevel anxietyLevel : option value) : obj :=
  object [("id", Some (VStr id)); ("date", Some (VStr date)); ("timeOfDay", Some (VStr timeOfDay));
          ("estimatedMg", estimatedMg); ("focusLevel", focusLevel); ("anxietyLevel", anxietyLevel)].

Definition num (n : Z) : option value := Some (VNum (Qc_of_Z n)).

Definition monday : obj := log "a" "2026-11-02" "evening" (num 7) (num 8) (num 2).
Definition sunday : obj := log "b" "2026-11-01" "morning" (num 3) (Some VNull) (num 4).
Definition friday : obj := log "c" "2026-10-30" "night" None (num 6) None.
Definition mondayAgain : obj := log "d" "2026-11-02" "night" (num 12) (num 5) (num 5).

(** A copy of [sunday]'s id on another log, as a second device would export
    it. *)
Definition sundayElsewhere : obj := log "b" "2026-11-01" "night" (num 1) None None.

Definition store : localStorage := LocalStorage (Stored [monday; sunday; friday]) Absent.

(** 2026-11-02T04:34:56.789Z. *)
Definition now : Z := 1793594096789.

(** 2026-11-02T15:00:00.000Z, which is 10:00 on that day in New York. *)
Definition forenoon : Z := 1793631600000.

(** 1970-01-01T04:30:00.000Z, which is 23:30 on 1969-12-31 five hours west of
    Greenwich. *)
Definition lateEvening : Z := 16200000.

Definition wizardData : obj :=
  object [("source", Some (VStr "Cigarettes")); ("quantity", num 3); ("strength", num 2);
          ("healthEffects", Some (VArr ["Alertness"])); ("reason", Some (VStr "Stress"));
          ("otherReason", Some VNull); ("estimatedMg", num 6)].

(** What a check-in writes on the log it amends. *)
Definition checkIn : obj :=
  object [("focusLevel", num 7); ("anxietyLevel", num 3);
          ("clearThinking", Some (VBool true)); ("notes", Some VNull)].

(** An export of another device: a log with [sunday]'s id, a log that is new
    to the store, and a lower daily limit. *)
Definition exported : importedData :=
  ImportedData (LogsArray [sundayElsewhere; mondayAgain])
    (Some (object [("dailyMgLimit", num 30)])).

Definition journal : list obj := [monday; sunday; friday; mondayAgain].


(** An intake, a check-in on [sunday] and the import of [exported]. *)
Definition operations : list operation :=
  [Append wizardData now "k3j9x0q2m" (now + 1);
   Amend (Some (VStr "b")) checkIn;
   Import (Parsed exported)].

(** A hundred cigarettes of 10 mg, and a dose of exactly 999 mg. *)
Definition heavyDose : obj := log "e" "2026-11-02" "evening" (num 1000) (num 8) (num 2).
Definition boundaryDose : obj := log "f" "2026-11-02" "morning" (num 999) (num 5) (num 5).

(** A medium with room for the logs and for settings of one property, and
    a store that holds such settings. *)
Definition tight (st : localStorage) : bool :=
  match nicotracker_settings st with
  | Stored settings => bool_decide (size settings ≤ 1)
  | Absent | Corrupt => true
  end.

Definition configured : localStorage :=
  LocalStorage (Stored [monday; sunday; friday]) (Stored (object [("dailyMgLimit", num 35)])).

(** A log whose time of day is none of the four. *)
Definition dawn : obj := log "g" "2026-11-02" "dawn" (num 7) (num 8) (num 2).

(** A sequence of draws of [Math.random()]: 0, 0.1, ..., 0.9 and again. *)
Definition draws (n : nat) : Qc := Q2Qc (Z.of_nat (n `mod` 10) # 10).

End Sample.

(** ** The program *)

Section NicoTracker.

(** The host: whether the storage medium can hold a given content (a write
    that does not fit makes [setItem] throw); [getTimezoneOffset()] at the
    time the script is loaded; the text before the [T] of [toISOString()], as
    a function of the UTC day number, and the whole of it, as a function of
    the instant; [new Date(text).getTime()]; for a [Date] at a given
    instant, [getHours()] and [getDate()] (local hour and local day of the
    month) and the instant it holds after [setDate(n)]; and the array sort
    of logs by [(a, b) => new Date(b.timestamp) - new Date(a.timestamp)]. *)
Context (fits : localStorage → bool).
Context (timezoneOffset : Z).
Context (isoDay : Z → string) (toISOString : Z → string) (Date_parse : string → Z).
Context (getHours getDate : Z → Z) (setDate : Z → Z → Z).
Context (sortNewestFirst : list obj → list obj).

(** The conversions between numbers and texts: [String(x)] for a number [x],
    and ToNumber on a string, where [None] is NaN (a text that converts to an
    infinity is outside the model). *)
Context (NumberToString : Qc → string) (StringToNumber : string → option Qc).

(** ToNumber, [None] standing for NaN; an array converts through the string
    of its elements joined by commas. *)
Definition ToNumber (v : option value) : option Qc :=
  match v with
  | None => None
  | Some VNull => Some (Qc_of_Z 0)
  | Some (VBool b) => Some (if b then Qc_of_Z 1 else Qc_of_Z 0)
  | Some (VNum x) => Some x
  | Some (VStr s) => StringToNumber s
  | Some (VArr l) => StringToNumber (String.concat "," l)
  end.

(** [v >= q] and [v < q] for a number [q]: false when [v] converts to NaN. *)
Definition js_ge (v : option value) (q : Qc) : bool :=
  match ToNumber v with
  | Some x => bool_decide (q ≤ x)%Qc
  | None => false
  end.

Definition js_lt (v : option value) (q : Qc) : bool :=
  match ToNumber v with
  | Some x => bool_decide (x < q)%Qc
  | None => false
  end.

(** ToString, on a value and on what [+] gave. *)
Definition ToString (v : option value) : string :=
  match v with
  | None => "undefined"
  | Some VNull => "null"
  | Some (VBool b) => if b then "true" else "false"
  | Some (VNum x) => NumberToString x
  | Some (VStr s) => s
  | Some (VArr l) => String.concat "," l
  end.

Definition primitiveToString (a : primitive) : string :=
  match a with
  | PNumber (Num x) => NumberToString x
  | PNumber NaN => "NaN"
  | PString s => s
  end.

(** [a + v] for what an earlier [+] gave (or a number) and a value: the sum of
    the two as numbers, NaN when one of them converts to NaN, as undefined
    does; the concatenation of the two as strings when one of them is a
    string or an array. *)
Definition js_add (a : primitive) (v : option value) : primitive :=
  match a, v with
  | PNumber n, (None | Some VNull | Some (VBool _) | Some (VNum _)) =>
      PNumber (match n, ToNumber v with
               | Num x, Some y => Num (x + y)
               | _, _ => NaN
               end)
  | _, _ => PString (primitiveToString a +:+ ToString v)
  end.

(** [d.toISOString().split('T')[0]] for a [Date] at instant [t]: the calendar
    date of [t] in UTC. *)
Definition toISODate (t : Z) : string := isoDay (utcDay t).

(** *** Storage utilities *)

Definition DEFAULT_SETTINGS : obj :=
  object [("dailyMgLimit", Some (VNum (Qc_of_Z 40)));
          ("dailyEventLimit", Some (VNum (Qc_of_Z 5)));
          ("morningLimitEnabled", Some (VBool false));
          ("timezoneOffsetMinutes", Some (VNum (Qc_of_Z timezoneOffset)))].

Definition loadLogs : js (list obj) := λ st,
  match nicotracker_logs st with
  | Stored logs => (Return logs, st)
  | Absent => (Return [], st)
  | Corrupt => (Return [], st)
  end.

Definition saveLogs (logs : list obj) : js unit := λ st,
  let st' := LocalStorage (Stored logs) (nicotracker_settings st) in
  if fits st' then (Return (), st') else (Throw "Failed to save logs", st).

(** [generateId()], from the clock reading [Date.now()] and the nine base-36
    digits drawn from [Math.random()]. *)
Definition generateId (now : Z) (random : string) : string :=
  pretty now +:+ "-" +:+ random.

(** [addLog(logData)]; [idClock] and [random] are what [generateId] reads,
    [stampClock] the instant of the [new Date()] of the timestamp. *)
Definition addLog (logData : obj) (idClock : Z) (random : string) (stampClock : Z) : js obj :=
  logs ← loadLogs;
  let newLog :=
    <["timestamp" := VStr (toISOString stampClock)]>
      (<["id" := VStr (generateId idClock random)]> logData) in
  _ ← saveLogs (logs ++ [newLog]);
  mret newLog.

(** [{ ...a, ...b }]: the properties of [b] override those of [a]; spreading
    [undefined] adds nothing. *)
Definition spread (a b : obj) : obj := b ∪ a.

Definition updateLog (logId : option value) (updates : obj) : js obj :=
  logs ← loadLogs;
  let index := findIndex (λ log : obj, strict_eq (log !! "id") logId) logs in
  if bool_decide (index = (-1)%Z) then throw "Log not found"
  else
    let logs' := <[Z.to_nat index := spread (default ∅ (logs !! Z.to_nat index)) updates]> logs in
    _ ← saveLogs logs';
    mret (default ∅ (logs' !! Z.to_nat index)).

(** [getMostRecentLogToday()], [now] being the instant of its [new Date()];
    [None] is null. *)
Definition getMostRecentLogToday (now : Z) : js (option obj) :=
  logs ← loadLogs;
  let today := toISODate now in
  let todayLogs := filter (λ log : obj, strict_eq (log !! "date") (Some (VStr today))) logs in
  if bool_decide (length todayLogs = 0) then mret None
  else mret (head (sortNewestFirst todayLogs)).

Definition loadSettings : js obj := λ st,
  match nicotracker_settings st with
  | Absent => (Return (spread DEFAULT_SETTINGS ∅), st)
  | Stored settings => (Return (spread DEFAULT_SETTINGS settings), st)
  | Corrupt => (Return (spread DEFAULT_SETTINGS ∅), st)
  end.

Definition saveSettings (settings : obj) : js unit := λ st,
  let st' := LocalStorage (nicotracker_logs st) (Stored settings) in
  if fits st' then (Return (), st') else (Throw "Failed to save settings", st).

(** [error.message || 'Failed to import data']. *)
Definition rejection (message : string) : string :=
  if bool_decide (message = "") then "Failed to import data" else message.

(** [importData(file)]: [Return message] is the promise resolved with
    [{success: true, message}], [Throw message] the promise rejected with
    [{success: false, message}]. *)
Definition importData (file : fileContents) : js string :=
  match file with
  | Unreadable => throw "Failed to read file"
  | NotJSON message => throw (rejection message)
  | Parsed data =>
      match imported_logs data with
      | LogsMissing | LogsNotArray => throw (rejection "Invalid file format: missing logs array")
      | LogsArray importedLogs =>
          existingLogs ← loadLogs;
          let existingIds := new_Set ((λ log : obj, log !! "id") <$> existingLogs) in
          let newLogs := filter (λ log : obj, negb (Set_has existingIds (log !! "id"))) importedLogs in
          let mergedLogs := existingLogs ++ newLogs in
          _ ← saveLogs mergedLogs;
          _ ← match imported_settings data with
              | Some settings =>
                  currentSettings ← loadSettings;
                  saveSettings (spread currentSettings settings)
              | None => mret ()
              end;
          mret ("Imported " +:+ pretty (length newLogs) +:+ " new log entries")
      end
  end.

Definition getTimeOfDay (date : Z) : string :=
  let hour := getHours date in
  if bool_decide (5 ≤ hour)%Z && bool_decide (hour < 12)%Z then "morning"
  else if bool_decide (12 ≤ hour)%Z && bool_decide (hour < 17)%Z then "afternoon"
  else if bool_decide (17 ≤ hour)%Z && bool_decide (hour < 22)%Z then "evening"
  else "night".

Definition calculateEstimatedMg (source : string) (quantity strength : Qc) : Qc :=
  if negb (truthy (Some (VNum quantity))) || bool_decide (quantity ≤ Qc_of_Z 0)%Qc then Qc_of_Z 0
  else if negb (truthy (Some (VNum strength))) || bool_decide (strength ≤ Qc_of_Z 0)%Qc then Qc_of_Z 0
  else if bool_decide (source = "Vape") then (strength / Qc_of_Z 200 * quantity)%Qc
  else if bool_decide (source = "Cigarettes") then (strength * quantity)%Qc
  else if bool_decide (source = "Snus") then (strength * quantity)%Qc
  else Qc_of_Z 0.

(** The [while (true)] loop of [calculateStreak], run for at most [fuel]
    iterations; [None] when the fuel runs out before the loop breaks. *)
Fixpoint streakLoop (fuel : nat) (datesWithLogs : list (option value))
    (currentDate : Z) (streak : nat) : option nat :=
  match fuel with
  | O => None
  | S fuel' =>
      let dateStr := toISODate currentDate in
      if Set_has datesWithLogs (Some (VStr dateStr))
      then streakLoop fuel' datesWithLogs (setDate currentDate (getDate currentDate - 1)) (S streak)
      else Some streak
  end.

(** [calculateStreak()], [now] being the instant of its [new Date()].  The
    sorted array of dates is only tested for emptiness; its length is the
    size of the set. *)
Definition calculateStreak (fuel : nat) (now : Z) : js (option nat) :=
  logs ← loadLogs;
  if bool_decide (length logs = 0) then mret (Some 0)
  else
    let datesWithLogs := new_Set ((λ log : obj, log !! "date") <$> logs) in
    if bool_decide (length datesWithLogs = 0) then mret (Some 0)
    else
      let today := toISODate now in
      mret (streakLoop fuel datesWithLogs (Date_parse today) 0).

(** *** Analytics *)

Record doseBucket := DoseBucket {
  bucket_min : Qc;
  bucket_max : Qc;
  bucket_label : string }.

Definition doseBuckets : list doseBucket :=
  [DoseBucket (Qc_of_Z 0) (Qc_of_Z 5) "0-5 mg";
   DoseBucket (Qc_of_Z 5) (Qc_of_Z 10) "5-10 mg";
   DoseBucket (Qc_of_Z 10) (Qc_of_Z 15) "10-15 mg";
   DoseBucket (Qc_of_Z 15) (Qc_of_Z 20) "15-20 mg";
   DoseBucket (Qc_of_Z 20) (Qc_of_Z 999) "20+ mg"].

Definition timeBuckets : list string := ["morning"; "afternoon"; "evening"; "night"].
Definition timeLabels : list string := ["6AM"; "12PM"; "6PM"; "9PM"].

(** A cell of the working matrix. *)
Record matrixCell := MatrixCell {
  cell_focus : list (option value);
  cell_anxiety : list (option value);
  cell_count : nat }.

Abbreviation matrix := (gmap string (gmap string matrixCell)).

(** The matrix as initialised: an empty cell under every dose label and time
    bucket. *)
Definition initialMatrix : matrix :=
  foldl (λ (m : matrix) bucket,
           foldl (λ (m : matrix) time,
                    <[bucket_label bucket :=
                        <[time := MatrixCell [] [] 0]> (default ∅ (m !! bucket_label bucket))]> m)
                 (<[bucket_label bucket := ∅]> m) timeBuckets)
        ∅ doseBuckets.

(** The body of the [forEach] that populates the matrix.  Reading a property
    of an undefined cell throws a TypeError. *)
Definition populate (m : matrix) (log : obj) : outcome matrix :=
  if negb (truthy (log !! "estimatedMg")) || negb (truthy (log !! "timeOfDay")) then Return m
  else if nullish (log !! "focusLevel") then Return m
  else if nullish (log !! "anxietyLevel") then Return m
  else
    match find (λ bucket, js_ge (log !! "estimatedMg") (bucket_min bucket)
                          && js_lt (log !! "estimatedMg") (bucket_max bucket)) doseBuckets with
    | None => Return m
    | Some doseBucket =>
        match row ← m !! bucket_label doseBucket;
              time ← ToPropertyKey (log !! "timeOfDay");
              cell ← row !! time;
              Some (row, time, cell) with
        | None => Throw "TypeError"
        | Some (row, time, cell) =>
            let cell' :=
              MatrixCell (cell_focus cell ++ [log !! "focusLevel"])
                         (cell_anxiety cell ++ [log !! "anxietyLevel"])
                         (S (cell_count cell)) in
            Return (<[bucket_label doseBucket := <[time := cell']> row]> m)
        end
    end.

Record resultCell := ResultCell {
  doseIdx : nat;
  timeIdx : nat;
  doseLabel : string;
  timeLabel : option string;
  avgFocus : jsNumber;
  avgAnxiety : jsNumber;
  metric : jsNumber;
  count : nat }.

Record sweetSpotMatrix := SweetSpotMatrix {
  result_doseBuckets : list string;
  result_timeBuckets : list string;
  cells : list resultCell }.

(** [levels.reduce((a, b) => a + b, 0) / levels.length]: the division
    converts a string to a number; with no level it is 0 / 0, which is NaN. *)
Definition average (levels : list (option value)) : jsNumber :=
  let total :=
    match foldl js_add (PNumber (Num (Qc_of_Z 0))) levels with
    | PNumber n => n
    | PString s => from_option Num NaN (StringToNumber s)
    end in
  match total with
  | Num x =>
      if bool_decide (length levels = 0) then NaN
      else Num (x / Qc_of_Z (Z.of_nat (length levels)))
  | NaN => NaN
  end.

(** The averages and the metric of a cell: [avgFocus], [avgAnxiety] and
    [metric] as the body of the two nested [forEach] leaves them; with an
    average that is NaN the metric is NaN, through [Math.min] and
    [Math.max]. *)
Definition cellMetrics (cell : matrixCell) : jsNumber * jsNumber * jsNumber :=
  if bool_decide (0 < cell_count cell)
  then
    let avgFocus := average (cell_focus cell) in
    let avgAnxiety := average (cell_anxiety cell) in
    let metric :=
      match avgFocus, avgAnxiety with
      | Num f, Num a =>
          let metric := ((f - a + Qc_of_Z 9) / Qc_of_Z 18 * Qc_of_Z 100)%Qc in
          Num (Math_max (Qc_of_Z 0) (Math_min (Qc_of_Z 100) metric))
      | _, _ => NaN
      end in
    (avgFocus, avgAnxiety, metric)
  else (Num (Qc_of_Z 0), Num (Qc_of_Z 0), Num (Qc_of_Z 0)).

(** The body of the two nested [forEach] that compute the metrics. *)
Definition resultCellOf (m : matrix) (doseIdx : nat) (doseBucket : doseBucket)
    (timeIdx : nat) (time : string) : outcome resultCell :=
  match m !! bucket_label doseBucket ≫= (.!! time) with
  | None => Throw "TypeError"
  | Some cell =>
      let '(avgFocus, avgAnxiety, metric) := cellMetrics cell in
      Return (ResultCell doseIdx timeIdx (bucket_label doseBucket) (timeLabels !! timeIdx)
                avgFocus avgAnxiety metric (cell_count cell))
  end.

(** [xs.forEach(f)] for a body that may throw: the exception ends the loop. *)
Definition forEach {A S : Type} (f : S → A → outcome S) (s : S) (xs : list A) : outcome S :=
  foldl (λ acc x, s ← acc; f s x) (Return s) xs.

Definition computeSweetSpotMatrix (logs : list obj) : outcome sweetSpotMatrix :=
  m ← forEach populate initialMatrix logs;
  cells ← forEach (λ cells '(doseIdx, doseBucket),
             forEach (λ cells '(timeIdx, time),
                c ← resultCellOf m doseIdx doseBucket timeIdx time;
                Return (cells ++ [c]))
               cells (imap pair timeBuckets))
           [] (imap pair doseBuckets);
  Return (SweetSpotMatrix (bucket_label <$> doseBuckets) timeLabels cells).

Record dailyStats := DailyStats {
  stats_date : string;
  totalMg : primitive;
  eventCount : nat;
  stats_avgFocus : option jsNumber;
  stats_avgAnxiety : option jsNumber;
  stats_logs : list obj }.

(** [v || 0]. *)
Definition or_zero (v : option value) : option value :=
  if truthy v then v else Some (VNum (Qc_of_Z 0)).

(** [logs.map(log => log[property]).filter(level => level !== null &&
    level !== undefined)]. *)
Definition presentLevels (property : string) (logs : list obj) : list (option value) :=
  filter (λ level, negb (nullish level)) ((λ log : obj, log !! property) <$> logs).

(** The mean of the levels, or null ([None]) when there are none. *)
Definition averageOrNull (levels : list (option value)) : option jsNumber :=
  if bool_decide (0 < length levels) then Some (average levels) else None.

Definition getDailyStats (date : string) (logs : list obj) : dailyStats :=
  let dayLogs := filter (λ log : obj, strict_eq (log !! "date") (Some (VStr date))) logs in
  let totalMg :=
    foldl (λ sum (log : obj), js_add sum (or_zero (log !! "estimatedMg")))
          (PNumber (Num (Qc_of_Z 0))) dayLogs in
  let eventCount := length dayLogs in
  let focusLevels := presentLevels "focusLevel" dayLogs in
  let anxietyLevels := presentLevels "anxietyLevel" dayLogs in
  DailyStats date totalMg eventCount (averageOrNull focusLevels) (averageOrNull anxietyLevels) dayLogs.

(** *** The two places that create a log *)

(** [confirmWizard()], up to the call of [addLog]: [wizardData] is the global
    the wizard fills in, [now] the instant of [new Date()], the other three
    arguments what [addLog] reads from the host. *)
Definition confirmWizard (wizardData : obj) (now idClock : Z) (random : string)
    (stampClock : Z) : js unit :=
  let dateStr := toISODate now in
  let timeOfDay := getTimeOfDay now in
  let logData :=
    object
      [("date", Some (VStr dateStr));
       ("timeOfDay", Some (VStr timeOfDay));
       ("source", wizardData !! "source");
       ("unitType",
        Some (VStr (if strict_eq (wizardData !! "source") (Some (VStr "Vape")) then "puffs"
                    else if strict_eq (wizardData !! "source") (Some (VStr "Cigarettes"))
                         then "pieces" else "pieces")));
       ("amount", wizardData !! "quantity");
       ("estimatedMg", wizardData !! "estimatedMg");
       ("reason",
        if strict_eq (wizardData !! "reason") (Some (VStr "Other"))
        then wizardData !! "otherReason" else wizardData !! "reason");
       ("healthEffects", wizardData !! "healthEffects");
       ("focusLevel", Some VNull);
       ("anxietyLevel", Some VNull);
       ("clearThinking", Some VNull);
       ("notes", Some VNull)] in
  _ ← addLog logData idClock random stampClock;
  mret ().


(** ** The rest of the storage utilities *)

(** [v >= s] and [v <= s] for the value [v] of a property and a string [s]:
    two strings (an array counts as its elements joined by commas) are
    compared code unit by code unit, anything else as numbers, and a
    comparison with NaN is false. *)
Definition js_ge_string (v : option value) (s : string) : bool :=
  match v with
  | Some (VStr d) => String.leb s d
  | Some (VArr l) => String.leb s (String.concat "," l)
  | _ =>
      match ToNumber v, StringToNumber s with
      | Some x, Some y => bool_decide (y ≤ x)%Qc
      | _, _ => false
      end
  end.

Definition js_le_string (v : option value) (s : string) : bool :=
  match v with
  | Some (VStr d) => String.leb d s
  | Some (VArr l) => String.leb (String.concat "," l) s
  | _ =>
      match ToNumber v, StringToNumber s with
      | Some x, Some y => bool_decide (x ≤ y)%Qc
      | _, _ => false
      end
  end.

Definition getLogsByDate (date : string) : js (list obj) :=
  logs ← loadLogs;
  mret (filter (λ log : obj, strict_eq (log !! "date") (Some (VStr date))) logs).

Definition getLogsByDateRange (startDate endDate : string) : js (list obj) :=
  logs ← loadLogs;
  mret (filter (λ log : obj, js_ge_string (log !! "date") startDate
                             && js_le_string (log !! "date") endDate) logs).

(** The object [exportData()] serialises into the downloaded file. *)
Record exportFile := ExportFile {
  export_version : string;
  exportDate : string;
  export_logs : list obj;
  export_settings : obj }.

(** [exportData()], up to the download of the file: [now] is the instant of
    the [new Date()] of [exportDate]. *)
Definition exportData (now : Z) : js exportFile :=
  logs ← loadLogs;
  settings ← loadSettings;
  mret (ExportFile "1.0" (toISOString now) logs settings).

(** What [importData] parses out of a file that [exportData] wrote: an array
    and an object are truthy, whatever they hold. *)
Definition readBack (file : exportFile) : fileContents :=
  Parsed (ImportedData (LogsArray (export_logs file)) (Some (export_settings file))).

(** *** Focus and anxiety by time of day *)

(** The two arrays of levels kept for a time of day. *)
Record levelLists := LevelLists {
  lists_focus : list (option value);
  lists_anxiety : list (option value) }.

(** The object literal that [computeFocusAnxietyBuckets] and
    [renderFocusAnxietyChart] start from: two empty arrays for each of the
    four times of day. *)
Definition emptyGroups : gmap string levelLists :=
  list_to_map [("morning", LevelLists [] []); ("afternoon", LevelLists [] []);
               ("evening", LevelLists [] []); ("night", LevelLists [] [])].

(** [groups[key].focus.push(level)] and [groups[key].anxiety.push(level)]:
    a TypeError when the object has no such property. *)
Definition pushFocus (groups : gmap string levelLists) (key level : option value)
    : outcome (gmap string levelLists) :=
  match time ← ToPropertyKey key; group ← groups !! time; Some (time, group) with
  | None => Throw "TypeError"
  | Some (time, group) =>
      Return (<[time := LevelLists (lists_focus group ++ [level]) (lists_anxiety group)]> groups)
  end.

Definition pushAnxiety (groups : gmap string levelLists) (key level : option value)
    : outcome (gmap string levelLists) :=
  match time ← ToPropertyKey key; group ← groups !! time; Some (time, group) with
  | None => Throw "TypeError"
  | Some (time, group) =>
      Return (<[time := LevelLists (lists_focus group) (lists_anxiety group ++ [level])]> groups)
  end.

(** The body of the [forEach] of [computeFocusAnxietyBuckets]. *)
Definition bucketLog (buckets : gmap string levelLists) (log : obj)
    : outcome (gmap string levelLists) :=
  if negb (truthy (log !! "timeOfDay")) then Return buckets
  else
    buckets ← (if negb (nullish (log !! "focusLevel"))
               then pushFocus buckets (log !! "timeOfDay") (log !! "focusLevel")
               else Return buckets);
    if negb (nullish (log !! "anxietyLevel"))
    then pushAnxiety buckets (log !! "timeOfDay") (log !! "anxietyLevel")
    else Return buckets.

Record bucketAverages := BucketAverages {
  bucket_avgFocus : option jsNumber;
  bucket_avgAnxiety : option jsNumber;
  bucket_count : nat }.

(** [computeFocusAnxietyBuckets(logs)]: the result has, under each key of
    [buckets], the averages of that bucket ([None] is null). *)
Definition computeFocusAnxietyBuckets (logs : list obj) : outcome (gmap string bucketAverages) :=
  mbind (M := outcome)
    (λ buckets : gmap string levelLists,
       Return ((λ bucket,
                  BucketAverages (averageOrNull (lists_focus bucket))
                                 (averageOrNull (lists_anxiety bucket))
                                 (Nat.max (length (lists_focus bucket))
                                          (length (lists_anxiety bucket))))
               <$> buckets))
    (forEach bucketLog emptyGroups logs).

(** The body of the [forEach] of [renderFocusAnxietyChart]. *)
Definition groupLog (timeGroups : gmap string levelLists) (log : obj)
    : outcome (gmap string levelLists) :=
  timeGroups ← (if truthy (log !! "timeOfDay") && negb (nullish (log !! "focusLevel"))
                then pushFocus timeGroups (log !! "timeOfDay") (log !! "focusLevel")
                else Return timeGroups);
  if truthy (log !! "timeOfDay") && negb (nullish (log !! "anxietyLevel"))
  then pushAnxiety timeGroups (log !! "timeOfDay") (log !! "anxietyLevel")
  else Return timeGroups.

(** What [renderFocusAnxietyChart(logs)] hands to the chart, on a page that
    has the canvas: the labels and the data of the two datasets, a null
    ([None]) for a time of day without levels.  [Object.values(timeGroups)]
    is the four groups in the order of the literal. *)
Record chartData := ChartData {
  chart_labels : list string;
  focusData : list (option jsNumber);
  anxietyData : list (option jsNumber) }.

Definition renderFocusAnxietyChart (logs : list obj) : outcome chartData :=
  timeGroups ← forEach groupLog emptyGroups logs;
  let values := omap (λ time, timeGroups !! time) ["morning"; "afternoon"; "evening"; "night"] in
  Return (ChartData ["Morning"; "Afternoon"; "Evening"; "Night"]
            ((λ group, averageOrNull (lists_focus group)) <$> values)
            ((λ group, averageOrNull (lists_anxiety group)) <$> values)).

(** *** The settings form *)

(** [parseInt(text) || fallback], [parsed] being what [parseInt] returns
    ([None] for NaN). *)
Definition parsed_or (parsed : option Z) (fallback : Z) : Z :=
  match parsed with
  | Some n => if bool_decide (n = 0%Z) then fallback else n
  | None => fallback
  end.

(** [saveSettingsFromUI()], up to the refresh of the page: [mgLimit] and
    [eventLimit] are what [parseInt] returns on the two fields, [offset] what
    [getTimezoneOffset()] returns at that time. *)
Definition saveSettingsFromUI (mgLimit eventLimit : option Z) (offset : Z) : js unit :=
  let settings :=
    object [("dailyMgLimit", Some (VNum (Qc_of_Z (parsed_or mgLimit 40))));
            ("dailyEventLimit", Some (VNum (Qc_of_Z (parsed_or eventLimit 5))));
            ("morningLimitEnabled", Some (VBool false));
            ("timezoneOffsetMinutes", Some (VNum (Qc_of_Z offset)))] in
  saveSettings settings.

(** *** The intake wizard *)

(** The object [wizardData]: the source is null or the value of the selected
    radio button, the quantity null or a number, the strength a number, the
    health effects an array of tags, the reason and the other reason null or
    a text; [estimatedMg] is undefined until [updateEstimatedMg] sets it. *)
Record wizardFields := WizardFields {
  source : option string;
  quantity : option Z;
  strength : Qc;
  healthEffects : list string;
  reason : option string;
  otherReason : option string;
  estimatedMg : option Qc }.

(** The state of the wizard: the two globals and, of the page, whether the
    Next and the Confirm buttons are disabled. *)
Record page := Page {
  currentWizardStep : Z;
  wizardData : wizardFields;
  wizardNext_disabled : bool;
  wizardConfirm_disabled : bool }.

(** A function of the application over the page: it returns or throws, and
    leaves a page either way. *)
Definition ui (A : Type) : Type := page → outcome A * page.

#[global] Instance ui_ret : MRet ui := λ A a p, (Return a, p).
#[global] Instance ui_bind : MBind ui := λ A B f m p,
  match m p with
  | (Return a, p') => f a p'
  | (Throw e, p') => (Throw e, p')
  end.

(** [isValid] in [validateWizardStep(step)]; for step 3 the truthiness of
    the expression. *)
Definition isValid (step : Z) (w : wizardFields) : bool :=
  if bool_decide (step = 1%Z)
  then bool_decide (source w ≠ None)
       && match quantity w with
          | Some q => bool_decide (0 < q)%Z
          | None => false
          end
       && bool_decide (Qc_of_Z 0 < strength w)%Qc
  else if bool_decide (step = 2%Z) then bool_decide (0 < length (healthEffects w))
  else if bool_decide (step = 3%Z)
  then match reason w with
       | Some r =>
           negb (bool_decide (r = "Other"))
           || match otherReason w with
              | Some other => negb (bool_decide (other = ""))
              | None => false
              end
       | None => false
       end
  else bool_decide (step = 4%Z).

(** Reading the globals and the page, and the assignments to
    [wizardData], to [currentWizardStep] and to the [disabled] property of the
    two buttons. *)
Definition readPage : ui page := λ p, (Return p, p).

Definition setFields (w : wizardFields) : ui unit := λ p,
  (Return (), Page (currentWizardStep p) w (wizardNext_disabled p) (wizardConfirm_disabled p)).

Definition setStep (step : Z) : ui unit := λ p,
  (Return (), Page step (wizardData p) (wizardNext_disabled p) (wizardConfirm_disabled p)).

Definition setDisabled (disabled : bool) : ui unit := λ p,
  (Return (), Page (currentWizardStep p) (wizardData p) disabled disabled).

Definition throwOnPage {A : Type} (message : string) : ui A := λ p, (Throw message, p).

Definition validateWizardStep (step : Z) : ui unit :=
  p ← readPage;
  setDisabled (negb (isValid step (wizardData p))).

(** [updateEstimatedMg()]. *)
Definition updateEstimatedMg : ui unit :=
  p ← readPage;
  let w := wizardData p in
  match source w, quantity w with
  | Some s, Some q =>
      if bool_decide (s = "") || bool_decide (q = 0%Z) || bool_decide (strength w = Qc_of_Z 0)
      then mret ()
      else
        setFields (WizardFields (source w) (quantity w) (strength w) (healthEffects w)
                     (reason w) (otherReason w)
                     (Some (calculateEstimatedMg s (Qc_of_Z q) (strength w))))
  | _, _ => mret ()
  end.

(** [updateConfirmationStep()]: it writes on the page only, and throws a
    TypeError on [wizardData.estimatedMg.toFixed(2)] when the estimate is
    undefined. *)
Definition updateConfirmationStep : ui unit :=
  p ← readPage;
  match estimatedMg (wizardData p) with
  | Some _ => mret ()
  | None => throwOnPage "TypeError"
  end.

(** [showWizardStep(step)] on a page that has the four steps [step1] to
    [step4]: for another step there is no element to activate, which is a
    TypeError before anything is changed. *)
Definition showWizardStep (step : Z) : ui unit :=
  if bool_decide (1 ≤ step ≤ 4)%Z
  then
    _ ← setStep step;
    _ ← validateWizardStep step;
    if bool_decide (step = 4%Z) then updateConfirmationStep else mret ()
  else throwOnPage "TypeError".

Definition nextWizardStep : ui unit :=
  p ← readPage;
  _ ← validateWizardStep (currentWizardStep p);
  p ← readPage;
  if wizardNext_disabled p then mret ()
  else if bool_decide (currentWizardStep p < 4)%Z
       then showWizardStep (currentWizardStep p + 1)
       else mret ().

Definition prevWizardStep : ui unit :=
  p ← readPage;
  if bool_decide (1 < currentWizardStep p)%Z
  then
    _ ← showWizardStep (currentWizardStep p - 1);
    p ← readPage;
    validateWizardStep (currentWizardStep p)
  else mret ().

(** [openWizard()]. *)
Definition openWizard : ui unit :=
  _ ← setStep 1;
  _ ← setFields (WizardFields None None (Qc_of_Z 0) [] None None None);
  _ ← showWizardStep 1;
  validateWizardStep 1.

(** What happens on the page while the wizard is open, with what the
    listener reads of the event: the value of the radio button or of the
    text field, what [parseInt] returns on the quantity ([None] for NaN), the
    number the strength slider holds, whether the checkbox is checked. *)
Inductive event :=
  | SourceChange (value : string)
  | QuantityInput (parsed : option Z)
  | StrengthInput (parsed : Qc)
  | HealthEffectChange (checked : bool) (value : string)
  | ReasonChange (value : string)
  | OtherReasonInput (value : string)
  | NextClick
  | PrevClick.

(** The listeners that [setupEventListeners] installs for these events. *)
Definition listener (e : event) : ui unit :=
  p ← readPage;
  let w := wizardData p in
  match e with
  | SourceChange value =>
      _ ← setFields (WizardFields (Some value) (quantity w) (strength w) (healthEffects w)
                       (reason w) (otherReason w) (estimatedMg w));
      validateWizardStep 1
  | QuantityInput parsed =>
      _ ← setFields (WizardFields (source w)
                       (match parsed with
                        | Some n => if bool_decide (n = 0%Z) then None else Some n
                        | None => None
                        end)
                       (strength w) (healthEffects w) (reason w) (otherReason w)
                       (estimatedMg w));
      _ ← updateEstimatedMg;
      validateWizardStep 1
  | StrengthInput parsed =>
      _ ← setFields (WizardFields (source w) (quantity w) parsed (healthEffects w) (reason w)
                       (otherReason w) (estimatedMg w));
      _ ← updateEstimatedMg;
      validateWizardStep 1
  | HealthEffectChange checked value =>
      _ ← setFields (WizardFields (source w) (quantity w) (strength w)
                       (if checked then healthEffects w ++ [value]
                        else filter (λ v, v ≠ value) (healthEffects w))
                       (reason w) (otherReason w) (estimatedMg w));
      validateWizardStep 2
  | ReasonChange value =>
      _ ← setFields (WizardFields (source w) (quantity w) (strength w) (healthEffects w)
                       (Some value)
                       (if bool_decide (value = "Other") then otherReason w else None)
                       (estimatedMg w));
      validateWizardStep 3
  | OtherReasonInput value =>
      _ ← setFields (WizardFields (source w) (quantity w) (strength w) (healthEffects w)
                       (reason w) (Some value) (estimatedMg w));
      validateWizardStep 3
  | NextClick => nextWizardStep
  | PrevClick => prevWizardStep
  end.

(** *** Sample data *)

(** Two more built-ins: the instant a [Date] holds after [setHours(h, m)],
    and the numbers that [Math.random()] returns, one after the other, during
    a call of [generateSampleLogs]. *)
Context (setHours : Z → Z → Z → Z).
Context (Math_random : nat → Qc).

(** A computation that draws random numbers: it is given the number of
    draws so far and returns it updated. *)
Definition gen (A : Type) : Type := nat → A * nat.

#[global] Instance gen_ret : MRet gen := λ A a n, (a, n).
#[global] Instance gen_bind : MBind gen := λ A B f m n,
  let '(a, n') := m n in f a n'.

Definition random : gen Qc := λ n, (Math_random n, S n).

Definition Math_floor (x : Qc) : Z := Qfloor x.

(** [Math.floor(Math.random() * k)]. *)
Definition randomBelow (k : Z) : gen Z :=
  r ← random; mret (Math_floor (r * Qc_of_Z k)).

(** [array[i]] for an array of strings: undefined outside it. *)
Definition element (array : list string) (i : Z) : option value :=
  if bool_decide (0 ≤ i)%Z then VStr <$> array !! Z.to_nat i else None.

Definition morningLog (date : Z) (dateStr : string) : gen obj :=
  hour ← randomBelow 2;
  minute ← randomBelow 60;
  let morningTime := setHours date (8 + hour) minute in
  source ← randomBelow 3;
  amount ← randomBelow 10;
  estimatedMg ← random;
  focusLevel ← randomBelow 3;
  anxietyLevel ← randomBelow 3;
  mret (object [("id", Some (VStr ("sample-" +:+ dateStr +:+ "-morning")));
                ("timestamp", Some (VStr (toISOString morningTime)));
                ("date", Some (VStr dateStr));
                ("timeOfDay", Some (VStr "morning"));
                ("source", element ["Vape"; "Cigarettes"; "Snus"] source);
                ("unitType", Some (VStr "puffs"));
                ("amount", Some (VNum (Qc_of_Z (amount + 5))));
                ("estimatedMg", Some (VNum (estimatedMg * Qc_of_Z 5 + Qc_of_Z 2)));
                ("reason", Some (VStr "Just woke up / habit"));
                ("healthEffects", Some (VArr ["Alertness"; "Better focus"]));
                ("focusLevel", Some (VNum (Qc_of_Z (focusLevel + 6))));
                ("anxietyLevel", Some (VNum (Qc_of_Z (anxietyLevel + 2))));
                ("clearThinking", Some (VBool true));
                ("notes", Some VNull)]).

Definition afternoonLog (date : Z) (dateStr : string) : gen obj :=
  hour ← randomBelow 3;
  minute ← randomBelow 60;
  let afternoonTime := setHours date (14 + hour) minute in
  source ← randomBelow 3;
  amount ← randomBelow 8;
  estimatedMg ← random;
  reason ← randomBelow 3;
  focusLevel ← randomBelow 4;
  anxietyLevel ← randomBelow 4;
  clearThinking ← random;
  mret (object [("id", Some (VStr ("sample-" +:+ dateStr +:+ "-afternoon")));
                ("timestamp", Some (VStr (toISOString afternoonTime)));
                ("date", Some (VStr dateStr));
                ("timeOfDay", Some (VStr "afternoon"));
                ("source", element ["Vape"; "Cigarettes"; "Snus"] source);
                ("unitType", Some (VStr "puffs"));
                ("amount", Some (VNum (Qc_of_Z (amount + 3))));
                ("estimatedMg", Some (VNum (estimatedMg * Qc_of_Z 4 + Qc_of_Z 1)));
                ("reason", element ["Stress"; "Studying / focus"; "Boredom"] reason);
                ("healthEffects", Some (VArr ["Reduced stress"; "Better focus"]));
                ("focusLevel", Some (VNum (Qc_of_Z (focusLevel + 5))));
                ("anxietyLevel", Some (VNum (Qc_of_Z (anxietyLevel + 3))));
                ("clearThinking", Some (VBool (bool_decide (Q2Qc (3 # 10) < clearThinking)%Qc)));
                ("notes", Some VNull)]).

Definition eveningLog (date : Z) (dateStr : string) : gen obj :=
  hour ← randomBelow 2;
  minute ← randomBelow 60;
  let eveningTime := setHours date (18 + hour) minute in
  source ← randomBelow 3;
  amount ← randomBelow 6;
  estimatedMg ← random;
  reason ← randomBelow 3;
  focusLevel ← randomBelow 3;
  anxietyLevel ← randomBelow 3;
  clearThinking ← random;
  mret (object [("id", Some (VStr ("sample-" +:+ dateStr +:+ "-evening")));
                ("timestamp", Some (VStr (toISOString eveningTime)));
                ("date", Some (VStr dateStr));
                ("timeOfDay", Some (VStr "evening"));
                ("source", element ["Vape"; "Cigarettes"; "Snus"] source);
                ("unitType", Some (VStr "puffs"));
                ("amount", Some (VNum (Qc_of_Z (amount + 2))));
                ("estimatedMg", Some (VNum (estimatedMg * Qc_of_Z 3 + Qc_of_Z 1)));
                ("reason", element ["Partying / social"; "Stress"; "Boredom"] reason);
                ("healthEffects", Some (VArr ["Reduced stress"]));
                ("focusLevel", Some (VNum (Qc_of_Z (focusLevel + 4))));
                ("anxietyLevel", Some (VNum (Qc_of_Z (anxietyLevel + 4))));
                ("clearThinking", Some (VBool (bool_decide (Q2Qc (1 # 2) < clearThinking)%Qc)));
                ("notes", Some VNull)]).

(** The body of the loop of [generateSampleLogs] for the day [i] days before
    [now]: the logs it pushes. *)
Definition sampleDay (now i : Z) : gen (list obj) :=
  let date := setDate now (getDate now - i) in
  let dateStr := toISODate date in
  morning ← morningLog date dateStr;
  chance ← random;
  afternoon ← (if bool_decide (Q2Qc (1 # 2) < chance)%Qc
               then log ← afternoonLog date dateStr; mret [log]
               else mret []);
  chance ← random;
  evening ← (if bool_decide (Q2Qc (7 # 10) < chance)%Qc
             then log ← eveningLog date dateStr; mret [log]
             else mret []);
  mret (morning :: afternoon ++ evening).

(** [generateSampleLogs()], [now] being the instant of its [new Date()]. *)
Definition generateSampleLogs (now : Z) : gen (list obj) :=
  foldl (λ (acc : gen (list obj)) i, logs ← acc; day ← sampleDay now i; mret (logs ++ day))
        (mret []) [6; 5; 4; 3; 2; 1; 0]%Z.

(** [initializeSampleData()]. *)
Definition initializeSampleData (now : Z) : js bool :=
  existingLogs ← loadLogs;
  if bool_decide (length existingLogs = 0)
  then
    let sampleLogs := (generateSampleLogs now 0).1 in
    _ ← saveLogs sampleLogs;
    mret true
  else mret false.

(** ** Vocabulary of the statements *)

(** The logs the program sees in a storage state: what [loadLogs] returns. *)
Definition storedLogs (st : localStorage) : list obj :=
  match nicotracker_logs st with
  | Stored logs => logs
  | Absent | Corrupt => []
  end.

(** No two logs of the list, at different positions, have the same id. *)
Definition unique_ids (logs : list obj) : Prop :=
  ∀ (i j : nat) (a b : obj),
    logs !! i = Some a → logs !! j = Some b →
    strict_eq (a !! "id") (b !! "id") = true → i = j.

(** The storage state in which the logs are [logs] and the settings are those
    of [st]. *)
Definition with_logs (logs : list obj) (st : localStorage) : localStorage :=
  LocalStorage (Stored logs) (nicotracker_settings st).

(** Some log of [logs] has the id of [log]. *)
Definition id_taken (logs : list obj) (log : obj) : bool :=
  existsb (λ stored : obj, strict_eq (log !! "id") (stored !! "id")) logs.

(** The uniqueness of ids as a test: no log has the id of a later one. *)
Fixpoint unique_idsb (logs : list obj) : bool :=
  match logs with
  | [] => true
  | log :: logs' => negb (id_taken logs' log) && unique_idsb logs'
  end.

(** The logs of an imported array whose id no stored log has, in the order of
    the array. *)
Definition new_records (stored imported : list obj) : list obj :=
  filter (λ log, negb (id_taken stored log)) imported.

(** The ids of the logs of a list, position by position. *)
Definition ids (logs : list obj) : list (option value) :=
  (λ log : obj, log !! "id") <$> logs.

(** The storage state an operation leaves, whether it returns or throws. *)
Definition perform (op : operation) (st : localStorage) : localStorage :=
  match op with
  | Append logData idClock random stampClock => (addLog logData idClock random stampClock st).2
  | Amend logId updates => (updateLog logId updates st).2
  | Import file => (importData file st).2
  end.

Definition perform_all (ops : list operation) (st : localStorage) : localStorage :=
  foldl (λ st op, perform op st) st ops.

(** What the uniqueness of ids rests on, for an operation in a storage
    state: the id generated for an appended log is the id of no stored log;
    the updates of an amendment do not name the property id; the logs of an
    imported array that are new to the store have ids that differ from one
    another. *)
Definition keeps_ids_apart (op : operation) (st : localStorage) : Prop :=
  match op with
  | Append _ idClock random _ =>
      id_taken (storedLogs st) {["id" := VStr (generateId idClock random)]} = false
  | Amend _ updates => updates !! "id" = None
  | Import (Parsed data) =>
      match imported_logs data with
      | LogsArray importedLogs => unique_ids (new_records (storedLogs st) importedLogs)
      | LogsMissing | LogsNotArray => True
      end
  | Import _ => True
  end.

Fixpoint all_keep_ids_apart (ops : list operation) (st : localStorage) : Prop :=
  match ops with
  | [] => True
  | op :: ops' => keeps_ids_apart op st ∧ all_keep_ids_apart ops' (perform op st)
  end.

(** A numeric property holds a number or null, or is absent; a log is typed
    when its three numeric properties are. *)
Definition numeric (v : option value) : Prop :=
  match v with
  | None | Some VNull | Some (VNum _) => True
  | Some _ => False
  end.

Definition typed_log (log : obj) : Prop :=
  numeric (log !! "estimatedMg") ∧ numeric (log !! "focusLevel") ∧ numeric (log !! "anxietyLevel").

(** The number a property holds, when it holds one. *)
Definition number (v : option value) : option Qc :=
  match v with
  | Some (VNum x) => Some x
  | _ => None
  end.

Definition sum (xs : list Qc) : Qc := foldr Qcplus (Qc_of_Z 0) xs.

(** The mean of a list of numbers; there is none for the empty list. *)
Definition mean (xs : list Qc) : option Qc :=
  match xs with
  | [] => None
  | _ :: _ => Some (sum xs / Qc_of_Z (Z.of_nat (length xs)))%Qc
  end.

(** The logs whose date property is the given text. *)
Definition on_date (date : string) (logs : list obj) : list obj :=
  filter (λ log : obj, log !! "date" = Some (VStr date)) logs.

(** Some log of the list has, as its date property, the date of the UTC day
    [day]. *)
Definition logged_on (logs : list obj) (day : Z) : Prop :=
  ∃ log : obj, log ∈ logs ∧ log !! "date" = Some (VStr (isoDay day)).

(** A dose is in a bucket when it is in its half-open interval; the dose of
    a log is in a bucket when it is a number other than 0 that is. *)
Definition inBucket (bucket : doseBucket) (x : Qc) : bool :=
  bool_decide (bucket_min bucket ≤ x)%Qc && bool_decide (x < bucket_max bucket)%Qc.

Definition dose_in (bucket : doseBucket) (v : option value) : bool :=
  match number v with
  | Some x => negb (bool_decide (x = Qc_of_Z 0)) && inBucket bucket x
  | None => false
  end.

(** A log contributes to the cell of a dose bucket and a time bucket when its
    dose is in the bucket, its time of day is the time bucket and both its
    levels are numbers. *)
Definition contributes (bucket : doseBucket) (time : string) (log : obj) : bool :=
  dose_in bucket (log !! "estimatedMg")
  && bool_decide (log !! "timeOfDay" = Some (VStr time))
  && bool_decide (is_Some (number (log !! "focusLevel")))
  && bool_decide (is_Some (number (log !! "anxietyLevel"))).

Definition contributing (bucket : doseBucket) (time : string) (logs : list obj) : list obj :=
  filter (λ log, contributes bucket time log) logs.

(** The time of day of a log is one of the four time buckets, or is missing
    (absent, null or empty). *)
Definition timed_log (log : obj) : Prop :=
  match log !! "timeOfDay" with
  | None | Some VNull => True
  | Some (VStr s) => s = "" ∨ s ∈ timeBuckets
  | Some _ => False
  end.

(** [lo] below [lo], [hi] above [hi], the value itself in between. *)
Definition clamp (lo hi v : Qc) : Qc :=
  if bool_decide (v < lo)%Qc then lo else if bool_decide (hi < v)%Qc then hi else v.

(** What a cell of the result reports of the logs that contribute to it: its
    place and labels, their number, and with at least one of them the means
    of their levels and the metric of these means; zeros with none. *)
Definition reports (cell : resultCell) (i j : nat) (bucket : doseBucket) (time : string)
    (logs : list obj) : Prop :=
  let focus := omap (λ log : obj, number (log !! "focusLevel")) (contributing bucket time logs) in
  let anxiety :=
    omap (λ log : obj, number (log !! "anxietyLevel")) (contributing bucket time logs) in
  doseIdx cell = i ∧ timeIdx cell = j ∧
  doseLabel cell = bucket_label bucket ∧ timeLabel cell = timeLabels !! j ∧
  count cell = length (contributing bucket time logs) ∧
  match mean focus, mean anxiety with
  | Some f, Some a =>
      0 < count cell ∧ avgFocus cell = Num f ∧ avgAnxiety cell = Num a ∧
      metric cell
      = Num (clamp (Qc_of_Z 0) (Qc_of_Z 100)
               ((f - a + Qc_of_Z 9) / Qc_of_Z 18 * Qc_of_Z 100)%Qc)
  | _, _ =>
      count cell = 0 ∧ avgFocus cell = Num (Qc_of_Z 0) ∧ avgAnxiety cell = Num (Qc_of_Z 0) ∧
      metric cell = Num (Qc_of_Z 0)
  end.

(** The matrix whose cell under a dose bucket and a time bucket is given by
    [c]; a cell after one more log; the cell of the logs that contribute to
    it; the result cell of a matrix cell, and those of all cells in the order
    of the result. *)
Definition matrixWith (c : doseBucket → string → matrixCell) : matrix :=
  foldl (λ (m : matrix) bucket,
           <[bucket_label bucket :=
               foldl (λ (row : gmap string matrixCell) time, <[time := c bucket time]> row)
                     ∅ timeBuckets]> m)
        ∅ doseBuckets.

Definition push (cell : matrixCell) (log : obj) : matrixCell :=
  MatrixCell (cell_focus cell ++ [log !! "focusLevel"])
             (cell_anxiety cell ++ [log !! "anxietyLevel"])
             (S (cell_count cell)).

Definition cellOf (logs : list obj) (bucket : doseBucket) (time : string) : matrixCell :=
  MatrixCell ((λ log : obj, log !! "focusLevel") <$> contributing bucket time logs)
             ((λ log : obj, log !! "anxietyLevel") <$> contributing bucket time logs)
             (length (contributing bucket time logs)).

Definition summary (doseIdx : nat) (bucket : doseBucket) (timeIdx : nat) (cell : matrixCell)
    : resultCell :=
  ResultCell doseIdx timeIdx (bucket_label bucket) (timeLabels !! timeIdx)
    (cellMetrics cell).1.1 (cellMetrics cell).1.2 (cellMetrics cell).2 (cell_count cell).

Definition summaries (logs : list obj) : list resultCell :=
  '(doseIdx, bucket) ← imap pair doseBuckets;
  '(timeIdx, time) ← imap pair timeBuckets;
  [summary doseIdx bucket timeIdx (cellOf logs bucket time)].

(** The settings the program sees in a storage state, before the defaults
    are filled in. *)
Definition storedSettings (st : localStorage) : obj :=
  match nicotracker_settings st with
  | Stored settings => settings
  | Absent | Corrupt => ∅
  end.

(** The date of a log is a string, or is missing. *)
Definition dated_log (log : obj) : Prop :=
  match log !! "date" with
  | None | Some (VStr _) => True
  | Some _ => False
  end.

(** The id of a log is a primitive value (or is missing): it is equal to
    itself. *)
Definition plain_id (log : obj) : Prop :=
  strict_eq (log !! "id") (log !! "id") = true.

(** The levels of a log, where they are numbers, are on the scale from 1
    to 10. *)
Definition on_scale (log : obj) : Prop :=
  ∀ (property : string) (x : Qc),
    property ∈ ["focusLevel"; "anxietyLevel"] →
    number (log !! property) = Some x → (Qc_of_Z 1 ≤ x)%Qc ∧ (x ≤ Qc_of_Z 10)%Qc.

(** A log that the sweet-spot matrix has no cell for: its dose is in a dose
    bucket and it has both levels, but its time of day is a text that is not
    one of the four time buckets. *)
Definition misplaced (log : obj) : Prop :=
  (∃ bucket, bucket ∈ doseBuckets ∧ dose_in bucket (log !! "estimatedMg") = true) ∧
  nullish (log !! "focusLevel") = false ∧
  nullish (log !! "anxietyLevel") = false ∧
  ∃ time : string, log !! "timeOfDay" = Some (VStr time) ∧ time ≠ "" ∧ time ∉ timeBuckets.

(** The logs whose time of day is the given text, and the levels of a list
    of logs that are numbers. *)
Definition at_time (time : string) (logs : list obj) : list obj :=
  filter (λ log : obj, log !! "timeOfDay" = Some (VStr time)) logs.

Definition levels (property : string) (logs : list obj) : list Qc :=
  omap (λ log : obj, number (log !! property)) logs.

(** The object that holds [c time] under each of the four times of day, and
    the groups of a list of logs. *)
Definition groupsWith (c : string → levelLists) : gmap string levelLists :=
  list_to_map [("morning", c "morning"); ("afternoon", c "afternoon");
               ("evening", c "evening"); ("night", c "night")].

Definition groupOf (logs : list obj) (time : string) : levelLists :=
  LevelLists (presentLevels "focusLevel" (at_time time logs))
             (presentLevels "anxietyLevel" (at_time time logs)).

(** A log that the groups by time of day have no place for: it has a level,
    and its time of day is a text that is not one of the four. *)
Definition ungrouped (log : obj) : Prop :=
  (nullish (log !! "focusLevel") = false ∨ nullish (log !! "anxietyLevel") = false) ∧
  ∃ time : string, log !! "timeOfDay" = Some (VStr time) ∧ time ≠ "" ∧ time ∉ timeBuckets.

(** The level a log adds to an array of levels: none when it is null or
    missing. *)
Definition present (level : option value) : list (option value) :=
  if nullish level then [] else [level].

(** What a step of the wizard asks for: a source, a positive quantity and a
    positive strength; at least one health effect; a reason, and for the
    reason Other a text that says which; nothing at the confirmation. *)
Definition step_valid (step : Z) (w : wizardFields) : Prop :=
  (step = 1%Z ∧ is_Some (source w) ∧ (∃ q, quantity w = Some q ∧ (0 < q)%Z)
   ∧ (Qc_of_Z 0 < strength w)%Qc)
  ∨ (step = 2%Z ∧ healthEffects w ≠ [])
  ∨ (step = 3%Z ∧ ∃ r, reason w = Some r
                     ∧ (r = "Other" → ∃ other, otherReason w = Some other ∧ other ≠ ""))
  ∨ step = 4%Z.

(** The page after a sequence of events; an exception that a listener
    throws ends that listener and nothing else. *)
Definition after (events : list event) (p : page) : page :=
  foldl (λ p e, (listener e p).2) p events.



(** The date text of the sample logs of the day [i] days before [now], and
    what every sample log of a day is: its id names the date and the part of
    the day, which is its time of day; its dose is from 1 to 7 mg, its focus
    from 4 to 9 and its anxiety from 2 to 6. *)
Definition sampleDate (now i : Z) : string :=
  toISODate (setDate now (getDate now - i)).

Definition sample_log (dateStr : string) (log : obj) : Prop :=
  (∃ part : string,
     part ∈ ["morning"; "afternoon"; "evening"] ∧
     log !! "id" = Some (VStr ("sample-" +:+ dateStr +:+ "-" +:+ part)) ∧
     log !! "timeOfDay" = Some (VStr part)) ∧
  log !! "date" = Some (VStr dateStr) ∧
  (∃ x : Qc, log !! "estimatedMg" = Some (VNum x) ∧ (Qc_of_Z 1 ≤ x)%Qc ∧ (x < Qc_of_Z 7)%Qc) ∧
  (∃ f : Z, log !! "focusLevel" = Some (VNum (Qc_of_Z f)) ∧ (4 ≤ f ≤ 9)%Z) ∧
  (∃ a : Z, log !! "anxietyLevel" = Some (VNum (Qc_of_Z a)) ∧ (2 ≤ a ≤ 6)%Z).

(** The ids that the sample logs of a day may have, in the order of the
    parts of the day. *)
Definition dayIds (dateStr : string) : list (option value) :=
  (λ part, Some (VStr ("sample-" +:+ dateStr +:+ "-" +:+ part)))
    <$> ["morning"; "afternoon"; "evening"].

(** Every draw of [Math.random()] is at least 0 and below 1. *)
Definition unit_random : Prop :=
  ∀ n : nat, (Qc_of_Z 0 ≤ Math_random n)%Qc ∧ (Math_random n < Qc_of_Z 1)%Qc.

(** The days that [generateSampleLogs] goes through, as numbers of days
    before today. *)
Definition sampleDays : list Z := [6; 5; 4; 3; 2; 1; 0]%Z.




(** ** Properties *)

(** *** Time of day and dose estimation *)

(** C10: the time-of-day classifier is total and maps every local hour to
    exactly one category: morning exactly for the hours in [5,12), afternoon
    exactly for [12,17), evening exactly for [17,22), and night exactly for
    every other hour (22, 23, and 0 through 4). *)
Theorem getTimeOfDay_boundaries (date : Z) :
  let hour := getHours date in
  getTimeOfDay date ∈ ["morning"; "afternoon"; "evening"; "night"] ∧
  (getTimeOfDay date = "morning" ↔ (5 ≤ hour < 12)%Z) ∧
  (getTimeOfDay date = "afternoon" ↔ (12 ≤ hour < 17)%Z) ∧
  (getTimeOfDay date = "evening" ↔ (17 ≤ hour < 22)%Z) ∧
  (getTimeOfDay date = "night" ↔ (hour < 5 ∨ 22 ≤ hour)%Z).
Proof.
  intros hour. unfold getTimeOfDay. fold hour.
  repeat case_bool_decide; simpl;
    (split; [rewrite !elem_of_cons; auto
            | repeat split; intros; first [lia | discriminate | reflexivity]]).
Qed.

(** C3: the estimation function returns 0 whenever quantity <= 0 or
    strength <= 0, for every source; otherwise it returns
    (strength / 200) * quantity for Vape, strength * quantity for Cigarettes
    and for Snus, and 0 for any other source; in particular
    ('Cigarettes', 3, 2) gives 6, ('Vape', 200, 10) gives 10 and
    ('Snus', 4, 1.5) gives 6. *)
Theorem calculateEstimatedMg_contract (source : string) (quantity strength : Qc) :
  ((quantity ≤ Qc_of_Z 0 ∨ strength ≤ Qc_of_Z 0)%Qc →
     calculateEstimatedMg source quantity strength = Qc_of_Z 0) ∧
  ((Qc_of_Z 0 < quantity)%Qc → (Qc_of_Z 0 < strength)%Qc →
     (source = "Vape" →
        calculateEstimatedMg source quantity strength = (strength / Qc_of_Z 200 * quantity)%Qc) ∧
     (source = "Cigarettes" ∨ source = "Snus" →
        calculateEstimatedMg source quantity strength = (strength * quantity)%Qc) ∧
     (source ≠ "Vape" → source ≠ "Cigarettes" → source ≠ "Snus" →
        calculateEstimatedMg source quantity strength = Qc_of_Z 0)) ∧
  calculateEstimatedMg "Cigarettes" (Qc_of_Z 3) (Qc_of_Z 2) = Qc_of_Z 6 ∧
  calculateEstimatedMg "Vape" (Qc_of_Z 200) (Qc_of_Z 10) = Qc_of_Z 10 ∧
  calculateEstimatedMg "Snus" (Qc_of_Z 4) (Q2Qc (3 # 2)) = Qc_of_Z 6.
Proof.
  split; [|split].
  - unfold calculateEstimatedMg. intros [Hq | Hs].
    + rewrite (bool_decide_eq_true_2 _ Hq), orb_true_r. done.
    + rewrite (bool_decide_eq_true_2 (strength ≤ _)%Qc Hs), orb_true_r.
      by destruct (_ || _).
  - intros Hq Hs. unfold calculateEstimatedMg, truthy.
    rewrite (bool_decide_eq_false_2 (quantity = _)), (bool_decide_eq_false_2 (quantity ≤ _)%Qc),
      (bool_decide_eq_false_2 (strength = _)), (bool_decide_eq_false_2 (strength ≤ _)%Qc);
      [| by apply Qclt_not_le | intros ->; by apply (Qclt_not_eq _ _ Hs)
       | by apply Qclt_not_le | intros ->; by apply (Qclt_not_eq _ _ Hq)].
    simpl. repeat split.
    + intros ->. done.
    + intros [-> | ->]; done.
    + intros H1 H2 H3. by rewrite !bool_decide_eq_false_2.
  - repeat split; apply (bool_decide_unpack _); by vm_compute.
Qed.

(** *** The log store *)

Lemma loadLogs_storedLogs (st : localStorage) : loadLogs st = (Return (storedLogs st), st).
Proof. unfold loadLogs, storedLogs. by destruct (nicotracker_logs st). Qed.

Lemma storedLogs_with_logs (logs : list obj) (st : localStorage) :
  storedLogs (with_logs logs st) = logs.
Proof. reflexivity. Qed.

Lemma saveLogs_fits (logs : list obj) (st : localStorage) :
  fits (with_logs logs st) = true → saveLogs logs st = (Return (), with_logs logs st).
Proof. unfold saveLogs, with_logs. by intros ->. Qed.

Lemma findIndex_none {A : Type} (p : A → bool) (l : list A) :
  (∀ x, x ∈ l → p x = false) → findIndex p l = (-1)%Z.
Proof.
  induction l as [|x l IH]; intros Hall; simpl; [done|].
  rewrite (Hall x) by apply list_elem_of_here.
  rewrite IH; [done|]. intros y Hy. apply Hall. by apply list_elem_of_further.
Qed.

Lemma findIndex_first {A : Type} (p : A → bool) (l : list A) (i : nat) (x : A) :
  l !! i = Some x → p x = true →
  (∀ j y, j < i → l !! j = Some y → p y = false) →
  findIndex p l = Z.of_nat i.
Proof.
  revert i. induction l as [|y l IH]; intros i Hi Hp Hbefore; [done|].
  destruct i as [|i]; simpl in *.
  - injection Hi as ->. by rewrite Hp.
  - rewrite (Hbefore 0 y) by (done || lia).
    assert (findIndex p l = Z.of_nat i) as ->.
    { apply IH; [done | done |]. intros j z Hj Hz. apply (Hbefore (S j)); [lia | done]. }
    rewrite bool_decide_eq_false_2 by lia. lia.
Qed.

(** C8: amend, called with an id no stored log has, fails with the error
    'Log not found' and leaves the storage unchanged; called with an id some
    stored log has, on a medium that accepts the write, it merges the updates
    into the first log with that id (a property the updates name takes their
    value, every other property keeps its value), leaves every other log and
    the settings untouched, persists the result and returns the updated
    log. *)
Theorem updateLog_contract (logId : option value) (updates : obj) (st : localStorage) :
  ((∀ log : obj, log ∈ storedLogs st → strict_eq (log !! "id") logId = false) →
     updateLog logId updates st = (Throw "Log not found", st)) ∧
  (∀ (i : nat) (log : obj),
     storedLogs st !! i = Some log →
     strict_eq (log !! "id") logId = true →
     (∀ j (log' : obj), j < i → storedLogs st !! j = Some log' →
        strict_eq (log' !! "id") logId = false) →
     fits (with_logs (<[i := spread log updates]> (storedLogs st)) st) = true →
     ∃ (updated : obj) (st' : localStorage),
       updateLog logId updates st = (Return updated, st') ∧
       (∀ k, updated !! k = match updates !! k with Some v => Some v | None => log !! k end) ∧
       length (storedLogs st') = length (storedLogs st) ∧
       storedLogs st' !! i = Some updated ∧
       (∀ j, j ≠ i → storedLogs st' !! j = storedLogs st !! j) ∧
       nicotracker_settings st' = nicotracker_settings st).
Proof.
  split.
  - intros Hnone. unfold updateLog, mbind, js_bind. rewrite loadLogs_storedLogs.
    by rewrite findIndex_none.
  - intros i log Hi Hid Hfirst Hfits.
    exists (spread log updates), (with_logs (<[i := spread log updates]> (storedLogs st)) st).
    assert (i < length (storedLogs st)) as Hlt by (by eapply lookup_lt_Some).
    split; [|split; [|split; [|split; [|split]]]].
    + unfold updateLog, mbind, js_bind. rewrite loadLogs_storedLogs.
      rewrite (findIndex_first _ _ i log) by done.
      rewrite bool_decide_eq_false_2 by lia. rewrite Nat2Z.id, Hi. simpl.
      rewrite saveLogs_fits by done. unfold mret, js_ret.
      by rewrite list_lookup_insert_eq.
    + intros k. unfold spread. rewrite lookup_union.
      destruct (updates !! k), (log !! k); done.
    + by rewrite storedLogs_with_logs, length_insert.
    + by rewrite storedLogs_with_logs, list_lookup_insert_eq.
    + intros j Hne. by rewrite storedLogs_with_logs, list_lookup_insert_ne.
    + done.
Qed.

Lemma strict_eq_true (a b : option value) : strict_eq a b = true → a = b.
Proof.
  unfold strict_eq. intros H.
  destruct a as [[]|], b as [[]|]; try discriminate; by apply bool_decide_eq_true in H.
Qed.

Lemma Set_has_add (s : list (option value)) (x v : option value) :
  Set_has (Set_add s x) v = Set_has s v || strict_eq v x.
Proof.
  unfold Set_has, Set_add. destruct (existsb (strict_eq x) s) eqn:Hx.
  - destruct (strict_eq v x) eqn:Hv; [|by rewrite orb_false_r].
    apply strict_eq_true in Hv as ->. by rewrite Hx.
  - rewrite existsb_app. simpl. by rewrite orb_false_r.
Qed.

Lemma Set_has_foldl (values s : list (option value)) (v : option value) :
  Set_has (foldl Set_add s values) v = Set_has s v || existsb (strict_eq v) values.
Proof.
  revert s. induction values as [|x values IH]; intros s; simpl.
  - by rewrite orb_false_r.
  - by rewrite IH, Set_has_add, orb_assoc.
Qed.

Lemma Set_has_new_Set (values : list (option value)) (v : option value) :
  Set_has (new_Set values) v = existsb (strict_eq v) values.
Proof. unfold new_Set. by rewrite Set_has_foldl. Qed.

Lemma Set_has_ids (logs : list obj) (log : obj) :
  Set_has (new_Set ((λ stored : obj, stored !! "id") <$> logs)) (log !! "id") = id_taken logs log.
Proof.
  rewrite Set_has_new_Set. unfold id_taken.
  induction logs as [|x logs IH]; [done|]. rewrite fmap_cons. simpl. by rewrite IH.
Qed.

Lemma loadSettings_storedSettings (st : localStorage) :
  loadSettings st = (Return (spread DEFAULT_SETTINGS (storedSettings st)), st).
Proof. unfold loadSettings, storedSettings. by destruct (nicotracker_settings st). Qed.

Lemma spread_lookup (a b : obj) (k : string) :
  spread a b !! k = match b !! k with Some v => Some v | None => a !! k end.
Proof. unfold spread. rewrite lookup_union. by destruct (b !! k), (a !! k). Qed.

Lemma importData_array (data : importedData) (importedLogs : list obj) (st : localStorage) :
  imported_logs data = LogsArray importedLogs →
  let merged := storedLogs st ++ new_records (storedLogs st) importedLogs in
  let message :=
    "Imported " +:+ pretty (length (new_records (storedLogs st) importedLogs))
    +:+ " new log entries" in
  importData (Parsed data) st
  = if fits (with_logs merged st)
    then match imported_settings data with
         | None => (Return message, with_logs merged st)
         | Some provided =>
             let mergedSettings :=
               spread (spread DEFAULT_SETTINGS (storedSettings st)) provided in
             if fits (LocalStorage (Stored merged) (Stored mergedSettings))
             then (Return message, LocalStorage (Stored merged) (Stored mergedSettings))
             else (Throw "Failed to save settings", with_logs merged st)
         end
    else (Throw "Failed to save logs", st).
Proof.
  intros Hlogs merged message.
  assert (filter (λ log : obj,
                    negb (Set_has (new_Set ((λ log : obj, log !! "id") <$> storedLogs st))
                            (log !! "id"))) importedLogs
          = new_records (storedLogs st) importedLogs) as Hnew.
  { apply list_filter_iff. intros log. by rewrite Set_has_ids. }
  unfold importData. rewrite Hlogs. unfold mbind, js_bind.
  rewrite loadLogs_storedLogs, Hnew. fold merged. unfold saveLogs.
  change (LocalStorage (Stored merged) (nicotracker_settings st)) with (with_logs merged st).
  destruct (fits (with_logs merged st)); [|done].
  destruct (imported_settings data) as [provided|]; [|done].
  rewrite loadSettings_storedSettings. unfold saveSettings. simpl.
  change (storedSettings (with_logs merged st)) with (storedSettings st).
  by destruct (fits _).
Qed.

(** C4: import, given a parsed object whose logs property is missing or is
    not an array, is rejected with a validation message and leaves the
    storage (logs and settings) exactly as it was; given an array of logs,
    when the medium accepts the write of the logs, it keeps the stored logs
    as they are, appends exactly the imported logs whose id no stored log
    has, and reports their number; without settings in the file the stored
    settings stay as they are, and with settings in the file it writes the
    merged settings, which hold under each name the provided value, or else
    the stored one, or else the default, and returns when the medium accepts
    that write. *)
Theorem importData_contract (data : importedData) (st : localStorage) :
  (imported_logs data = LogsMissing ∨ imported_logs data = LogsNotArray →
     importData (Parsed data) st = (Throw "Invalid file format: missing logs array", st)) ∧
  (∀ importedLogs : list obj,
     imported_logs data = LogsArray importedLogs →
     let newLogs := new_records (storedLogs st) importedLogs in
     let message := "Imported " +:+ pretty (length newLogs) +:+ " new log entries" in
     fits (with_logs (storedLogs st ++ newLogs) st) = true →
     match imported_settings data with
     | None =>
         importData (Parsed data) st
         = (Return message, with_logs (storedLogs st ++ newLogs) st)
     | Some provided =>
         ∃ merged : obj,
           (∀ k, merged !! k
                 = match provided !! k with
                   | Some v => Some v
                   | None =>
                       match storedSettings st !! k with
                       | Some v => Some v
                       | None => DEFAULT_SETTINGS !! k
                       end
                   end) ∧
           (fits (LocalStorage (Stored (storedLogs st ++ newLogs)) (Stored merged)) = true →
            importData (Parsed data) st
            = (Return message, LocalStorage (Stored (storedLogs st ++ newLogs)) (Stored merged)))
     end).
Proof.
  split.
  - unfold importData. by intros [-> | ->].
  - intros importedLogs Hlogs newLogs message Hfits.
    rewrite (importData_array _ importedLogs) by done. cbv zeta. fold newLogs. rewrite Hfits.
    destruct (imported_settings data) as [provided|]; [|done].
    exists (spread (spread DEFAULT_SETTINGS (storedSettings st)) provided). split.
    + intros k. by rewrite !spread_lookup.
    + by intros ->.
Qed.

(** *** Uniqueness of ids *)

Lemma strict_eq_sym (a b : option value) : strict_eq a b = strict_eq b a.
Proof.
  unfold strict_eq. destruct a as [[]|], b as [[]|]; try done;
    apply bool_decide_ext; split; congruence.
Qed.

Lemma unique_ids_ext (logs logs' : list obj) :
  ids logs = ids logs' → unique_ids logs → unique_ids logs'.
Proof.
  intros Hids Huniq i j a b Ha Hb Hsame.
  assert (∀ k (c : obj), logs' !! k = Some c →
            ∃ c' : obj, logs !! k = Some c' ∧ c' !! "id" = c !! "id") as Hback.
  { intros k c Hc.
    assert (ids logs !! k = Some (c !! "id")) as Hk.
    { rewrite Hids. unfold ids. by rewrite list_lookup_fmap, Hc. }
    unfold ids in Hk. apply list_lookup_fmap_Some in Hk as (c' & Hc' & ?). eauto. }
  destruct (Hback i a Ha) as (a' & Ha' & Hia), (Hback j b Hb) as (b' & Hb' & Hib).
  apply (Huniq i j a' b' Ha' Hb'). by rewrite Hia, Hib.
Qed.

Lemma id_taken_false (logs : list obj) (log stored : obj) :
  id_taken logs log = false → stored ∈ logs → strict_eq (log !! "id") (stored !! "id") = false.
Proof.
  unfold id_taken. intros Hnone Hin.
  destruct (strict_eq _ _) eqn:Heq; [|done].
  assert (existsb (λ stored : obj, strict_eq (log !! "id") (stored !! "id")) logs = true) as Hex.
  { apply existsb_exists. exists stored. split; [by apply list_elem_of_In | done]. }
  congruence.
Qed.

Lemma id_taken_same_id (logs : list obj) (log log' : obj) :
  log !! "id" = log' !! "id" → id_taken logs log = id_taken logs log'.
Proof. unfold id_taken. intros ->. done. Qed.

Lemma unique_ids_app (logs new : list obj) :
  unique_ids logs → unique_ids new →
  (∀ log : obj, log ∈ new → id_taken logs log = false) →
  unique_ids (logs ++ new).
Proof.
  intros Hlogs Hnew Hfresh i j a b Ha Hb Hsame.
  apply lookup_app_Some in Ha as [Ha | [Hi Ha]], Hb as [Hb | [Hj Hb]].
  - by apply (Hlogs i j a b).
  - exfalso. assert (strict_eq (b !! "id") (a !! "id") = false) as Hne.
    { apply (id_taken_false logs); [apply Hfresh|]; by eapply list_elem_of_lookup_2. }
    rewrite strict_eq_sym in Hne. congruence.
  - exfalso. assert (strict_eq (a !! "id") (b !! "id") = false) as Hne.
    { apply (id_taken_false logs); [apply Hfresh|]; by eapply list_elem_of_lookup_2. }
    congruence.
  - assert (i - length logs = j - length logs) by by apply (Hnew _ _ a b).
    lia.
Qed.

Lemma unique_idsb_sound (logs : list obj) : unique_idsb logs = true → unique_ids logs.
Proof.
  induction logs as [|log logs IH]; simpl.
  - intros _ i j a b Ha. done.
  - intros [Hfresh Hrest]%andb_prop. apply negb_true_iff in Hfresh.
    intros [|i] [|j] a b Ha Hb Hsame; simpl in *; simplify_eq.
    + done.
    + rewrite (id_taken_false logs a b Hfresh) in Hsame; [done|].
      by eapply list_elem_of_lookup_2.
    + rewrite strict_eq_sym, (id_taken_false logs b a Hfresh) in Hsame; [done|].
      by eapply list_elem_of_lookup_2.
    + f_equal. by apply (IH Hrest i j a b).
Qed.

Lemma unique_ids_singleton (log : obj) : unique_ids [log].
Proof.
  intros i j a b Ha Hb _. apply list_lookup_singleton_Some in Ha as [-> _].
  by apply list_lookup_singleton_Some in Hb as [-> _].
Qed.

Lemma new_records_fresh (stored imported : list obj) (log : obj) :
  log ∈ new_records stored imported → id_taken stored log = false.
Proof.
  unfold new_records. intros [Hnew _]%list_elem_of_filter.
  by destruct (id_taken stored log).
Qed.

(** An append leaves the stored logs as they are or adds the new log at the
    end. *)
Lemma addLog_storedLogs (logData : obj) (idClock : Z) (random : string) (stampClock : Z)
    (st : localStorage) :
  let newLog :=
    <["timestamp" := VStr (toISOString stampClock)]>
      (<["id" := VStr (generateId idClock random)]> logData) in
  (addLog logData idClock random stampClock st
     = (Return newLog, with_logs (storedLogs st ++ [newLog]) st) ∧
   fits (with_logs (storedLogs st ++ [newLog]) st) = true) ∨
  (addLog logData idClock random stampClock st = (Throw "Failed to save logs", st) ∧
   fits (with_logs (storedLogs st ++ [newLog]) st) = false).
Proof.
  intros newLog. unfold addLog, mbind, js_bind. rewrite loadLogs_storedLogs.
  fold newLog. unfold saveLogs. fold (with_logs (storedLogs st ++ [newLog]) st).
  destruct (fits _); [left | right]; done.
Qed.

(** An amendment that does not name a property leaves it, at every position
    of the store, as it is. *)
Lemma updateLog_keeps (property : string) (logId : option value) (updates : obj)
    (st : localStorage) :
  updates !! property = None →
  (λ log : obj, log !! property) <$> storedLogs (updateLog logId updates st).2
    = (λ log : obj, log !! property) <$> storedLogs st.
Proof.
  intros Hid. unfold updateLog, mbind, js_bind. rewrite loadLogs_storedLogs.
  case_bool_decide; [done|].
  set (i := Z.to_nat _). unfold saveLogs.
  fold (with_logs (<[i := spread (default ∅ (storedLogs st !! i)) updates]> (storedLogs st)) st).
  destruct (fits _); [|done]. simpl. rewrite storedLogs_with_logs.
  rewrite list_fmap_insert.
  destruct (storedLogs st !! i) as [log|] eqn:Hi.
  - simpl. apply list_insert_id. rewrite list_lookup_fmap, Hi. simpl.
    unfold spread. by rewrite lookup_union, Hid, (left_id None _).
  - by rewrite !list_insert_ge by (rewrite ?length_fmap; by apply lookup_ge_None).
Qed.

Lemma updateLog_ids (logId : option value) (updates : obj) (st : localStorage) :
  updates !! "id" = None →
  ids (storedLogs (updateLog logId updates st).2) = ids (storedLogs st).
Proof. apply updateLog_keeps. Qed.

(** An import leaves the stored logs as they are or adds the new records of
    the imported array at the end. *)
Lemma importData_storedLogs (file : fileContents) (st : localStorage) :
  storedLogs (importData file st).2 = storedLogs st ∨
  ∃ data importedLogs,
    file = Parsed data ∧ imported_logs data = LogsArray importedLogs ∧
    storedLogs (importData file st).2 = storedLogs st ++ new_records (storedLogs st) importedLogs.
Proof.
  destruct file as [|message|data]; [by left | by left |].
  unfold importData. destruct (imported_logs data) as [| |importedLogs] eqn:Hlogs; [by left | by left |].
  unfold mbind, js_bind. rewrite loadLogs_storedLogs.
  assert (filter (λ log : obj,
                    negb (Set_has (new_Set ((λ log : obj, log !! "id") <$> storedLogs st))
                            (log !! "id"))) importedLogs
          = new_records (storedLogs st) importedLogs) as ->.
  { apply list_filter_iff. intros log. by rewrite Set_has_ids. }
  unfold saveLogs. destruct (fits _); [|by left].
  right. exists data, importedLogs. split; [done | split; [done|]].
  destruct (imported_settings data) as [provided|]; [|done].
  unfold loadSettings, saveSettings. simpl.
  destruct (nicotracker_settings st); simpl; by destruct (fits _).
Qed.

Lemma perform_unique_ids (op : operation) (st : localStorage) :
  unique_ids (storedLogs st) → keeps_ids_apart op st → unique_ids (storedLogs (perform op st)).
Proof.
  intros Huniq Hop. destruct op as [logData idClock random stampClock|logId updates|file]; simpl in *.
  - destruct (addLog_storedLogs logData idClock random stampClock st) as [[-> _] | [-> _]]; [|done].
    simpl. apply unique_ids_app; [done | apply unique_ids_singleton |].
    intros log ->%list_elem_of_singleton. etrans; [|exact Hop].
    apply id_taken_same_id.
    by rewrite lookup_insert_ne, lookup_insert_eq, lookup_singleton_eq.
  - by apply (unique_ids_ext (storedLogs st)); [rewrite updateLog_ids|].
  - destruct (importData_storedLogs file st) as [-> | (data & importedLogs & -> & Hlogs & ->)]; [done|].
    rewrite Hlogs in Hop. apply unique_ids_app; [done | done |].
    intros log. apply new_records_fresh.
Qed.

(** C5, as the code has it: starting from a store whose ids are unique, the
    ids stay unique along every sequence of appends, amendments and imports
    in which each generated id is new to the store, no amendment names the
    property id and the new records of each imported array have ids that
    differ from one another; and an amendment that does not name the
    property id leaves the id of every stored log, so that of the log it
    targets, as it is. *)
Theorem ids_stay_unique (ops : list operation) (st : localStorage) :
  unique_ids (storedLogs st) →
  all_keep_ids_apart ops st →
  unique_ids (storedLogs (perform_all ops st)) ∧
  (∀ logId updates st0,
     updates !! "id" = None →
     ids (storedLogs (perform (Amend logId updates) st0)) = ids (storedLogs st0)).
Proof.
  intros Huniq Hops. split.
  - revert st Huniq Hops. induction ops as [|op ops IH]; intros st Huniq Hops; [done|].
    destruct Hops as [Hop Hops]. apply (IH (perform op st)); [|done].
    by apply perform_unique_ids.
  - intros logId updates st0. apply updateLog_ids.
Qed.

(** *** Daily statistics *)

Lemma Qc_of_Z_0 : Qc_of_Z 0 = 0%Qc.
Proof. by apply Qc_is_canon. Qed.

Lemma strict_eq_string (v : option value) (s : string) :
  strict_eq v (Some (VStr s)) = bool_decide (v = Some (VStr s)).
Proof.
  unfold strict_eq. by destruct v as [[]|].
Qed.

Lemma filter_date (date : string) (logs : list obj) :
  filter (λ log : obj, strict_eq (log !! "date") (Some (VStr date))) logs = on_date date logs.
Proof.
  apply list_filter_iff. intros log. rewrite strict_eq_string.
  by rewrite bool_decide_spec.
Qed.

Lemma js_add_number (a x : Qc) :
  js_add (PNumber (Num a)) (Some (VNum x)) = PNumber (Num (a + x)).
Proof. reflexivity. Qed.

Lemma js_add_or_zero (a : Qc) (v : option value) :
  numeric v →
  js_add (PNumber (Num a)) (or_zero v) = PNumber (Num (a + default (Qc_of_Z 0) (number v))).
Proof.
  unfold or_zero. destruct v as [[| |x| |]|]; try done; intros _; simpl; try done.
  case_bool_decide as Hx; simpl; [by rewrite Hx | done].
Qed.

Lemma foldl_total (f : obj → Qc) (g : primitive → obj → primitive) (logs : list obj) (a : Qc) :
  Forall (λ log, ∀ a, g (PNumber (Num a)) log = PNumber (Num (a + f log))) logs →
  foldl g (PNumber (Num a)) logs = PNumber (Num (a + sum (f <$> logs))).
Proof.
  intros Hall. revert a. induction Hall as [|log logs Hlog _ IH]; intros a; simpl.
  - by rewrite Qc_of_Z_0, Qcplus_0_r.
  - by rewrite Hlog, IH, Qcplus_assoc.
Qed.

Lemma foldl_numbers (xs : list Qc) (a : Qc) :
  foldl js_add (PNumber (Num a)) ((λ x, Some (VNum x)) <$> xs) = PNumber (Num (a + sum xs)).
Proof.
  revert a. induction xs as [|x xs IH]; intros a.
  - simpl. by rewrite Qc_of_Z_0, Qcplus_0_r.
  - rewrite fmap_cons. cbn [foldl]. rewrite js_add_number, IH.
    change (sum (x :: xs)) with (x + sum xs)%Qc. by rewrite Qcplus_assoc.
Qed.

Lemma average_numbers (xs : list Qc) :
  xs ≠ [] → average ((λ x, Some (VNum x)) <$> xs) = from_option Num NaN (mean xs).
Proof.
  intros Hne. unfold average. rewrite foldl_numbers, length_fmap.
  destruct xs as [|x xs]; [done|].
  rewrite bool_decide_eq_false_2 by (simpl; lia).
  unfold mean. simpl. by rewrite Qc_of_Z_0, Qcplus_0_l.
Qed.

Lemma presentLevels_numbers (property : string) (logs : list obj) :
  Forall (λ log : obj, numeric (log !! property)) logs →
  presentLevels property logs
  = (λ x, Some (VNum x)) <$> omap (λ log : obj, number (log !! property)) logs.
Proof.
  unfold presentLevels. intros Hall. induction Hall as [|log logs Hlog _ IH]; [done|].
  rewrite fmap_cons, filter_cons. simpl.
  destruct (log !! property) as [[| |x| |]|] eqn:Hp; try done; simpl; by rewrite IH.
Qed.

Lemma averageOrNull_mean (property : string) (logs : list obj) :
  Forall (λ log : obj, numeric (log !! property)) logs →
  averageOrNull (presentLevels property logs)
    = Num <$> mean (omap (λ log : obj, number (log !! property)) logs).
Proof.
  intros Hall. unfold averageOrNull. rewrite presentLevels_numbers by done.
  destruct (omap _ logs) as [|x xs] eqn:Hxs; [done|].
  rewrite bool_decide_eq_true_2 by (simpl; lia).
  by rewrite average_numbers.
Qed.

(** C6: daily stats for a date, over logs whose numeric properties hold a
    number or null or are absent, keep the logs whose date property is that
    date: the event count is their number, the total is the number that is
    the sum of their estimated doses with an absent (or null) dose counting
    as 0, and each average is the mean over the logs where that level is
    present, absent (null), not zero, when no such log exists; with no log on
    that date the count and the total are 0 and both averages are absent.
    The sums are exact. *)
Theorem getDailyStats_contract (date : string) (logs : list obj) :
  Forall typed_log logs →
  let day := on_date date logs in
  let stats := getDailyStats date logs in
  stats_logs stats = day ∧
  eventCount stats = length day ∧
  totalMg stats
  = PNumber (Num (sum ((λ log : obj, default (Qc_of_Z 0) (number (log !! "estimatedMg"))) <$> day))) ∧
  stats_avgFocus stats = Num <$> mean (omap (λ log : obj, number (log !! "focusLevel")) day) ∧
  stats_avgAnxiety stats = Num <$> mean (omap (λ log : obj, number (log !! "anxietyLevel")) day) ∧
  (day = [] →
   eventCount stats = 0 ∧ totalMg stats = PNumber (Num (Qc_of_Z 0)) ∧
   stats_avgFocus stats = None ∧ stats_avgAnxiety stats = None).
Proof.
  intros Htyped day stats.
  assert (Forall typed_log day) as Hday.
  { apply Forall_forall. intros log [_ Hin]%list_elem_of_filter.
    by apply (proj1 (Forall_forall _ _) Htyped). }
  assert (stats_logs stats = day) as Hlogs by apply filter_date.
  assert (eventCount stats = length day) as Hcount.
  { unfold stats, getDailyStats. simpl. by rewrite filter_date. }
  assert (totalMg stats
          = PNumber (Num (sum ((λ log : obj, default (Qc_of_Z 0) (number (log !! "estimatedMg")))
                                 <$> day)))) as Htotal.
  { unfold stats, getDailyStats. simpl. rewrite filter_date. fold day.
    rewrite (foldl_total (λ log : obj, default (Qc_of_Z 0) (number (log !! "estimatedMg")))).
    - by rewrite Qc_of_Z_0, Qcplus_0_l.
    - eapply Forall_impl; [exact Hday|]. intros log (Hmg & _ & _) a.
      by apply js_add_or_zero. }
  assert (stats_avgFocus stats = Num <$> mean (omap (λ log : obj, number (log !! "focusLevel")) day))
    as Hfocus.
  { unfold stats, getDailyStats. simpl. rewrite filter_date. fold day.
    apply averageOrNull_mean. eapply Forall_impl; [exact Hday|]. by intros log (_ & ? & _). }
  assert (stats_avgAnxiety stats
          = Num <$> mean (omap (λ log : obj, number (log !! "anxietyLevel")) day)) as Hanxiety.
  { unfold stats, getDailyStats. simpl. rewrite filter_date. fold day.
    apply averageOrNull_mean. eapply Forall_impl; [exact Hday|]. by intros log (_ & _ & ?). }
  split_and!; [exact Hlogs | exact Hcount | exact Htotal | exact Hfocus | exact Hanxiety |].
  intros Hempty. rewrite Hcount, Htotal, Hfocus, Hanxiety, Hempty. done.
Qed.

(** *** Streak *)

Lemma Set_has_dates (logs : list obj) (day : Z) :
  Set_has (new_Set ((λ log : obj, log !! "date") <$> logs)) (Some (VStr (isoDay day))) = true
  ↔ logged_on logs day.
Proof.
  rewrite Set_has_new_Set, existsb_exists. unfold logged_on. split.
  - intros (v & Hin & Heq). apply list_elem_of_In, list_elem_of_fmap in Hin as (log & -> & Hlog).
    exists log. split; [done|]. symmetry. by apply strict_eq_true.
  - intros (log & Hlog & Hdate). exists (log !! "date"). split.
    + apply list_elem_of_In, list_elem_of_fmap. by exists log.
    + rewrite Hdate, strict_eq_string. by apply bool_decide_eq_true_2.
Qed.

(** Days of a range in which different days have different date texts,
    that all have a log and differ from one another, are no more than the
    logs. *)
Lemma logged_days_bound (logs : list obj) (days : list Z) (first last : Z) :
  (∀ d d', (first ≤ d ≤ last)%Z → (first ≤ d' ≤ last)%Z → isoDay d = isoDay d' → d = d') →
  NoDup days → (∀ d, d ∈ days → logged_on logs d ∧ (first ≤ d ≤ last)%Z) →
  length days ≤ length logs.
Proof.
  intros Hinj Hnodup Hall.
  assert (length ((λ d, Some (VStr (isoDay d))) <$> days)
          ≤ length ((λ log : obj, log !! "date") <$> logs)) as Hle.
  { apply submseteq_length, NoDup_submseteq.
    - apply NoDup_fmap_2_strong; [|done]. intros d d' Hd Hd' [=].
      apply Hinj; [by apply Hall | by apply Hall | done].
    - intros v (d & -> & Hd)%list_elem_of_fmap.
      destruct (Hall d Hd) as [(log & Hlog & Hdate) _].
      apply list_elem_of_fmap. by exists log. }
  by rewrite !length_fmap in Hle.
Qed.

(** The loop, entered at a date [currentDate] after it has walked the days
    [walked], from today back to the day after [currentDate]. *)
Lemma streakLoop_run (logs : list obj) (today : Z) :
  (∀ d d', (today - Z.of_nat (length logs) ≤ d ≤ today)%Z →
           (today - Z.of_nat (length logs) ≤ d' ≤ today)%Z →
           isoDay d = isoDay d' → d = d') →
  (∀ t, utcDay (setDate t (getDate t - 1)) = (utcDay t - 1)%Z) →
  ∀ (fuel : nat) (currentDate : Z) (streak : nat) (walked : list Z),
    NoDup walked →
    (∀ d, d ∈ walked → logged_on logs d ∧ (utcDay currentDate < d ≤ today)%Z) →
    Z.of_nat (length walked) = (today - utcDay currentDate)%Z →
    length walked ≤ S (length logs) →
    length logs < length walked + fuel →
    ∃ n : nat,
      streakLoop fuel (new_Set ((λ log : obj, log !! "date") <$> logs)) currentDate streak
        = Some (streak + n) ∧
      (∀ k : nat, k < n → logged_on logs (utcDay currentDate - Z.of_nat k)) ∧
      ¬ logged_on logs (utcDay currentDate - Z.of_nat n).
Proof.
  intros Hinj Hstep fuel.
  induction fuel as [|fuel IH];
    intros currentDate streak walked Hnodup Hwalked Hlength Hroom Hfuel;
    (assert (length walked ≤ length logs) as Hbound;
     [apply (logged_days_bound _ _ _ _ Hinj Hnodup);
      intros d Hd; destruct (Hwalked d Hd); split; [done | lia] |]).
  - lia.
  - simpl. unfold toISODate.
    destruct (Set_has _ _) eqn:Hhas.
    + apply Set_has_dates in Hhas.
      destruct (IH (setDate currentDate (getDate currentDate - 1)) (S streak)
                  (utcDay currentDate :: walked)) as (n & Hrun & Hdays & Hgap).
      * apply NoDup_cons. split; [|done]. intros Hin. apply Hwalked in Hin. lia.
      * rewrite Hstep. intros d [-> | Hin]%elem_of_cons; [split; [done | lia]|].
        apply Hwalked in Hin. split; [apply Hin | lia].
      * rewrite Hstep. simpl length. lia.
      * simpl. lia.
      * simpl. lia.
      * exists (S n). rewrite Hrun. split; [f_equal; lia|]. rewrite Hstep in Hdays, Hgap. split.
        -- intros [|k] Hk; [by rewrite Z.sub_0_r|].
           replace (utcDay currentDate - Z.of_nat (S k))%Z
             with (utcDay currentDate - 1 - Z.of_nat k)%Z by lia.
           apply Hdays. lia.
        -- by replace (utcDay currentDate - Z.of_nat (S n))%Z
             with (utcDay currentDate - 1 - Z.of_nat n)%Z by lia.
    + exists 0. split; [f_equal; lia|]. split; [intros k Hk; lia|].
      rewrite Z.sub_0_r. intros Hlogged%Set_has_dates. congruence.
Qed.

(** The streak on a host without changes of the clock: where the days from
    as many days ago as there are logs up to today have different date
    texts, where parsing today's date text gives an instant of today and
    where setting a date to the day of the month before moves it to the
    previous UTC day (as at a fixed offset from UTC), the streak
    calculation returns (its loop ends within one iteration more than
    there are logs) the length of the maximal run of consecutive days, from
    today backward, that each have a log with that date; so 0 when no log has
    today's date, whatever the history, and 2 with logs today and yesterday
    but not two days ago. *)
Theorem calculateStreak_run (fuel : nat) (now : Z) (st : localStorage) :
  let logs := storedLogs st in
  let today := utcDay now in
  (∀ d d', (today - Z.of_nat (length logs) ≤ d ≤ today)%Z →
           (today - Z.of_nat (length logs) ≤ d' ≤ today)%Z →
           isoDay d = isoDay d' → d = d') →
  utcDay (Date_parse (isoDay today)) = today →
  (∀ t, utcDay (setDate t (getDate t - 1)) = (utcDay t - 1)%Z) →
  length logs < fuel →
  ∃ n : nat,
    calculateStreak fuel now st = (Return (Some n), st) ∧
    (∀ k : nat, k < n → logged_on logs (today - Z.of_nat k)) ∧
    ¬ logged_on logs (today - Z.of_nat n) ∧
    (¬ logged_on logs today → n = 0) ∧
    (logged_on logs today → logged_on logs (today - 1) → ¬ logged_on logs (today - 2) → n = 2).
Proof.
  intros logs today Hinj Hparse Hstep Hfuel.
  assert (∃ n : nat,
            calculateStreak fuel now st = (Return (Some n), st) ∧
            (∀ k : nat, k < n → logged_on logs (today - Z.of_nat k)) ∧
            ¬ logged_on logs (today - Z.of_nat n)) as (n & Hrun & Hdays & Hgap).
  { unfold calculateStreak, mbind, js_bind. rewrite loadLogs_storedLogs. fold logs.
    case_bool_decide as Hempty.
    { exists 0. split; [done|]. split; [intros k Hk; lia|].
      intros (log & Hlog & _). destruct logs; [by apply elem_of_nil in Hlog | done]. }
    case_bool_decide as Hnodates.
    { exists 0. split; [done|]. split; [intros k Hk; lia|].
      intros Hlogged%Set_has_dates. apply length_zero_iff_nil in Hnodates.
      by rewrite Hnodates in Hlogged. }
    unfold toISODate. fold today.
    destruct (streakLoop_run logs today Hinj Hstep fuel (Date_parse (isoDay today)) 0 [])
      as (n & Hrun & Hdays & Hgap).
    - apply NoDup_nil_2.
    - intros d Hd. by apply elem_of_nil in Hd.
    - rewrite Hparse. simpl. lia.
    - simpl. lia.
    - simpl. lia.
    - rewrite Hparse in Hdays, Hgap.
      exists n. unfold mret, js_ret. by rewrite Hrun. }
  exists n. split_and!; [done | done | done | |].
  - intros Hnone. destruct n as [|n]; [done|]. exfalso. apply Hnone.
    specialize (Hdays 0). rewrite Z.sub_0_r in Hdays. apply Hdays. lia.
  - intros H0 H1 H2.
    destruct n as [|[|[|n]]]; [| |done|].
    + exfalso. by rewrite Z.sub_0_r in Hgap.
    + exfalso. by apply Hgap.
    + exfalso. apply H2. apply (Hdays 2). lia.
Qed.

(** *** The date and the time of day of a created log *)

Lemma object_lookup_here (k : string) (v : value) (fields : list (string * option value)) :
  object ((k, Some v) :: fields) !! k = Some v.
Proof. unfold object. simpl. apply lookup_insert_eq. Qed.

Lemma object_lookup_skip (k k' : string) (v : option value)
    (fields : list (string * option value)) :
  k ≠ k' → object ((k, v) :: fields) !! k' = object fields !! k'.
Proof. intros Hne. unfold object. destruct v; simpl; [by apply lookup_insert_ne | done]. Qed.

Lemma bind_return {A B : Type} (m : js A) (f : A → js B) (a : A) (st st' : localStorage) :
  m st = (Return a, st') → (m ≫= f) st = f a st'.
Proof. unfold mbind, js_bind. by intros ->. Qed.






(** *** Sweet-spot matrix *)

Lemma initialMatrix_matrixWith : initialMatrix = matrixWith (λ _ _, MatrixCell [] [] 0).
Proof. reflexivity. Qed.

Lemma matrixWith_ext (c c' : doseBucket → string → matrixCell) :
  (∀ b t, b ∈ doseBuckets → t ∈ timeBuckets → c b t = c' b t) → matrixWith c = matrixWith c'.
Proof.
  intros H. unfold matrixWith. simpl.
  rewrite !H by (unfold doseBuckets, timeBuckets; rewrite ?elem_of_cons; auto 10). done.
Qed.

Lemma matrixWith_lookup (c : doseBucket → string → matrixCell) (b : doseBucket) (t : string) :
  b ∈ doseBuckets → t ∈ timeBuckets →
  matrixWith c !! bucket_label b ≫= (.!! t) = Some (c b t).
Proof.
  intros Hb Ht.
  repeat (apply elem_of_cons in Hb as [-> | Hb]); [..|by apply elem_of_nil in Hb];
    (repeat (apply elem_of_cons in Ht as [-> | Ht]); [..|by apply elem_of_nil in Ht]);
    reflexivity.
Qed.

Lemma matrixWith_lookup_row (c : doseBucket → string → matrixCell) (b : doseBucket) :
  b ∈ doseBuckets →
  matrixWith c !! bucket_label b
  = Some (foldl (λ (row : gmap string matrixCell) time, <[time := c b time]> row) ∅ timeBuckets).
Proof.
  intros Hb.
  repeat (apply elem_of_cons in Hb as [-> | Hb]); [..|by apply elem_of_nil in Hb]; reflexivity.
Qed.

Lemma matrixWith_update (c : doseBucket → string → matrixCell) (b : doseBucket) (t : string)
    (cell : matrixCell) (row : gmap string matrixCell) :
  b ∈ doseBuckets → t ∈ timeBuckets →
  matrixWith c !! bucket_label b = Some row →
  <[bucket_label b := <[t := cell]> row]> (matrixWith c)
  = matrixWith (λ b' t', if String.eqb (bucket_label b') (bucket_label b) && String.eqb t' t
                         then cell else c b' t').
Proof.
  intros Hb Ht Hrow. rewrite matrixWith_lookup_row in Hrow by done. injection Hrow as <-.
  repeat (apply elem_of_cons in Hb as [-> | Hb]); [..|by apply elem_of_nil in Hb];
    (repeat (apply elem_of_cons in Ht as [-> | Ht]); [..|by apply elem_of_nil in Ht]);
    reflexivity.
Qed.

Lemma buckets_apart (b b' : doseBucket) :
  b ∈ doseBuckets → b' ∈ doseBuckets →
  b = b' ∨ (bucket_max b ≤ bucket_min b')%Qc ∨ (bucket_max b' ≤ bucket_min b)%Qc.
Proof.
  intros Hb Hb'.
  repeat (apply elem_of_cons in Hb as [-> | Hb]); [..|by apply elem_of_nil in Hb];
    (repeat (apply elem_of_cons in Hb' as [-> | Hb']); [..|by apply elem_of_nil in Hb']);
    first [by left | by right; left | by right; right].
Qed.

Lemma bucket_unique (x : Qc) (b b' : doseBucket) :
  b ∈ doseBuckets → b' ∈ doseBuckets → inBucket b x = true → inBucket b' x = true → b = b'.
Proof.
  unfold inBucket. intros Hb Hb' [Hlo Hhi]%andb_prop [Hlo' Hhi']%andb_prop.
  apply bool_decide_eq_true in Hlo, Hhi, Hlo', Hhi'.
  destruct (buckets_apart b b' Hb Hb') as [? | [Happart | Happart]]; [done | exfalso..].
  - apply (Qclt_not_le _ _ Hhi). by etrans.
  - apply (Qclt_not_le _ _ Hhi'). by etrans.
Qed.

Lemma labels_apart (b b' : doseBucket) :
  b ∈ doseBuckets → b' ∈ doseBuckets →
  String.eqb (bucket_label b') (bucket_label b) = true ↔ b' = b.
Proof.
  intros Hb Hb'.
  repeat (apply elem_of_cons in Hb as [-> | Hb]); [..|by apply elem_of_nil in Hb];
    (repeat (apply elem_of_cons in Hb' as [-> | Hb']); [..|by apply elem_of_nil in Hb']);
    (split; intros Heq; first [reflexivity | discriminate Heq | by injection Heq]).
Qed.

Lemma time_not_empty (t : string) : t ∈ timeBuckets → t ≠ "".
Proof.
  intros Ht ->. repeat (apply elem_of_cons in Ht as [Ht | Ht]; [discriminate Ht|]).
  by apply elem_of_nil in Ht.
Qed.

Lemma matrixWith_lookup_cell (c : doseBucket → string → matrixCell) (b : doseBucket)
    (t : string) (row : gmap string matrixCell) :
  b ∈ doseBuckets → t ∈ timeBuckets →
  matrixWith c !! bucket_label b = Some row → row !! t = Some (c b t).
Proof.
  intros Hb Ht Hrow. pose proof (matrixWith_lookup c b t Hb Ht) as Hcell.
  by rewrite Hrow in Hcell.
Qed.

Lemma populate_skips (c : doseBucket → string → matrixCell) (log : obj) :
  (∀ b t, b ∈ doseBuckets → t ∈ timeBuckets → contributes b t log = false) →
  (Return (matrixWith c) : outcome matrix)
  = Return (matrixWith (λ b t, if contributes b t log then push (c b t) log else c b t)).
Proof.
  intros Hnone. f_equal. apply matrixWith_ext. intros b t Hb Ht. by rewrite Hnone.
Qed.

Lemma populate_matrixWith (c : doseBucket → string → matrixCell) (log : obj) :
  typed_log log → timed_log log →
  populate (matrixWith c) log
  = Return (matrixWith (λ b t, if contributes b t log then push (c b t) log else c b t)).
Proof.
  intros (Hmg & Hfocus & Hanxiety) Htime. unfold timed_log in Htime. unfold populate.
  destruct (truthy (log !! "estimatedMg")) eqn:Emg; cbn [negb orb]; cycle 1.
  { apply populate_skips. intros b t _ _. unfold contributes, dose_in.
    destruct (log !! "estimatedMg") as [[| |x| |]|]; try done.
    simpl in *. apply negb_false_iff in Emg. by rewrite Emg. }
  destruct (truthy (log !! "timeOfDay")) eqn:Etime; cbn [negb]; cycle 1.
  { apply populate_skips. intros b t _ Ht. unfold contributes.
    rewrite (bool_decide_eq_false_2 (log !! "timeOfDay" = _)); [by rewrite andb_false_r|].
    intros Heq. rewrite Heq in Etime. simpl in Etime.
    apply negb_false_iff, bool_decide_eq_true in Etime. by apply (time_not_empty t). }
  destruct (nullish (log !! "focusLevel")) eqn:Efocus.
  { apply populate_skips. intros b t _ _. unfold contributes.
    destruct (log !! "focusLevel") as [[]|]; try done; simpl; by rewrite andb_false_r. }
  destruct (nullish (log !! "anxietyLevel")) eqn:Eanxiety.
  { apply populate_skips. intros b t _ _. unfold contributes.
    destruct (log !! "anxietyLevel") as [[]|]; try done; simpl; by rewrite andb_false_r. }
  destruct (log !! "estimatedMg") as [[| |x| |]|] eqn:Hx; try done.
  destruct (log !! "timeOfDay") as [[| | |s|]|] eqn:Hs; try done.
  destruct (log !! "focusLevel") as [[| |f| |]|] eqn:Hf; try done.
  destruct (log !! "anxietyLevel") as [[| |a| |]|] eqn:Ha; try done.
  assert (s ∈ timeBuckets) as Hin.
  { destruct Htime as [-> | ?]; [done | done]. }
  assert (∀ b t, contributes b t log = inBucket b x && bool_decide (s = t)) as Hcontributes.
  { intros b t. unfold contributes, dose_in. rewrite Hx, Hs, Hf, Ha. simpl in Emg |- *. rewrite Emg.
    rewrite ?andb_true_r. simpl.
    f_equal. apply bool_decide_ext. split; [by intros [=] | by intros ->]. }
  assert (find (λ bucket, js_ge (log !! "estimatedMg") (bucket_min bucket)
                          && js_lt (log !! "estimatedMg") (bucket_max bucket)) doseBuckets
          = find (λ bucket, inBucket bucket x) doseBuckets) as Hfind by (by rewrite Hx).
  rewrite Hx in Hfind. rewrite Hfind. clear Hfind.
  destruct (find _ doseBuckets) as [b|] eqn:Hfound.
  - apply find_some in Hfound as [Hb%list_elem_of_In Hx'].
    destruct (matrixWith c !! bucket_label b) as [row|] eqn:Hrow;
      [|by rewrite matrixWith_lookup_row in Hrow].
    cbn [mbind option_bind ToPropertyKey].
    rewrite (matrixWith_lookup_cell c b s row Hb Hin Hrow).
    cbn [mbind option_bind].
    rewrite (matrixWith_update c b s) by done.
    f_equal. apply matrixWith_ext. intros b' t Hb' Ht. rewrite Hcontributes.
    destruct (String.eqb (bucket_label b') (bucket_label b)) eqn:Hlabel.
    + apply (labels_apart b b' Hb Hb') in Hlabel as ->. rewrite Hx'. simpl.
      destruct (String.eqb t s) eqn:Hts.
      * apply String.eqb_eq in Hts as ->. rewrite bool_decide_eq_true_2 by done.
        unfold push. by rewrite Hf, Ha.
      * apply String.eqb_neq in Hts. rewrite bool_decide_eq_false_2 by done. done.
    + simpl. destruct (inBucket b' x) eqn:Hx''; [|done]. exfalso.
      assert (b' = b) as Heq by (by apply (bucket_unique x)).
      apply (labels_apart b b' Hb Hb') in Heq. congruence.
  - apply populate_skips. intros b t Hb _. rewrite Hcontributes.
    rewrite (find_none _ _ Hfound b) by (by apply list_elem_of_In). done.
Qed.

Lemma forEach_snoc {A S : Type} (f : S → A → outcome S) (s : S) (xs : list A) (x : A) :
  forEach f s (xs ++ [x]) = forEach f s xs ≫= λ s', f s' x.
Proof. unfold forEach. by rewrite foldl_app. Qed.

Lemma populate_all (logs : list obj) :
  Forall typed_log logs → Forall timed_log logs →
  forEach populate initialMatrix logs = Return (matrixWith (cellOf logs)).
Proof.
  induction logs as [|log logs IH] using rev_ind; intros Htyped Htimed; [done|].
  apply Forall_app in Htyped as [Htyped [Hlog _]%Forall_cons].
  apply Forall_app in Htimed as [Htimed [Hlog' _]%Forall_cons].
  rewrite forEach_snoc, IH by done. cbn [mbind outcome_bind].
  rewrite populate_matrixWith by done. f_equal. apply matrixWith_ext. intros b t _ _.
  unfold cellOf, contributing, push. rewrite filter_app, filter_cons, filter_nil.
  destruct (contributes b t log); simpl.
  - by rewrite !fmap_app, length_app, Nat.add_1_r.
  - by rewrite app_nil_r.
Qed.

Lemma resultCellOf_matrixWith (c : doseBucket → string → matrixCell) (i j : nat)
    (b : doseBucket) (t : string) :
  b ∈ doseBuckets → t ∈ timeBuckets →
  resultCellOf (matrixWith c) i b j t = Return (summary i b j (c b t)).
Proof.
  intros Hb Ht. unfold resultCellOf. rewrite matrixWith_lookup by done.
  unfold summary. by destruct (cellMetrics (c b t)) as [[??]?].
Qed.

Lemma computeSweetSpotMatrix_summaries (logs : list obj) :
  Forall typed_log logs → Forall timed_log logs →
  computeSweetSpotMatrix logs
  = Return (SweetSpotMatrix (bucket_label <$> doseBuckets) timeLabels (summaries logs)).
Proof.
  intros Htyped Htimed. unfold computeSweetSpotMatrix. rewrite populate_all by done.
  cbn [mbind outcome_bind]. unfold forEach. cbn -[resultCellOf matrixWith cellOf].
  rewrite !resultCellOf_matrixWith
    by (unfold doseBuckets, timeBuckets; rewrite ?elem_of_cons; auto 10).
  reflexivity.
Qed.

Lemma clamp_Math (v : Qc) :
  Math_max (Qc_of_Z 0) (Math_min (Qc_of_Z 100) v) = clamp (Qc_of_Z 0) (Qc_of_Z 100) v.
Proof.
  assert (Qc_of_Z 0 ≤ Qc_of_Z 100)%Qc as H100 by done.
  unfold Math_max, Math_min, clamp.
  destruct (bool_decide (Qc_of_Z 100 ≤ v)%Qc) eqn:Hhi.
  - apply bool_decide_eq_true in Hhi. rewrite (bool_decide_eq_true_2 _ H100).
    rewrite (bool_decide_eq_false_2 (v < _)%Qc)
      by (apply Qcle_not_lt; by etrans).
    case_bool_decide as Hlt; [done|]. apply Qcnot_lt_le in Hlt. by apply Qcle_antisym.
  - apply bool_decide_eq_false in Hhi. apply Qcnot_le_lt in Hhi.
    rewrite (bool_decide_eq_false_2 (_ < v)%Qc) by (by apply Qcle_not_lt, Qclt_le_weak).
    destruct (bool_decide (Qc_of_Z 0 ≤ v)%Qc) eqn:Hlo.
    + apply bool_decide_eq_true in Hlo.
      by rewrite (bool_decide_eq_false_2 (v < _)%Qc) by (by apply Qcle_not_lt).
    + apply bool_decide_eq_false in Hlo. apply Qcnot_le_lt in Hlo.
      by rewrite (bool_decide_eq_true_2 (v < _)%Qc).
Qed.

Lemma levels_numbers (property : string) (logs : list obj) :
  Forall (λ log : obj, is_Some (number (log !! property))) logs →
  (λ log : obj, log !! property) <$> logs
  = (λ x, Some (VNum x)) <$> omap (λ log : obj, number (log !! property)) logs.
Proof.
  induction 1 as [|log logs [x Hx] _ IH]; [done|].
  rewrite fmap_cons, IH. simpl. rewrite Hx. simpl.
  by destruct (log !! property) as [[| |y| |]|]; try done; injection Hx as ->.
Qed.

Lemma average_mean (property : string) (logs : list obj) :
  Forall (λ log : obj, is_Some (number (log !! property))) logs →
  logs ≠ [] →
  Num <$> mean (omap (λ log : obj, number (log !! property)) logs)
  = Some (average ((λ log : obj, log !! property) <$> logs)).
Proof.
  intros Hall Hne. rewrite levels_numbers by done.
  destruct (omap _ logs) as [|x xs] eqn:Hxs.
  - destruct Hall as [|log logs [y Hy] _]; [done|]. simpl in Hxs. by rewrite Hy in Hxs.
  - by rewrite average_numbers.
Qed.

Lemma contributing_levels (bucket : doseBucket) (time : string) (logs : list obj) :
  Forall (λ log : obj, is_Some (number (log !! "focusLevel"))) (contributing bucket time logs) ∧
  Forall (λ log : obj, is_Some (number (log !! "anxietyLevel"))) (contributing bucket time logs).
Proof.
  split; apply Forall_forall; intros log [Hc _]%list_elem_of_filter;
    unfold contributes in Hc; apply Is_true_true in Hc;
    repeat (apply andb_prop in Hc as [Hc ?]); by eapply bool_decide_eq_true_1.
Qed.

Lemma summary_cellOf (logs : list obj) (i j : nat) (bucket : doseBucket) (time : string) :
  reports (summary i bucket j (cellOf logs bucket time)) i j bucket time logs.
Proof.
  unfold reports. set (cell := summary _ _ _ _). repeat (split; [reflexivity|]).
  destruct (contributing_levels bucket time logs) as [Hfocus Hanxiety].
  subst cell. unfold summary, cellMetrics, cellOf. simpl.
  destruct (contributing bucket time logs) as [|log cs] eqn:Hcs.
  - simpl. done.
  - rewrite <-Hcs in *.
    assert (contributing bucket time logs ≠ []) as Hne by (by rewrite Hcs).
    pose proof (average_mean "focusLevel" _ Hfocus Hne) as Hf.
    pose proof (average_mean "anxietyLevel" _ Hanxiety Hne) as Ha.
    assert (0 < length (contributing bucket time logs)) as Hpos by (rewrite Hcs; simpl; lia).
    rewrite bool_decide_eq_true_2 by done. cbn [fst snd].
    destruct (mean (omap (λ log : obj, number (log !! "focusLevel")) _)) as [f|];
      [|discriminate Hf].
    destruct (mean (omap (λ log : obj, number (log !! "anxietyLevel")) _)) as [a|];
      [|discriminate Ha].
    injection Hf as <-. injection Ha as <-.
    split; [done|]. split; [done|]. split; [done|]. by rewrite clamp_Math.
Qed.

(** What the sweet-spot matrix computes, for typed logs whose time of day is
    a time bucket or is missing: twenty cells, dose bucket by dose bucket and
    within a dose bucket time bucket by time bucket, each reporting the logs
    that contribute to it. *)
Theorem computeSweetSpotMatrix_cells (logs : list obj) :
  Forall typed_log logs → Forall timed_log logs →
  ∃ m : sweetSpotMatrix,
    computeSweetSpotMatrix logs = Return m ∧
    result_doseBuckets m = ["0-5 mg"; "5-10 mg"; "10-15 mg"; "15-20 mg"; "20+ mg"] ∧
    result_timeBuckets m = ["6AM"; "12PM"; "6PM"; "9PM"] ∧
    length (cells m) = 20 ∧
    ∀ (i j : nat) (bucket : doseBucket) (time : string),
      doseBuckets !! i = Some bucket → timeBuckets !! j = Some time →
      ∃ cell : resultCell,
        cells m !! (4 * i + j) = Some cell ∧ reports cell i j bucket time logs.
Proof.
  intros Htyped Htimed. eexists.
  split; [by apply computeSweetSpotMatrix_summaries|].
  split; [done|]. split; [done|]. split; [done|].
  intros i j bucket time Hi Hj.
  exists (summary i bucket j (cellOf logs bucket time)). split; [|apply summary_cellOf].
  do 5 (destruct i as [|i]; [injection Hi as <-;
          do 4 (destruct j as [|j]; [injection Hj as <-; reflexivity|]); done|]).
  done.
Qed.

(** *** Appending, saving and loading *)

(** [addLog] builds one log: the properties of the data it is given, except
    that the id is the generated one and the timestamp the ISO rendering of
    the clock, whatever the data say under these two names.  On a medium that
    accepts the write the log is appended after the stored ones and returned;
    on a medium that refuses it, the call throws 'Failed to save logs' and the
    storage is as it was. *)
Theorem addLog_contract (logData : obj) (idClock : Z) (random : string) (stampClock : Z)
    (st : localStorage) :
  ∃ newLog : obj,
    newLog !! "id" = Some (VStr (generateId idClock random)) ∧
    newLog !! "timestamp" = Some (VStr (toISOString stampClock)) ∧
    (∀ k, k ≠ "id" → k ≠ "timestamp" → newLog !! k = logData !! k) ∧
    (fits (with_logs (storedLogs st ++ [newLog]) st) = true →
       addLog logData idClock random stampClock st
         = (Return newLog, with_logs (storedLogs st ++ [newLog]) st)) ∧
    (fits (with_logs (storedLogs st ++ [newLog]) st) = false →
       addLog logData idClock random stampClock st = (Throw "Failed to save logs", st)).
Proof.
  exists (<["timestamp" := VStr (toISOString stampClock)]>
            (<["id" := VStr (generateId idClock random)]> logData)).
  split; [by rewrite lookup_insert_ne, lookup_insert_eq|].
  split; [by rewrite lookup_insert_eq|].
  split; [intros k Hid Hstamp; by rewrite !lookup_insert_ne|].
  destruct (addLog_storedLogs logData idClock random stampClock st) as [[Hrun Hfits] | [Hrun Hfits]];
    split; intros Hfits'; first [exact Hrun | congruence].
Qed.

(** What [saveLogs] has saved is what [loadLogs] loads; a write the medium
    refuses throws 'Failed to save logs' and leaves the storage as it was; and
    with nothing stored under the key, or a text that does not parse,
    [loadLogs] returns the empty array. *)
Theorem saveLogs_loadLogs (logs : list obj) (st : localStorage) :
  (fits (with_logs logs st) = true →
     (saveLogs logs ≫= λ _, loadLogs) st = (Return logs, with_logs logs st)) ∧
  (fits (with_logs logs st) = false →
     saveLogs logs st = (Throw "Failed to save logs", st)) ∧
  (nicotracker_logs st = Absent ∨ nicotracker_logs st = Corrupt →
     loadLogs st = (Return [], st)).
Proof.
  split_and!.
  - intros Hfits. by rewrite (bind_return _ _ () st (with_logs logs st)) by by apply saveLogs_fits.
  - unfold saveLogs, with_logs. by intros ->.
  - unfold loadLogs. by intros [-> | ->].
Qed.

(** [loadSettings] never fails and never writes: each property reads as
    stored when the stored settings have it, and as the default otherwise, so
    the four default properties are always there; with nothing stored, or a
    text that does not parse, the settings are the defaults.  After
    [saveSettings] has saved settings, [loadSettings] reads every property
    they have as saved. *)
Theorem loadSettings_contract (st : localStorage) :
  ∃ settings : obj,
    loadSettings st = (Return settings, st) ∧
    (∀ k, settings !! k
          = match storedSettings st !! k with Some v => Some v | None => DEFAULT_SETTINGS !! k end) ∧
    (∀ k, k ∈ ["dailyMgLimit"; "dailyEventLimit"; "morningLimitEnabled"; "timezoneOffsetMinutes"] →
          is_Some (settings !! k)) ∧
    (nicotracker_settings st = Absent ∨ nicotracker_settings st = Corrupt →
       settings = DEFAULT_SETTINGS) ∧
    (∀ saved : obj,
       fits (LocalStorage (nicotracker_logs st) (Stored saved)) = true →
       ∃ reloaded : obj,
         (saveSettings saved ≫= λ _, loadSettings) st
           = (Return reloaded, LocalStorage (nicotracker_logs st) (Stored saved)) ∧
         ∀ k v, saved !! k = Some v → reloaded !! k = Some v).
Proof.
  exists (spread DEFAULT_SETTINGS (storedSettings st)).
  split; [apply loadSettings_storedSettings|].
  split; [intros k; apply spread_lookup|].
  split_and!.
  - intros k Hk. rewrite spread_lookup.
    destruct (storedSettings st !! k); [by eexists|].
    repeat (apply elem_of_cons in Hk as [-> | Hk]; [by eexists|]).
    by apply elem_of_nil in Hk.
  - unfold storedSettings. intros [-> | ->]; unfold spread; by rewrite (left_id_L ∅ (∪)).
  - intros saved Hfits. exists (spread DEFAULT_SETTINGS saved). split.
    + rewrite (bind_return _ _ () st (LocalStorage (nicotracker_logs st) (Stored saved))).
      * apply loadSettings_storedSettings.
      * unfold saveSettings. by rewrite Hfits.
    + intros k v Hk. by rewrite spread_lookup, Hk.
Qed.

(** *** Queries on the store *)

Lemma on_date_elem (date : string) (logs : list obj) (log : obj) :
  log ∈ on_date date logs ↔ log ∈ logs ∧ log !! "date" = Some (VStr date).
Proof. unfold on_date. by rewrite list_elem_of_filter, (comm (∧)). Qed.

Lemma getMostRecentLogToday_run (now : Z) (st : localStorage) :
  (∀ logs, sortNewestFirst logs ≡ₚ logs) →
  ∃ recent : option obj,
    getMostRecentLogToday now st = (Return recent, st) ∧
    (recent = None ↔ on_date (isoDay (utcDay now)) (storedLogs st) = []) ∧
    (∀ log : obj, recent = Some log → log ∈ on_date (isoDay (utcDay now)) (storedLogs st)).
Proof.
  intros Hsort. unfold getMostRecentLogToday, mbind, js_bind. rewrite loadLogs_storedLogs.
  rewrite filter_date. fold (toISODate now).
  set (todayLogs := on_date (toISODate now) (storedLogs st)).
  case_bool_decide as Hempty.
  - apply length_zero_iff_nil in Hempty. exists None. by rewrite Hempty.
  - assert (todayLogs ≠ []) as Hne by (by intros Hnil; rewrite Hnil in Hempty).
    destruct (sortNewestFirst todayLogs) as [|first rest] eqn:Hsorted.
    { destruct Hne. apply Permutation_nil_r. by rewrite <-Hsorted, Hsort. }
    exists (Some first). split; [done|]. split; [done|].
    intros log [= <-]. rewrite <-(Hsort todayLogs), Hsorted. apply list_elem_of_here.
Qed.

(** With a sort that permutes the array it is given, [getMostRecentLogToday]
    returns null exactly when no stored log has, as its date, the calendar
    date in UTC of the clock, and otherwise one of the stored logs that have
    it; the storage is not written. *)
Theorem getMostRecentLogToday_contract (now : Z) (st : localStorage) :
  (∀ logs, sortNewestFirst logs ≡ₚ logs) →
  ∃ recent : option obj,
    getMostRecentLogToday now st = (Return recent, st) ∧
    (recent = None ↔ on_date (isoDay (utcDay now)) (storedLogs st) = []) ∧
    (∀ log : obj, recent = Some log →
       log ∈ storedLogs st ∧ log !! "date" = Some (VStr (isoDay (utcDay now)))).
Proof.
  intros Hsort. destruct (getMostRecentLogToday_run now st Hsort) as (recent & Hrun & Hnone & Hsome).
  exists recent. split; [done|]. split; [done|].
  intros log Hlog. by apply on_date_elem, Hsome.
Qed.

Lemma filter_Forall_ext {A : Type} (P Q : A → Prop) `{!∀ x, Decision (P x)}
    `{!∀ x, Decision (Q x)} (l : list A) :
  Forall (λ x, P x ↔ Q x) l → filter P l = filter Q l.
Proof.
  induction 1 as [|x l Hx _ IH]; [done|]. rewrite !filter_cons, IH.
  destruct (decide (P x)) as [HP|HP], (decide (Q x)) as [HQ|HQ]; try done.
  - by destruct HQ; apply Hx.
  - by destruct HP; apply Hx.
Qed.

Lemma leb_refl (s : string) : String.leb s s = true.
Proof. by destruct (String.leb_total s s). Qed.

Lemma leb_trans (s1 s2 s3 : string) :
  String.leb s1 s2 = true → String.leb s2 s3 = true → String.leb s1 s3 = true.
Proof.
  unfold String.leb. revert s2 s3.
  induction s1 as [|c1 s1 IH]; intros [|c2 s2] [|c3 s3]; simpl; try done.
  unfold Ascii.compare.
  destruct (N.compare_spec (N_of_ascii c1) (N_of_ascii c2)) as [H12|H12|H12]; [| |done];
    (destruct (N.compare_spec (N_of_ascii c2) (N_of_ascii c3)) as [H23|H23|H23]; [| |done]);
    destruct (N.compare_spec (N_of_ascii c1) (N_of_ascii c3)) as [H13|H13|H13];
    intros Ha Hb; first [done | lia | by apply (IH s2 s3)].
Qed.

(** [getLogsByDate] returns, without writing, the stored logs whose date is
    the given text, in their stored order: the logs that [getDailyStats]
    counts for that date.  [getLogsByDateRange] returns some of the stored
    logs, in their stored order; over logs whose date is a string or is
    missing, a range from a date to the same date selects the logs of that
    date, and a range whose end is before its start, in the order of
    strings, selects nothing. *)
Theorem getLogsByDate_and_range (st : localStorage) :
  (∀ date : string,
     getLogsByDate date st = (Return (on_date date (storedLogs st)), st) ∧
     on_date date (storedLogs st) = stats_logs (getDailyStats date (storedLogs st))) ∧
  (∀ startDate endDate : string,
     ∃ found : list obj,
       getLogsByDateRange startDate endDate st = (Return found, st) ∧
       found `sublist_of` storedLogs st) ∧
  (Forall dated_log (storedLogs st) →
     (∀ date : string, getLogsByDateRange date date st = getLogsByDate date st) ∧
     (∀ startDate endDate : string,
        String.leb startDate endDate = false →
        getLogsByDateRange startDate endDate st = (Return [], st))).
Proof.
  split_and!.
  - intros date. unfold getLogsByDate, mbind, js_bind. rewrite loadLogs_storedLogs.
    unfold mret, js_ret. rewrite filter_date. split; [done|]. symmetry. apply filter_date.
  - intros startDate endDate. eexists. unfold getLogsByDateRange, mbind, js_bind.
    rewrite loadLogs_storedLogs. split; [reflexivity|]. apply sublist_filter.
  - intros Hdated. split.
    + intros date. unfold getLogsByDateRange, getLogsByDate, mbind, js_bind.
      rewrite loadLogs_storedLogs. unfold mret, js_ret. f_equal. f_equal.
      apply filter_Forall_ext. apply (Forall_impl _ _ _ Hdated).
      intros log Hlog. unfold dated_log in Hlog. rewrite strict_eq_string.
      destruct (log !! "date") as [[| | |d|]|] eqn:Hdate; try done; simpl.
      rewrite andb_True, !Is_true_true, bool_decide_eq_true. split.
      * intros [H1 H2]. f_equal. f_equal. by apply String.leb_antisym.
      * intros [= ->]. by rewrite leb_refl.
    + intros startDate endDate Hrange. unfold getLogsByDateRange, mbind, js_bind.
      rewrite loadLogs_storedLogs. unfold mret, js_ret. f_equal. f_equal.
      induction (storedLogs st) as [|log logs IH]; [done|].
      apply Forall_cons in Hdated as [Hlog Hdated].
      rewrite filter_cons, IH by done. unfold dated_log in Hlog.
      destruct (log !! "date") as [[| | |d|]|] eqn:Hdate; try done; simpl.
      destruct (String.leb startDate d) eqn:H1, (String.leb d endDate) eqn:H2; simpl; try done.
      by rewrite (leb_trans startDate d endDate) in Hrange.
Qed.

(** *** Export and import *)

Lemma new_records_nil (imported : list obj) : new_records [] imported = imported.
Proof.
  unfold new_records. induction imported as [|log imported IH]; [done|].
  by rewrite filter_cons, IH.
Qed.

Lemma id_taken_elem (logs : list obj) (log : obj) :
  log ∈ logs → plain_id log → id_taken logs log = true.
Proof.
  intros Hin Hplain. unfold id_taken. apply existsb_exists. exists log.
  split; [by apply list_elem_of_In|done].
Qed.

Lemma id_taken_app (logs logs' : list obj) (log : obj) :
  id_taken (logs ++ logs') log = id_taken logs log || id_taken logs' log.
Proof. unfold id_taken. apply existsb_app. Qed.

Lemma new_records_taken (stored imported : list obj) :
  Forall (λ log, id_taken stored log = true) imported → new_records stored imported = [].
Proof.
  unfold new_records. induction 1 as [|log imported Hlog _ IH]; [done|].
  by rewrite filter_cons, IH, Hlog.
Qed.

Lemma settings_merged_twice (defaults stored provided : obj) :
  spread (spread defaults (spread (spread defaults stored) provided)) provided
  = spread (spread defaults stored) provided.
Proof.
  apply map_eq. intros k. rewrite !spread_lookup.
  by destruct (provided !! k), (stored !! k), (defaults !! k).
Qed.

(** [exportData] writes the stored logs and the settings as [loadSettings]
    reads them, and leaves the storage alone.  Read back by [importData] on a
    device with nothing stored, the file restores the logs as they were, one
    by one, and the settings it carries; read back on the store it was
    written from, whose ids are primitive values, it adds no log. *)
Theorem export_import_round_trip (now : Z) (st : localStorage) :
  ∃ file : exportFile,
    exportData now st = (Return file, st) ∧
    export_logs file = storedLogs st ∧
    loadSettings st = (Return (export_settings file), st) ∧
    (fits (LocalStorage (Stored (storedLogs st)) Absent) = true →
     fits (LocalStorage (Stored (storedLogs st)) (Stored (export_settings file))) = true →
     importData (readBack file) (LocalStorage Absent Absent)
     = (Return ("Imported " +:+ pretty (length (storedLogs st)) +:+ " new log entries"),
        LocalStorage (Stored (storedLogs st)) (Stored (export_settings file)))) ∧
    (Forall plain_id (storedLogs st) →
     fits (with_logs (storedLogs st) st) = true →
     fits (LocalStorage (Stored (storedLogs st)) (Stored (export_settings file))) = true →
     importData (readBack file) st
     = (Return "Imported 0 new log entries",
        LocalStorage (Stored (storedLogs st)) (Stored (export_settings file)))).
Proof.
  set (settings := spread DEFAULT_SETTINGS (storedSettings st)).
  exists (ExportFile "1.0" (toISOString now) (storedLogs st) settings).
  split.
  { unfold exportData, mbind, js_bind. by rewrite loadLogs_storedLogs, loadSettings_storedSettings. }
  split; [done|]. split; [apply loadSettings_storedSettings|].
  assert (∀ stored : obj, spread (spread DEFAULT_SETTINGS stored) settings = settings
                          ∨ stored ≠ ∅ ∧ stored ≠ storedSettings st) as Hmerge.
  { intros stored. destruct (decide (stored = ∅)) as [->|Hne];
      [|destruct (decide (stored = storedSettings st)) as [->|Hne']; [|by right]].
    - left. apply map_eq. intros k. unfold settings. rewrite !spread_lookup, lookup_empty.
      by destruct (storedSettings st !! k), (DEFAULT_SETTINGS !! k).
    - left. apply map_eq. intros k. unfold settings. rewrite !spread_lookup.
      by destruct (storedSettings st !! k), (DEFAULT_SETTINGS !! k). }
  split.
  - intros Hlogs Hsettings. unfold readBack. cbn [export_settings export_logs] in *.
    rewrite (importData_array _ (storedLogs st)) by done. simpl.
    rewrite new_records_nil. unfold with_logs. simpl. rewrite Hlogs.
    change (storedSettings (LocalStorage Absent Absent)) with (∅ : obj).
    destruct (Hmerge ∅) as [-> | [? _]]; [|done]. by rewrite Hsettings.
  - intros Hplain Hlogs Hsettings. unfold readBack. cbn [export_settings export_logs] in *.
    rewrite (importData_array _ (storedLogs st)) by done. simpl.
    rewrite new_records_taken.
    2:{ apply Forall_forall. intros log Hin. apply id_taken_elem; [done|].
        by apply (proj1 (Forall_forall _ _) Hplain). }
    rewrite app_nil_r, Hlogs.
    destruct (Hmerge (storedSettings st)) as [-> | [_ ?]]; [|done]. by rewrite Hsettings.
Qed.

(** Importing a file a second time changes nothing: on a medium that accepts
    every write, after the import of an array of logs whose ids are primitive
    values, the import of the same file reports 0 new log entries and leaves
    the storage, logs and settings, exactly as the first import left it. *)
Theorem importData_twice (data : importedData) (importedLogs : list obj) (st : localStorage) :
  imported_logs data = LogsArray importedLogs →
  Forall plain_id importedLogs →
  (∀ st', fits st' = true) →
  ∃ (message : string) (st1 : localStorage),
    importData (Parsed data) st = (Return message, st1) ∧
    importData (Parsed data) st1 = (Return "Imported 0 new log entries", st1).
Proof.
  intros Hlogs Hplain Hfits.
  set (merged := storedLogs st ++ new_records (storedLogs st) importedLogs).
  assert (new_records merged importedLogs = []) as Hnone.
  { apply new_records_taken, Forall_forall. intros log Hin. unfold merged.
    rewrite id_taken_app. destruct (id_taken (storedLogs st) log) eqn:Htaken; [done|].
    apply id_taken_elem; [|by apply (proj1 (Forall_forall _ _) Hplain)].
    unfold new_records. apply list_elem_of_filter. by rewrite Htaken. }
  rewrite (importData_array _ importedLogs) by done. cbv zeta. fold merged. rewrite Hfits.
  destruct (imported_settings data) as [provided|] eqn:Hsettings.
  - rewrite Hfits.
    set (st1 := LocalStorage (Stored merged)
                  (Stored (spread (spread DEFAULT_SETTINGS (storedSettings st)) provided))).
    exists ("Imported " +:+ pretty (length (new_records (storedLogs st) importedLogs))
            +:+ " new log entries"), st1.
    split; [reflexivity|].
    rewrite (importData_array _ importedLogs) by done. cbv zeta.
    change (storedLogs st1) with merged.
    change (storedSettings st1)
      with (spread (spread DEFAULT_SETTINGS (storedSettings st)) provided).
    rewrite Hsettings, Hnone, app_nil_r, !Hfits.
    by rewrite settings_merged_twice.
  - set (st1 := with_logs merged st).
    exists ("Imported " +:+ pretty (length (new_records (storedLogs st) importedLogs))
            +:+ " new log entries"), st1.
    split; [reflexivity|].
    rewrite (importData_array _ importedLogs) by done. cbv zeta.
    change (storedLogs st1) with merged.
    by rewrite Hsettings, Hnone, app_nil_r, !Hfits.
Qed.

(** How [importData] fails.  A file that cannot be read is rejected with
    'Failed to read file', one that is not JSON with the parser's message, or
    with 'Failed to import data' when that message is empty; the storage is
    as it was.  With an array of logs and settings in the file, a medium that
    refuses the logs makes the import fail with 'Failed to save logs' and
    nothing written; a medium that accepts the logs and then refuses the
    merged settings (the provided ones over the stored ones over the
    defaults) makes it fail with 'Failed to save settings' after the new logs
    have been stored. *)
Theorem importData_failures (st : localStorage) :
  importData Unreadable st = (Throw "Failed to read file", st) ∧
  importData (NotJSON "") st = (Throw "Failed to import data", st) ∧
  (∀ message : string, message ≠ "" → importData (NotJSON message) st = (Throw message, st)) ∧
  (∀ (data : importedData) (importedLogs : list obj) (provided : obj),
     imported_logs data = LogsArray importedLogs →
     imported_settings data = Some provided →
     let merged := storedLogs st ++ new_records (storedLogs st) importedLogs in
     (fits (with_logs merged st) = false →
        importData (Parsed data) st = (Throw "Failed to save logs", st)) ∧
     (fits (with_logs merged st) = true →
      fits (LocalStorage (Stored merged)
              (Stored (spread (spread DEFAULT_SETTINGS (storedSettings st)) provided))) = false →
        importData (Parsed data) st = (Throw "Failed to save settings", with_logs merged st))).
Proof.
  split; [done|]. split; [done|]. split.
  - intros message Hmessage. unfold importData, rejection. by rewrite bool_decide_eq_false_2.
  - intros data importedLogs provided Hlogs Hsettings merged.
    rewrite (importData_array _ importedLogs) by done. simpl. fold merged. rewrite Hsettings.
    split; [by intros ->|]. by intros -> ->.
Qed.

(** *** The check-in and the streak *)








(** *** The range of the sweet-spot metric *)

Lemma sum_bounds (xs : list Qc) (lo hi : Qc) :
  Forall (λ x, (lo ≤ x)%Qc ∧ (x ≤ hi)%Qc) xs →
  (lo * Qc_of_Z (Z.of_nat (length xs)) ≤ sum xs)%Qc ∧
  (sum xs ≤ hi * Qc_of_Z (Z.of_nat (length xs)))%Qc.
Proof.
  induction 1 as [|x xs [Hlo Hhi] _ [IHlo IHhi]].
  - change (Z.of_nat (length (@nil Qc))) with 0%Z. change (sum []) with (Qc_of_Z 0).
    rewrite Z2Qc_inj_0, !Qcmult_0_r. split; apply Qcle_refl.
  - change (length (x :: xs)) with (S (length xs)). rewrite Nat2Z.inj_succ, <-Z.add_1_l.
    rewrite Z2Qc_inj_add, Z2Qc_inj_1, !Qcmult_plus_distr_r, !Qcmult_1_r.
    change (sum (x :: xs)) with (x + sum xs)%Qc.
    split; by apply Qcplus_le_compat.
Qed.

Lemma mean_bounds (xs : list Qc) (lo hi m : Qc) :
  Forall (λ x, (lo ≤ x)%Qc ∧ (x ≤ hi)%Qc) xs →
  mean xs = Some m → (lo ≤ m)%Qc ∧ (m ≤ hi)%Qc.
Proof.
  intros Hxs Hm. destruct (sum_bounds xs lo hi Hxs) as [Hlo Hhi].
  destruct xs as [|x xs]; [done|]. injection Hm as <-.
  set (n := Qc_of_Z (Z.of_nat (length (x :: xs)))) in *.
  assert (Qc_of_Z 0 < n)%Qc as Hn by (apply (proj1 (Z2Qc_inj_lt 0 _)); rewrite length_cons; lia).
  rewrite Z2Qc_inj_0 in Hn.
  assert (n ≠ Q2Qc 0) as Hn' by (intros Heq; rewrite Heq in Hn; by apply Qclt_not_eq in Hn).
  split; apply (Qcmult_le_mono_pos_r _ _ n Hn); by rewrite test_field.
Qed.

Lemma clamp_range (lo hi v : Qc) : (lo ≤ hi)%Qc → (lo ≤ clamp lo hi v)%Qc ∧ (clamp lo hi v ≤ hi)%Qc.
Proof.
  intros Hle. unfold clamp. repeat case_bool_decide.
  - split; [apply Qcle_refl | done].
  - split; [done | apply Qcle_refl].
  - split; by apply Qcnot_lt_le.
Qed.

Lemma clamp_within (lo hi v : Qc) : (lo ≤ v)%Qc → (v ≤ hi)%Qc → clamp lo hi v = v.
Proof.
  intros Hlo Hhi. unfold clamp.
  rewrite !bool_decide_eq_false_2; [done | by apply Qcle_not_lt | by apply Qcle_not_lt].
Qed.

Lemma metric_within (f a : Qc) :
  (Qc_of_Z 1 ≤ f)%Qc → (f ≤ Qc_of_Z 10)%Qc → (Qc_of_Z 1 ≤ a)%Qc → (a ≤ Qc_of_Z 10)%Qc →
  (Qc_of_Z 0 ≤ (f - a + Qc_of_Z 9) / Qc_of_Z 18 * Qc_of_Z 100)%Qc ∧
  ((f - a + Qc_of_Z 9) / Qc_of_Z 18 * Qc_of_Z 100 ≤ Qc_of_Z 100)%Qc.
Proof.
  intros Hf1 Hf10 Ha1 Ha10.
  assert (Qc_of_Z 0 ≤ f - a + Qc_of_Z 9)%Qc as Hlo.
  { replace (Qc_of_Z 0) with (Qc_of_Z 1 - Qc_of_Z 10 + Qc_of_Z 9)%Qc
      by (apply (bool_decide_unpack _); by vm_compute).
    apply Qcplus_le_compat; [|apply Qcle_refl].
    apply Qcplus_le_compat; [done|]. by apply Qcopp_le_compat. }
  assert (f - a + Qc_of_Z 9 ≤ Qc_of_Z 18)%Qc as Hhi.
  { replace (Qc_of_Z 18) with (Qc_of_Z 10 - Qc_of_Z 1 + Qc_of_Z 9)%Qc
      by (apply (bool_decide_unpack _); by vm_compute).
    apply Qcplus_le_compat; [|apply Qcle_refl].
    apply Qcplus_le_compat; [done|]. by apply Qcopp_le_compat. }
  assert (Q2Qc 0 ≤ / Qc_of_Z 18 * Qc_of_Z 100)%Qc as Hscale
    by (apply (bool_decide_unpack _); by vm_compute).
  unfold Qcdiv. rewrite <-!Qcmult_assoc. split.
  - replace (Qc_of_Z 0) with (Qc_of_Z 0 * (/ Qc_of_Z 18 * Qc_of_Z 100))%Qc
      by (apply (bool_decide_unpack _); by vm_compute).
    by apply Qcmult_le_compat_r.
  - replace (Qc_of_Z 100) with (Qc_of_Z 18 * (/ Qc_of_Z 18 * Qc_of_Z 100))%Qc at 2
      by (apply (bool_decide_unpack _); by vm_compute).
    by apply Qcmult_le_compat_r.
Qed.

Lemma contributing_on_scale (property : string) (bucket : doseBucket) (time : string)
    (logs : list obj) :
  property ∈ ["focusLevel"; "anxietyLevel"] →
  Forall on_scale logs →
  Forall (λ x, (Qc_of_Z 1 ≤ x)%Qc ∧ (x ≤ Qc_of_Z 10)%Qc)
    (omap (λ log : obj, number (log !! property)) (contributing bucket time logs)).
Proof.
  intros Hproperty Hscale. apply Forall_forall. intros x Hx.
  apply list_elem_of_omap in Hx as (log & Hlog & Hnumber).
  apply list_elem_of_filter in Hlog as [_ Hlog].
  by apply (proj1 (Forall_forall _ _) Hscale log Hlog property x).
Qed.

Lemma summaries_elem (logs : list obj) (cell : resultCell) :
  cell ∈ summaries logs →
  ∃ (i j : nat) (bucket : doseBucket) (time : string),
    bucket ∈ doseBuckets ∧ time ∈ timeBuckets ∧
    cell = summary i bucket j (cellOf logs bucket time).
Proof.
  unfold summaries. simpl. intros Hcell.
  repeat (apply elem_of_cons in Hcell as [-> | Hcell];
          [eexists _, _, _, _; split; [|split; [|reflexivity]];
           unfold doseBuckets, timeBuckets; rewrite !elem_of_cons; auto 10|]).
  by apply elem_of_nil in Hcell.
Qed.

(** The metric of every cell of the sweet-spot matrix is a number between 0
    and 100 (for typed logs whose time of day is a time bucket or is
    missing).  When the levels are on the scale from 1 to 10, the averages of
    a populated cell are on that scale too and its metric is
    ((avgFocus - avgAnxiety) + 9) / 18 * 100 as it stands: the clamp to
    0..100 changes nothing. *)
Theorem sweetSpot_metric_range (logs : list obj) :
  Forall typed_log logs → Forall timed_log logs →
  ∃ m : sweetSpotMatrix,
    computeSweetSpotMatrix logs = Return m ∧
    ∀ cell : resultCell, cell ∈ cells m →
      ∃ x : Qc,
        metric cell = Num x ∧ (Qc_of_Z 0 ≤ x)%Qc ∧ (x ≤ Qc_of_Z 100)%Qc ∧
        (Forall on_scale logs → 0 < count cell →
           ∃ f a : Qc,
             avgFocus cell = Num f ∧ avgAnxiety cell = Num a ∧
             (Qc_of_Z 1 ≤ f)%Qc ∧ (f ≤ Qc_of_Z 10)%Qc ∧
             (Qc_of_Z 1 ≤ a)%Qc ∧ (a ≤ Qc_of_Z 10)%Qc ∧
             x = ((f - a + Qc_of_Z 9) / Qc_of_Z 18 * Qc_of_Z 100)%Qc).
Proof.
  intros Htyped Htimed. eexists. split; [by apply computeSweetSpotMatrix_summaries|].
  simpl. intros cell (i & j & bucket & time & Hbucket & Htime & ->)%summaries_elem.
  pose proof (summary_cellOf logs i j bucket time) as Hreports.
  set (cell := summary i bucket j (cellOf logs bucket time)) in *.
  destruct Hreports as (_ & _ & _ & _ & Hcount & Hmeans).
  assert (Qc_of_Z 0 ≤ Qc_of_Z 100)%Qc as Hle by (by apply (proj1 (Z2Qc_inj_le 0 100))).
  destruct (mean (omap (λ log : obj, number (log !! "focusLevel")) _)) as [f|] eqn:Hf;
    [destruct (mean (omap (λ log : obj, number (log !! "anxietyLevel")) _)) as [a|] eqn:Ha|].
  - destruct Hmeans as (_ & Hfocus & Hanxiety & Hmetric).
    eexists. split; [exact Hmetric|].
    split; [by apply clamp_range|]. split; [by apply clamp_range|].
    intros Hscale _. exists f, a.
    destruct (mean_bounds _ (Qc_of_Z 1) (Qc_of_Z 10) f
                (contributing_on_scale "focusLevel" bucket time logs
                   ltac:(rewrite !elem_of_cons; auto) Hscale) Hf) as [Hf1 Hf10].
    destruct (mean_bounds _ (Qc_of_Z 1) (Qc_of_Z 10) a
                (contributing_on_scale "anxietyLevel" bucket time logs
                   ltac:(rewrite !elem_of_cons; auto) Hscale) Ha) as [Ha1 Ha10].
    split_and!; [done | done | done | done | done | done |].
    destruct (metric_within f a) as [Hlo Hhi]; [done..|]. by apply clamp_within.
  - destruct Hmeans as (Hzero & _ & _ & Hmetric).
    eexists. split; [exact Hmetric|]. split; [apply Qcle_refl|]. split; [done|].
    intros _ Hpos. lia.
  - destruct Hmeans as (Hzero & _ & _ & Hmetric).
    eexists. split; [exact Hmetric|]. split; [apply Qcle_refl|]. split; [done|].
    intros _ Hpos. lia.
Qed.

(** *** A log the sweet-spot matrix has no cell for *)

Lemma matrixWith_lookup_outside (c : doseBucket → string → matrixCell) (b : doseBucket)
    (t : string) (row : gmap string matrixCell) :
  b ∈ doseBuckets → t ∉ timeBuckets →
  matrixWith c !! bucket_label b = Some row → row !! t = None.
Proof.
  intros Hb Ht Hrow. rewrite matrixWith_lookup_row in Hrow by done. injection Hrow as <-.
  unfold timeBuckets in Ht. rewrite !not_elem_of_cons in Ht.
  destruct Ht as (H1 & H2 & H3 & H4 & _). simpl.
  by rewrite !lookup_insert_ne, lookup_empty.
Qed.

Lemma populate_shape (c : doseBucket → string → matrixCell) (log : obj) :
  populate (matrixWith c) log = Throw "TypeError"
  ∨ ∃ c', populate (matrixWith c) log = Return (matrixWith c').
Proof.
  unfold populate.
  destruct (negb (truthy (log !! "estimatedMg")) || negb (truthy (log !! "timeOfDay")));
    [right; by exists c|].
  destruct (nullish (log !! "focusLevel")); [right; by exists c|].
  destruct (nullish (log !! "anxietyLevel")); [right; by exists c|].
  destruct (find _ doseBuckets) as [b|] eqn:Hfound; [|right; by exists c].
  apply find_some in Hfound as [Hb%list_elem_of_In _].
  destruct (matrixWith c !! bucket_label b) as [row|] eqn:Hrow;
    [|by rewrite matrixWith_lookup_row in Hrow].
  cbn [mbind option_bind].
  destruct (ToPropertyKey (log !! "timeOfDay")) as [time|]; [|by left].
  cbn [mbind option_bind].
  destruct (decide (time ∈ timeBuckets)) as [Hin|Hout].
  - rewrite (matrixWith_lookup_cell c b time row Hb Hin Hrow). cbn [mbind option_bind].
    right. eexists. by rewrite (matrixWith_update c b time).
  - rewrite (matrixWith_lookup_outside c b time row Hb Hout Hrow). by left.
Qed.

Lemma populate_misplaced (c : doseBucket → string → matrixCell) (log : obj) :
  misplaced log → populate (matrixWith c) log = Throw "TypeError".
Proof.
  intros ((bucket & Hbucket & Hdose) & Hfocus & Hanxiety & time & Htime & Hne & Hout).
  unfold dose_in in Hdose.
  destruct (log !! "estimatedMg") as [[| |x| |]|] eqn:Hx; try done. simpl in Hdose.
  apply andb_prop in Hdose as [Hnonzero Hin].
  unfold populate. rewrite Hx, Htime, Hfocus, Hanxiety. simpl truthy.
  rewrite Hnonzero, (bool_decide_eq_false_2 (time = "")) by done. cbn [negb orb].
  destruct (find _ doseBuckets) as [b|] eqn:Hfound.
  - apply find_some in Hfound as [Hb%list_elem_of_In _].
    destruct (matrixWith c !! bucket_label b) as [row|] eqn:Hrow;
      [|by rewrite matrixWith_lookup_row in Hrow].
    cbn [mbind option_bind ToPropertyKey].
    by rewrite (matrixWith_lookup_outside c b time row Hb Hout Hrow).
  - pose proof (find_none _ _ Hfound bucket (proj1 (list_elem_of_In _ _) Hbucket)) as Habs.
    exfalso. revert Habs. unfold js_ge, js_lt, inBucket in *. simpl. by rewrite Hin.
Qed.

Lemma forEach_thrown {A S : Type} (f : S → A → outcome S) (e : string) (xs : list A) :
  foldl (λ acc x, s ← acc; f s x) (Throw e) xs = Throw e.
Proof. induction xs as [|x xs IH]; [done|]. apply IH. Qed.

Lemma forEach_populate_shape (c : doseBucket → string → matrixCell) (logs : list obj) :
  forEach populate (matrixWith c) logs = Throw "TypeError"
  ∨ ∃ c', forEach populate (matrixWith c) logs = Return (matrixWith c').
Proof.
  induction logs as [|log logs IH] using rev_ind; [right; by exists c|].
  rewrite forEach_snoc. destruct IH as [-> | (c' & ->)]; [by left|].
  apply populate_shape.
Qed.

(** One log that the sweet-spot matrix has no cell for (a dose in a bucket,
    both levels, and a time of day that is a text other than the four time
    buckets) makes [computeSweetSpotMatrix] throw a TypeError, whatever the
    other logs are and wherever it stands among them: no matrix is
    returned. *)
Theorem computeSweetSpotMatrix_TypeError (logs : list obj) (log : obj) :
  log ∈ logs → misplaced log → computeSweetSpotMatrix logs = Throw "TypeError".
Proof.
  intros (before & after & ->)%list_elem_of_split Hlog.
  unfold computeSweetSpotMatrix.
  assert (forEach populate initialMatrix (before ++ log :: after) = Throw "TypeError") as ->;
    [|done].
  unfold forEach. rewrite foldl_app.
  change (foldl _ (Return initialMatrix) before) with (forEach populate initialMatrix before).
  rewrite initialMatrix_matrixWith.
  destruct (forEach_populate_shape (λ _ _, MatrixCell [] [] 0) before) as [-> | (c' & ->)].
  - apply forEach_thrown.
  - simpl foldl. cbn [mbind outcome_bind]. rewrite (populate_misplaced c' log Hlog).
    apply forEach_thrown.
Qed.

(** *** Focus and anxiety by time of day *)

Lemma groupsWith_lookup (c : string → levelLists) (t : string) :
  t ∈ timeBuckets → groupsWith c !! t = Some (c t).
Proof.
  intros Ht. repeat (apply elem_of_cons in Ht as [-> | Ht]; [reflexivity|]).
  by apply elem_of_nil in Ht.
Qed.

Lemma groupsWith_outside (c : string → levelLists) (t : string) :
  t ∉ timeBuckets → groupsWith c !! t = None.
Proof.
  unfold timeBuckets. rewrite !not_elem_of_cons. intros (H1 & H2 & H3 & H4 & _).
  unfold groupsWith. simpl. by rewrite !lookup_insert_ne, lookup_empty.
Qed.

Lemma groupsWith_insert (c : string → levelLists) (t : string) (g : levelLists) :
  t ∈ timeBuckets →
  <[t := g]> (groupsWith c) = groupsWith (λ t', if String.eqb t' t then g else c t').
Proof.
  intros Ht. repeat (apply elem_of_cons in Ht as [-> | Ht]; [reflexivity|]).
  by apply elem_of_nil in Ht.
Qed.

Lemma groupsWith_ext (c c' : string → levelLists) :
  (∀ t, t ∈ timeBuckets → c t = c' t) → groupsWith c = groupsWith c'.
Proof.
  intros Hext. unfold groupsWith.
  by rewrite (Hext "morning"), (Hext "afternoon"), (Hext "evening"), (Hext "night")
    by (unfold timeBuckets; rewrite !elem_of_cons; auto 10).
Qed.

Lemma pushFocus_groupsWith (c : string → levelLists) (t : string) (level : option value) :
  t ∈ timeBuckets →
  pushFocus (groupsWith c) (Some (VStr t)) level
  = Return (groupsWith (λ t', if String.eqb t' t
                              then LevelLists (lists_focus (c t) ++ [level]) (lists_anxiety (c t))
                              else c t')).
Proof.
  intros Ht. unfold pushFocus. cbn [ToPropertyKey mbind option_bind].
  rewrite groupsWith_lookup by done. cbn [mbind option_bind].
  by rewrite groupsWith_insert.
Qed.

Lemma pushAnxiety_groupsWith (c : string → levelLists) (t : string) (level : option value) :
  t ∈ timeBuckets →
  pushAnxiety (groupsWith c) (Some (VStr t)) level
  = Return (groupsWith (λ t', if String.eqb t' t
                              then LevelLists (lists_focus (c t)) (lists_anxiety (c t) ++ [level])
                              else c t')).
Proof.
  intros Ht. unfold pushAnxiety. cbn [ToPropertyKey mbind option_bind].
  rewrite groupsWith_lookup by done. cbn [mbind option_bind].
  by rewrite groupsWith_insert.
Qed.

Lemma bucketLog_groupsWith (c : string → levelLists) (log : obj) :
  timed_log log →
  bucketLog (groupsWith c) log
  = Return (groupsWith (λ t, if bool_decide (log !! "timeOfDay" = Some (VStr t))
                             then LevelLists
                                    (lists_focus (c t) ++ present (log !! "focusLevel"))
                                    (lists_anxiety (c t) ++ present (log !! "anxietyLevel"))
                             else c t)).
Proof.
  intros Htime. unfold timed_log in Htime. unfold bucketLog.
  destruct (truthy (log !! "timeOfDay")) eqn:Etime; cbn [negb]; cycle 1.
  { f_equal. apply groupsWith_ext. intros t Ht.
    rewrite bool_decide_eq_false_2; [done|]. intros Heq. rewrite Heq in Etime. simpl in Etime.
    apply negb_false_iff, bool_decide_eq_true in Etime. by apply (time_not_empty t). }
  destruct (log !! "timeOfDay") as [[| | |s|]|] eqn:Hs; try done.
  assert (s ∈ timeBuckets) as Hin.
  { destruct Htime as [-> | ?]; [done | done]. }
  unfold present.
  destruct (nullish (log !! "focusLevel")), (nullish (log !! "anxietyLevel")); cbn [negb];
    rewrite ?pushFocus_groupsWith by done; cbn [mbind outcome_bind];
    rewrite ?pushAnxiety_groupsWith by done;
    f_equal; apply groupsWith_ext; intros t Ht;
    (destruct (String.eqb t s) eqn:Hts;
     [apply String.eqb_eq in Hts as ->; rewrite bool_decide_eq_true_2 by done;
      rewrite ?String.eqb_refl, ?app_nil_r; by destruct (c s)
     |apply String.eqb_neq in Hts; rewrite bool_decide_eq_false_2 by congruence; done]).
Qed.

Lemma at_time_snoc (t : string) (logs : list obj) (log : obj) :
  at_time t (logs ++ [log])
  = at_time t logs ++ (if bool_decide (log !! "timeOfDay" = Some (VStr t)) then [log] else []).
Proof.
  unfold at_time. rewrite filter_app, filter_cons, filter_nil.
  by destruct (decide _); [rewrite bool_decide_eq_true_2 | rewrite bool_decide_eq_false_2].
Qed.

Lemma presentLevels_snoc (property : string) (logs : list obj) (log : obj) :
  presentLevels property (logs ++ [log])
  = presentLevels property logs ++ present (log !! property).
Proof.
  unfold presentLevels, present. rewrite fmap_app, filter_app. f_equal.
  simpl. rewrite filter_cons, filter_nil. by destruct (nullish (log !! property)).
Qed.

Lemma forEach_bucketLog (logs : list obj) :
  Forall timed_log logs →
  forEach bucketLog emptyGroups logs = Return (groupsWith (groupOf logs)).
Proof.
  induction logs as [|log logs IH] using rev_ind; intros Htimed; [done|].
  apply Forall_app in Htimed as [Htimed [Hlog _]%Forall_cons].
  rewrite forEach_snoc, IH by done. cbn [mbind outcome_bind].
  rewrite bucketLog_groupsWith by done. f_equal. apply groupsWith_ext. intros t _.
  unfold groupOf. rewrite at_time_snoc. case_bool_decide.
  - by rewrite !presentLevels_snoc.
  - by rewrite app_nil_r.
Qed.

(** [computeFocusAnxietyBuckets], for typed logs whose time of day is one of
    the four or is missing, returns an object with exactly the four times of
    day; under each, the average focus and the average anxiety are the means
    of the levels that are present among the logs of that time of day, null
    when there is none, and the count is the larger of the two numbers of
    levels. *)
Theorem computeFocusAnxietyBuckets_contract (logs : list obj) :
  Forall typed_log logs → Forall timed_log logs →
  ∃ result : gmap string bucketAverages,
    computeFocusAnxietyBuckets logs = Return result ∧
    (∀ time, time ∉ timeBuckets → result !! time = None) ∧
    ∀ time, time ∈ timeBuckets →
      ∃ averages : bucketAverages,
        result !! time = Some averages ∧
        bucket_avgFocus averages = Num <$> mean (levels "focusLevel" (at_time time logs)) ∧
        bucket_avgAnxiety averages = Num <$> mean (levels "anxietyLevel" (at_time time logs)) ∧
        bucket_count averages
        = Nat.max (length (levels "focusLevel" (at_time time logs)))
                  (length (levels "anxietyLevel" (at_time time logs))).
Proof.
  intros Htyped Htimed. unfold computeFocusAnxietyBuckets.
  rewrite forEach_bucketLog by done. cbn [mbind outcome_bind].
  eexists. split; [reflexivity|]. split.
  - intros time Hout. by rewrite lookup_fmap, groupsWith_outside.
  - intros time Hin. rewrite lookup_fmap, groupsWith_lookup by done.
    eexists. split; [reflexivity|]. cbn [bucket_avgFocus bucket_avgAnxiety bucket_count].
    unfold groupOf. cbn [lists_focus lists_anxiety].
    assert (Forall typed_log (at_time time logs)) as Hat.
    { apply Forall_forall. intros log [_ Hlog]%list_elem_of_filter.
      by apply (proj1 (Forall_forall _ _) Htyped). }
    assert (Forall (λ log : obj, numeric (log !! "focusLevel")) (at_time time logs)) as Hfocus.
    { apply (Forall_impl _ _ _ Hat). by intros log (_ & ? & _). }
    assert (Forall (λ log : obj, numeric (log !! "anxietyLevel")) (at_time time logs)) as Hanxiety.
    { apply (Forall_impl _ _ _ Hat). by intros log (_ & _ & ?). }
    rewrite !averageOrNull_mean by done.
    by rewrite !presentLevels_numbers, !length_fmap by done.
Qed.

Lemma push_shape (c : string → levelLists) (key level : option value) :
  (pushFocus (groupsWith c) key level = Throw "TypeError"
   ∨ ∃ c', pushFocus (groupsWith c) key level = Return (groupsWith c')) ∧
  (pushAnxiety (groupsWith c) key level = Throw "TypeError"
   ∨ ∃ c', pushAnxiety (groupsWith c) key level = Return (groupsWith c')).
Proof.
  unfold pushFocus, pushAnxiety.
  destruct (ToPropertyKey key) as [time|]; cbn [mbind option_bind]; [|by split; left].
  destruct (decide (time ∈ timeBuckets)) as [Hin|Hout].
  - rewrite groupsWith_lookup by done. cbn [mbind option_bind].
    rewrite !groupsWith_insert by done. split; right; by eexists.
  - rewrite groupsWith_outside by done. by split; left.
Qed.

Lemma bucketLog_shape (c : string → levelLists) (log : obj) :
  bucketLog (groupsWith c) log = Throw "TypeError"
  ∨ ∃ c', bucketLog (groupsWith c) log = Return (groupsWith c').
Proof.
  unfold bucketLog. destruct (negb (truthy (log !! "timeOfDay"))); [right; by exists c|].
  destruct (negb (nullish (log !! "focusLevel"))).
  - destruct (proj1 (push_shape c (log !! "timeOfDay") (log !! "focusLevel")))
      as [-> | (c' & ->)]; [by left|]. cbn [mbind outcome_bind].
    destruct (negb (nullish (log !! "anxietyLevel"))); [|right; by exists c'].
    apply push_shape.
  - cbn [mbind outcome_bind].
    destruct (negb (nullish (log !! "anxietyLevel"))); [|right; by exists c].
    apply push_shape.
Qed.

Lemma bucketLog_ungrouped (c : string → levelLists) (log : obj) :
  ungrouped log → bucketLog (groupsWith c) log = Throw "TypeError".
Proof.
  intros (Hlevel & time & Htime & Hne & Hout). unfold bucketLog. rewrite Htime.
  simpl truthy. rewrite (bool_decide_eq_false_2 (time = "")) by done. cbn [negb].
  assert (∀ c' level, pushFocus (groupsWith c') (Some (VStr time)) level = Throw "TypeError")
    as Hfocus.
  { intros c' level. unfold pushFocus. cbn [ToPropertyKey mbind option_bind].
    by rewrite groupsWith_outside. }
  assert (∀ c' level, pushAnxiety (groupsWith c') (Some (VStr time)) level = Throw "TypeError")
    as Hanxiety.
  { intros c' level. unfold pushAnxiety. cbn [ToPropertyKey mbind option_bind].
    by rewrite groupsWith_outside. }
  destruct (nullish (log !! "focusLevel")); cbn [negb].
  - cbn [mbind outcome_bind]. destruct Hlevel as [? | ->]; [done|]. apply Hanxiety.
  - by rewrite Hfocus.
Qed.

Lemma forEach_bucketLog_shape (c : string → levelLists) (logs : list obj) :
  forEach bucketLog (groupsWith c) logs = Throw "TypeError"
  ∨ ∃ c', forEach bucketLog (groupsWith c) logs = Return (groupsWith c').
Proof.
  induction logs as [|log logs IH] using rev_ind; [right; by exists c|].
  rewrite forEach_snoc. destruct IH as [-> | (c' & ->)]; [by left|].
  apply bucketLog_shape.
Qed.

(** One log that has a level and whose time of day is a text other than the
    four times of day makes [computeFocusAnxietyBuckets] throw a TypeError,
    whatever the other logs are: no averages are returned. *)
Theorem computeFocusAnxietyBuckets_TypeError (logs : list obj) (log : obj) :
  log ∈ logs → ungrouped log → computeFocusAnxietyBuckets logs = Throw "TypeError".
Proof.
  intros (before & after & ->)%list_elem_of_split Hlog.
  unfold computeFocusAnxietyBuckets.
  assert (forEach bucketLog emptyGroups (before ++ log :: after) = Throw "TypeError") as ->;
    [|done].
  unfold forEach. rewrite foldl_app.
  change (foldl _ (Return emptyGroups) before) with (forEach bucketLog emptyGroups before).
  change emptyGroups with (groupsWith (λ _, LevelLists [] [])).
  destruct (forEach_bucketLog_shape (λ _, LevelLists [] []) before) as [-> | (c' & ->)].
  - apply forEach_thrown.
  - simpl foldl. cbn [mbind outcome_bind]. rewrite (bucketLog_ungrouped c' log Hlog).
    apply forEach_thrown.
Qed.

Lemma groupLog_bucketLog (groups : gmap string levelLists) (log : obj) :
  groupLog groups log = bucketLog groups log.
Proof. unfold groupLog, bucketLog. by destruct (truthy (log !! "timeOfDay")). Qed.

(** The chart shows what [computeFocusAnxietyBuckets] computes: for every
    array of logs, [renderFocusAnxietyChart] throws when
    [computeFocusAnxietyBuckets] does, and otherwise gives the chart, under
    the labels Morning, Afternoon, Evening and Night, the average focus and
    the average anxiety that [computeFocusAnxietyBuckets] returns for
    morning, afternoon, evening and night. *)
Theorem renderFocusAnxietyChart_data (logs : list obj) :
  renderFocusAnxietyChart logs
  = mbind (M := outcome)
      (λ result : gmap string bucketAverages,
         Return (ChartData ["Morning"; "Afternoon"; "Evening"; "Night"]
                   ((λ time, result !! time ≫= bucket_avgFocus) <$> timeBuckets)
                   ((λ time, result !! time ≫= bucket_avgAnxiety) <$> timeBuckets)))
      (computeFocusAnxietyBuckets logs).
Proof.
  unfold renderFocusAnxietyChart, computeFocusAnxietyBuckets.
  assert (forEach groupLog emptyGroups logs = forEach bucketLog emptyGroups logs) as ->.
  { unfold forEach. generalize (Return emptyGroups : outcome (gmap string levelLists)).
    induction logs as [|log logs IH]; intros acc; [done|]. simpl. rewrite <-IH.
    f_equal. destruct acc as [groups|e]; [|done]. apply groupLog_bucketLog. }
  change emptyGroups with (groupsWith (λ _, LevelLists [] [])).
  by destruct (forEach_bucketLog_shape (λ _, LevelLists [] []) logs) as [-> | (c' & ->)].
Qed.

(** *** The settings form *)

Ltac Qc_to_Q :=
  unfold Qcle, Qclt, Qcplus, Qcminus, Qcopp, Qcmult, Qc_of_Z, Q2Qc in *;
  cbn [this] in *;
  repeat (setoid_rewrite Qred_correct);
  repeat match goal with H : _ |- _ => progress (setoid_rewrite Qred_correct in H) end.

(** The settings form never saves a limit of 0.  The daily limit it saves is
    the number entered, or 40 when the entry is 0 or is not a number; the
    daily event limit likewise, with 5.  What it saves has exactly four
    properties.  When the medium accepts the write, these replace the stored
    settings (a property stored before under another name is gone),
    [loadSettings] then returns them, and the logs are untouched; when the
    medium refuses the write, the call throws 'Failed to save settings' and
    the storage is as it was. *)
Theorem saveSettingsFromUI_contract (mgLimit eventLimit : option Z) (offset : Z)
    (st : localStorage) :
  let mg := parsed_or mgLimit 40 in
  let events := parsed_or eventLimit 5 in
  mg ≠ 0%Z ∧ events ≠ 0%Z ∧
  (mgLimit = None ∨ mgLimit = Some 0%Z → mg = 40%Z) ∧
  (∀ n, mgLimit = Some n → n ≠ 0%Z → mg = n) ∧
  (eventLimit = None ∨ eventLimit = Some 0%Z → events = 5%Z) ∧
  (∀ n, eventLimit = Some n → n ≠ 0%Z → events = n) ∧
  ∃ saved : obj,
    saved !! "dailyMgLimit" = Some (VNum (Qc_of_Z mg)) ∧
    saved !! "dailyEventLimit" = Some (VNum (Qc_of_Z events)) ∧
    saved !! "morningLimitEnabled" = Some (VBool false) ∧
    saved !! "timezoneOffsetMinutes" = Some (VNum (Qc_of_Z offset)) ∧
    (∀ k, k ∉ ["dailyMgLimit"; "dailyEventLimit"; "morningLimitEnabled";
               "timezoneOffsetMinutes"] → saved !! k = None) ∧
    (fits (LocalStorage (nicotracker_logs st) (Stored saved)) = true →
     saveSettingsFromUI mgLimit eventLimit offset st
     = (Return (), LocalStorage (nicotracker_logs st) (Stored saved)) ∧
     ∃ settings : obj,
       loadSettings (LocalStorage (nicotracker_logs st) (Stored saved))
       = (Return settings, LocalStorage (nicotracker_logs st) (Stored saved)) ∧
       ∀ k, settings !! k = saved !! k) ∧
    (fits (LocalStorage (nicotracker_logs st) (Stored saved)) = false →
     saveSettingsFromUI mgLimit eventLimit offset st = (Throw "Failed to save settings", st)).
Proof.
  intros mg events.
  assert (∀ parsed fallback, fallback ≠ 0%Z → parsed_or parsed fallback ≠ 0%Z) as Hnonzero.
  { intros [n|] fallback Hfallback; simpl; [|done]. by case_bool_decide. }
  split; [by apply Hnonzero|]. split; [by apply Hnonzero|].
  split; [by intros [-> | ->]|].
  split; [intros n -> Hn; unfold mg; simpl; by rewrite bool_decide_eq_false_2|].
  split; [by intros [-> | ->]|].
  split; [intros n -> Hn; unfold events; simpl; by rewrite bool_decide_eq_false_2|].
  unfold saveSettingsFromUI, saveSettings. fold mg events.
  set (saved := object _).
  assert (∀ k, k ∉ ["dailyMgLimit"; "dailyEventLimit"; "morningLimitEnabled";
                    "timezoneOffsetMinutes"] → saved !! k = None) as Hothers.
  { intros k Hk. rewrite !not_elem_of_cons in Hk. destruct Hk as (H1 & H2 & H3 & H4 & _).
    unfold saved, object. simpl. by rewrite !lookup_insert_ne, lookup_empty. }
  exists saved. split; [done|]. split; [done|]. split; [done|]. split; [done|].
  split; [exact Hothers|]. split.
  - intros Hfits. rewrite Hfits. split; [done|].
    eexists. split; [apply loadSettings_storedSettings|].
    cbn [storedSettings nicotracker_settings]. intros k. rewrite spread_lookup.
    destruct (saved !! k) eqn:Hk; [done|].
    destruct (decide (k ∈ ["dailyMgLimit"; "dailyEventLimit"; "morningLimitEnabled";
                           "timezoneOffsetMinutes"])) as [Hin | Hout].
    + rewrite !elem_of_cons in Hin.
      destruct Hin as [-> | [-> | [-> | [-> | Hin]]]]; try discriminate Hk.
      by apply elem_of_nil in Hin.
    + rewrite !not_elem_of_cons in Hout. destruct Hout as (H1 & H2 & H3 & H4 & _).
      unfold DEFAULT_SETTINGS, object. simpl. by rewrite !lookup_insert_ne, lookup_empty.
  - intros Hfits. by rewrite Hfits.
Qed.

(** *** The intake wizard *)

Lemma isValid_step_valid (step : Z) (w : wizardFields) :
  isValid step w = true ↔ step_valid step w.
Proof.
  unfold isValid, step_valid.
  destruct (decide (step = 1%Z)) as [-> | H1].
  { rewrite bool_decide_eq_true_2 by done.
    rewrite !andb_true_iff, !bool_decide_eq_true. split.
    - intros [[Hsource Hquantity] Hstrength]. left. split; [done|].
      split; [by destruct (source w)|]. split; [|done].
      destruct (quantity w) as [q|]; [|done]. apply bool_decide_eq_true in Hquantity. eauto.
    - intros [(_ & [s Hs] & (q & Hq & Hpos) & Hstrength) | [[? _] | [[? _] | ?]]]; try done.
      rewrite Hs, Hq. by rewrite bool_decide_eq_true. }
  rewrite (bool_decide_eq_false_2 _ H1).
  destruct (decide (step = 2%Z)) as [-> | H2].
  { rewrite bool_decide_eq_true_2 by done. rewrite bool_decide_eq_true. split.
    - intros Hlen. right; left. split; [done|]. destruct (healthEffects w); [simpl in Hlen; lia | done].
    - intros [[? _] | [[_ Hne] | [[? _] | ?]]]; try done.
      destruct (healthEffects w); [done | simpl; lia]. }
  rewrite (bool_decide_eq_false_2 _ H2).
  destruct (decide (step = 3%Z)) as [-> | H3].
  { rewrite bool_decide_eq_true_2 by done. split.
    - intros Hvalid. right; right; left. split; [done|].
      destruct (reason w) as [r|]; [|done]. exists r. split; [done|]. intros ->.
      rewrite bool_decide_eq_true_2 in Hvalid by done. simpl in Hvalid.
      destruct (otherReason w) as [other|]; [|done]. exists other. split; [done|].
      by apply negb_true_iff, bool_decide_eq_false in Hvalid.
    - intros [[? _] | [[? _] | [(_ & r & -> & Hother) | ?]]]; try done.
      destruct (decide (r = "Other")) as [Hr | Hr].
      + rewrite (bool_decide_eq_true_2 _ Hr). simpl.
        destruct (Hother Hr) as (other & -> & Hne). by rewrite bool_decide_eq_false_2.
      + by rewrite (bool_decide_eq_false_2 _ Hr). }
  rewrite (bool_decide_eq_false_2 _ H3). rewrite bool_decide_eq_true. split.
  - auto.
  - intros [[? _] | [[? _] | [[? _] | ?]]]; done.
Qed.

Lemma showWizardStep_run (step : Z) (p : page) :
  (1 ≤ step ≤ 4)%Z →
  showWizardStep step p
  = (if bool_decide (step = 4%Z)
     then match estimatedMg (wizardData p) with
          | Some _ => Return ()
          | None => Throw "TypeError"
          end
     else Return (),
     Page step (wizardData p) (negb (isValid step (wizardData p)))
       (negb (isValid step (wizardData p)))).
Proof.
  intros Hstep. unfold showWizardStep. rewrite bool_decide_eq_true_2 by done.
  unfold mbind, ui_bind. simpl. case_bool_decide; [|done].
  unfold updateConfirmationStep, mbind, ui_bind. simpl.
  by destruct (estimatedMg (wizardData p)).
Qed.

Lemma nextWizardStep_run (p : page) :
  (1 ≤ currentWizardStep p ≤ 4)%Z →
  nextWizardStep p
  = if isValid (currentWizardStep p) (wizardData p) && bool_decide (currentWizardStep p < 4)%Z
    then showWizardStep (currentWizardStep p + 1)
           (Page (currentWizardStep p) (wizardData p) false false)
    else (Return (),
          Page (currentWizardStep p) (wizardData p)
            (negb (isValid (currentWizardStep p) (wizardData p)))
            (negb (isValid (currentWizardStep p) (wizardData p)))).
Proof.
  intros Hstep. unfold nextWizardStep, mbind, ui_bind. simpl.
  destruct (isValid (currentWizardStep p) (wizardData p)); simpl; [|done].
  by case_bool_decide.
Qed.

Lemma prevWizardStep_run (p : page) :
  (1 ≤ currentWizardStep p ≤ 4)%Z →
  prevWizardStep p
  = (Return (),
     if bool_decide (1 < currentWizardStep p)%Z
     then Page (currentWizardStep p - 1) (wizardData p)
            (negb (isValid (currentWizardStep p - 1) (wizardData p)))
            (negb (isValid (currentWizardStep p - 1) (wizardData p)))
     else p).
Proof.
  intros Hstep. unfold prevWizardStep. unfold mbind at 1. unfold ui_bind at 1. simpl.
  case_bool_decide as Hprev; [|done].
  unfold mbind, ui_bind. rewrite showWizardStep_run by lia.
  rewrite bool_decide_eq_false_2 by lia. done.
Qed.

Lemma listener_fields (e : event) (p : page) :
  match e with
  | NextClick | PrevClick => (1 ≤ currentWizardStep p ≤ 4)%Z → wizardData (listener e p).2 = wizardData p
  | _ => currentWizardStep (listener e p).2 = currentWizardStep p
  end.
Proof.
  destruct e; unfold listener, mbind, ui_bind; simpl; try done.
  - unfold updateEstimatedMg, mbind, ui_bind. simpl.
    destruct (source (wizardData p)); [|done].
    destruct parsed as [n|]; [|done]. case_bool_decide; [done|]. simpl.
    by destruct (_ || _).
  - unfold updateEstimatedMg, mbind, ui_bind. simpl.
    destruct (source (wizardData p)), (quantity (wizardData p)); try done.
    by destruct (_ || _).
  - intros Hstep. rewrite nextWizardStep_run by done.
    destruct (_ && _) eqn:Hnext; [|done].
    apply andb_prop in Hnext as [_ Hlt%bool_decide_eq_true].
    by rewrite showWizardStep_run by lia.
  - intros Hstep. rewrite prevWizardStep_run by done. by case_bool_decide.
Qed.

Lemma listener_step (e : event) (p : page) :
  (1 ≤ currentWizardStep p ≤ 4)%Z → (1 ≤ currentWizardStep (listener e p).2 ≤ 4)%Z.
Proof.
  intros Hstep. pose proof (listener_fields e p) as Hfields.
  destruct e; try (by rewrite Hfields).
  - change (listener NextClick p) with (nextWizardStep p). rewrite nextWizardStep_run by done.
    destruct (_ && _) eqn:Hnext; [|done].
    apply andb_prop in Hnext as [_ Hlt%bool_decide_eq_true].
    rewrite showWizardStep_run by lia. simpl. lia.
  - change (listener PrevClick p) with (prevWizardStep p). rewrite prevWizardStep_run by done.
    case_bool_decide; simpl; lia.
Qed.

(** The wizard stays on its four steps.  From a step between 1 and 4, Next
    moves one step on exactly when the step is below 4 and has what it asks
    for (a source, a positive quantity and a positive strength; a health
    effect; a reason, with its text when it is Other), and stays otherwise;
    Previous moves one step back, except from step 1; neither changes the
    data.  Next throws a TypeError, after the move, exactly when it moves to
    the confirmation with no estimate computed.  And after [openWizard] the
    step is between 1 and 4 whatever the events. *)
Theorem wizard_steps (p : page) (events : list event) :
  ((1 ≤ currentWizardStep p ≤ 4)%Z →
   let step := currentWizardStep p in
   let moves := step_valid step (wizardData p) ∧ (step < 4)%Z in
   wizardData (nextWizardStep p).2 = wizardData p ∧
   (moves → currentWizardStep (nextWizardStep p).2 = (step + 1)%Z) ∧
   (¬ moves → currentWizardStep (nextWizardStep p).2 = step) ∧
   ((nextWizardStep p).1 = Throw "TypeError"
    ↔ moves ∧ step = 3%Z ∧ estimatedMg (wizardData p) = None) ∧
   (prevWizardStep p).1 = Return () ∧
   wizardData (prevWizardStep p).2 = wizardData p ∧
   currentWizardStep (prevWizardStep p).2 = (if bool_decide (1 < step)%Z then step - 1 else step)%Z) ∧
  (1 ≤ currentWizardStep (after events (openWizard p).2) ≤ 4)%Z.
Proof.
  split.
  - intros Hstep step moves.
    assert (isValid step (wizardData p) && bool_decide (step < 4)%Z = true ↔ moves) as Hmoves.
    { unfold moves. by rewrite andb_true_iff, isValid_step_valid, bool_decide_eq_true. }
    assert ((prevWizardStep p).1 = Return () ∧
            wizardData (prevWizardStep p).2 = wizardData p ∧
            currentWizardStep (prevWizardStep p).2
            = (if bool_decide (1 < step)%Z then step - 1 else step)%Z) as Hprev.
    { rewrite prevWizardStep_run by done. unfold step. simpl.
      destruct (bool_decide (1 < currentWizardStep p)%Z); by simpl. }
    rewrite nextWizardStep_run by done. fold step.
    destruct (isValid step (wizardData p) && bool_decide (step < 4)%Z) eqn:Hnext.
    + apply andb_prop in Hnext as Hnext'. destruct Hnext' as [_ Hlt%bool_decide_eq_true].
      rewrite showWizardStep_run by (simpl; lia). simpl.
      split; [done|]. split; [done|]. split; [intros Hstay; by destruct Hstay; apply Hmoves|].
      split; [|done].
      destruct (bool_decide (step + 1 = 4)%Z) eqn:Hfour;
        [apply bool_decide_eq_true in Hfour | apply bool_decide_eq_false in Hfour].
      * destruct (estimatedMg (wizardData p)) as [estimate|].
        -- split; [intros [=] | by intros (_ & _ & ?)].
        -- split; [|done]. intros _. split; [by apply Hmoves|]. split; [lia | done].
      * split; [done|]. intros (_ & ? & _). lia.
    + simpl. split; [done|]. split; [intros Hmove%Hmoves; done|]. split; [done|].
      split; [|done].
      split; [done|]. intros (Hmove%Hmoves & _). done.
  - assert (1 ≤ currentWizardStep (openWizard p).2 ≤ 4)%Z as Hopen.
    { unfold openWizard, mbind, ui_bind. simpl. lia. }
    unfold after. generalize dependent (openWizard p).2. clear p.
    induction events as [|e events IH]; intros p Hp; [done|].
    simpl. apply IH. by apply listener_step.
Qed.








(** *** Sample data *)

Lemma Math_floor_below (r : Qc) (k : Z) :
  (Qc_of_Z 0 ≤ r)%Qc → (r < Qc_of_Z 1)%Qc → (0 < k)%Z →
  (0 ≤ Math_floor (r * Qc_of_Z k) < k)%Z.
Proof.
  intros Hlo Hhi Hk. unfold Math_floor.
  assert (Qfloor (r * Qc_of_Z k)%Qc = Qfloor (r * inject_Z k)%Q) as ->.
  { apply Qfloor_comp. unfold Qcmult, Q2Qc. cbn [this]. apply Qred_correct. }
  Qc_to_Q.
  assert (inject_Z 0 < inject_Z k)%Q as Hk' by (by rewrite <-Zlt_Qlt).
  split.
  - rewrite <-(Qfloor_Z 0). apply Qfloor_resp_le. apply Qmult_le_0_compat; [done|].
    by apply Qlt_le_weak.
  - rewrite Zlt_Qlt. eapply Qle_lt_trans; [apply Qfloor_le|].
    rewrite <-(Qmult_1_l (inject_Z k)) at 2. by apply Qmult_lt_compat_r.
Qed.

Lemma gen_bind_run {A B : Type} (m : gen A) (f : A → gen B) (n : nat) :
  (m ≫= f) n = f (m n).1 (m n).2.
Proof. unfold mbind, gen_bind. by destruct (m n). Qed.

Ltac draw_all :=
  cbv [morningLog afternoonLog eveningLog randomBelow random mbind gen_bind mret gen_ret fst].

Ltac object_field := rewrite ?object_lookup_skip by done; apply object_lookup_here.

Ltac below H k :=
  match goal with
  | |- context [Math_floor (Math_random ?n * Qc_of_Z k)] =>
      pose proof (Math_floor_below (Math_random n) k (proj1 (H n)) (proj2 (H n)) eq_refl)
  end.

Lemma dose_range (r : Qc) (k b : Z) :
  (Qc_of_Z 0 ≤ r)%Qc → (r < Qc_of_Z 1)%Qc → (1 ≤ b)%Z → (0 < k)%Z → (k + b ≤ 7)%Z →
  (Qc_of_Z 1 ≤ r * Qc_of_Z k + Qc_of_Z b)%Qc ∧ (r * Qc_of_Z k + Qc_of_Z b < Qc_of_Z 7)%Qc.
Proof.
  intros Hlo Hhi Hb Hk Hkb.
  assert (Qc_of_Z 1 ≤ Qc_of_Z b)%Qc as Hb' by by apply (proj1 (Z2Qc_inj_le 1 b)).
  assert (Qc_of_Z k + Qc_of_Z b ≤ Qc_of_Z 7)%Qc as Hkb'.
  { rewrite <-Z2Qc_inj_add. by apply (proj1 (Z2Qc_inj_le (k + b) 7)). }
  assert (Qc_of_Z 0 < Qc_of_Z k)%Qc as Hk' by by apply (proj1 (Z2Qc_inj_lt 0 k)).
  assert (Qc_of_Z 0 ≤ r * Qc_of_Z k)%Qc as Hrk.
  { rewrite Z2Qc_inj_0 in *. rewrite <-(Qcmult_0_l (Qc_of_Z k)).
    apply Qcmult_le_compat_r; [done | by apply Qclt_le_weak]. }
  assert (r * Qc_of_Z k < Qc_of_Z k)%Qc as Hrk'.
  { rewrite Z2Qc_inj_0, Z2Qc_inj_1 in *. rewrite <-(Qcmult_1_l (Qc_of_Z k)) at 2.
    by apply Qcmult_lt_compat_r. }
  revert Hb' Hkb' Hrk Hrk'. generalize (r * Qc_of_Z k)%Qc (Qc_of_Z k) (Qc_of_Z b).
  intros x y z. Qc_to_Q. unfold inject_Z. lra.
Qed.

Lemma morningLog_sample (date : Z) (dateStr : string) (n : nat) :
  unit_random →
  sample_log dateStr (morningLog date dateStr n).1 ∧
  (morningLog date dateStr n).1 !! "id" = Some (VStr ("sample-" +:+ dateStr +:+ "-morning")).
Proof.
  intros Hunit. draw_all. split; [|object_field].
  split; [exists "morning"; split; [by repeat constructor|]; split; object_field|].
  split; [object_field|].
  split; [eexists; split; [object_field | by apply dose_range; try apply Hunit]|].
  split; (eexists; split; [object_field|]); below Hunit 3%Z; lia.
Qed.

Lemma afternoonLog_sample (date : Z) (dateStr : string) (n : nat) :
  unit_random →
  sample_log dateStr (afternoonLog date dateStr n).1 ∧
  (afternoonLog date dateStr n).1 !! "id" = Some (VStr ("sample-" +:+ dateStr +:+ "-afternoon")).
Proof.
  intros Hunit. draw_all. split; [|object_field].
  split; [exists "afternoon"; split; [by repeat constructor|]; split; object_field|].
  split; [object_field|].
  split; [eexists; split; [object_field | by apply dose_range; try apply Hunit]|].
  split; (eexists; split; [object_field|]); below Hunit 4%Z; lia.
Qed.

Lemma eveningLog_sample (date : Z) (dateStr : string) (n : nat) :
  unit_random →
  sample_log dateStr (eveningLog date dateStr n).1 ∧
  (eveningLog date dateStr n).1 !! "id" = Some (VStr ("sample-" +:+ dateStr +:+ "-evening")).
Proof.
  intros Hunit. draw_all. split; [|object_field].
  split; [exists "evening"; split; [by repeat constructor|]; split; object_field|].
  split; [object_field|].
  split; [eexists; split; [object_field | by apply dose_range; try apply Hunit]|].
  split; (eexists; split; [object_field|]); below Hunit 3%Z; lia.
Qed.

Lemma sampleDay_spec (now i : Z) (n : nat) :
  1 ≤ length (sampleDay now i n).1 ≤ 3 ∧
  (unit_random →
   Forall (sample_log (sampleDate now i)) (sampleDay now i n).1 ∧
   ids (sampleDay now i n).1 `sublist_of` dayIds (sampleDate now i)).
Proof.
  unfold sampleDay. cbv zeta.
  change (toISODate (setDate now (getDate now - i))) with (sampleDate now i).
  rewrite !gen_bind_run.
  split.
  - do 2 destruct (bool_decide _); rewrite ?gen_bind_run; cbn [mret gen_ret fst snd app length]; lia.
  - intros Hunit.
    pose proof (λ date n, morningLog_sample date (sampleDate now i) n Hunit) as Hm.
    pose proof (λ date n, afternoonLog_sample date (sampleDate now i) n Hunit) as Ha.
    pose proof (λ date n, eveningLog_sample date (sampleDate now i) n Hunit) as He.
    do 2 destruct (bool_decide _); rewrite ?gen_bind_run; cbn [mret gen_ret fst snd app];
      (split;
       [repeat match goal with
               | |- Forall _ (_ :: _) => apply Forall_cons; split
               | |- Forall _ [] => apply Forall_nil_2
               | |- sample_log _ (morningLog _ _ _).1 => apply Hm
               | |- sample_log _ (afternoonLog _ _ _).1 => apply Ha
               | |- sample_log _ (eveningLog _ _ _).1 => apply He
               end
       |]).
    all: unfold ids, dayIds; cbn [fmap list_fmap].
    all: rewrite ?(λ date n, proj2 (Hm date n)), ?(λ date n, proj2 (Ha date n)),
           ?(λ date n, proj2 (He date n)).
    all: generalize (sampleDate now i); intros d.
    all: change ("-" +:+ "morning") with "-morning".
    all: change ("-" +:+ "afternoon") with "-afternoon".
    all: change ("-" +:+ "evening") with "-evening".
    all: repeat match goal with
               | |- [] `sublist_of` _ => apply sublist_nil_l
               | |- (?x :: _) `sublist_of` (?x :: _) => apply sublist_skip
               | |- _ `sublist_of` (_ :: _) => apply sublist_cons
               end.
Qed.

Lemma sampleDays_spec (now : Z) (days : list Z) (acc : gen (list obj)) (n : nat) :
  ∃ rest : list obj,
    (foldl (λ (acc : gen (list obj)) i, logs ← acc; day ← sampleDay now i; mret (logs ++ day))
           acc days n).1 = (acc n).1 ++ rest ∧
    length days ≤ length rest ≤ 3 * length days ∧
    (unit_random →
     Forall (λ log, ∃ i, i ∈ days ∧ sample_log (sampleDate now i) log) rest ∧
     ids rest `sublist_of` (days ≫= λ i, dayIds (sampleDate now i))).
Proof.
  revert acc n. induction days as [|i days IH]; intros acc n.
  - exists []. cbn [foldl]. rewrite app_nil_r. split; [done|]. split; [done|].
    intros _. split; [apply Forall_nil_2 | apply sublist_nil].
  - cbn [foldl].
    destruct (IH (logs ← acc; day ← sampleDay now i; mret (logs ++ day)) n)
      as (rest & -> & Hlength & Hrest).
    rewrite !gen_bind_run. cbn [mret gen_ret fst].
    destruct (sampleDay_spec now i (acc n).2) as [Hlength' Hday].
    exists ((sampleDay now i (acc n).2).1 ++ rest). split; [by rewrite app_assoc|].
    split; [rewrite length_app, length_cons; lia|].
    intros Hunit. destruct (Hrest Hunit) as [Hlogs Hids], (Hday Hunit) as [Hlogs' Hids'].
    split.
    + apply Forall_app. split.
      * eapply Forall_impl; [exact Hlogs'|]. intros log Hlog. exists i. split; [|done].
        apply list_elem_of_here.
      * eapply Forall_impl; [exact Hlogs|]. intros log (j & Hj & Hlog). exists j.
        split; [|done]. by apply list_elem_of_further.
    + unfold ids. rewrite fmap_app, bind_cons. by apply sublist_app.
Qed.

Lemma append_split (a b c d : string) :
  a +:+ b = c +:+ d → String.length a ≤ String.length c →
  ∃ x, c = a +:+ x ∧ b = x +:+ d.
Proof.
  revert c. induction a as [|ch a IH]; intros c Heq Hlen.
  - exists c. by split.
  - destruct c as [|ch' c]; [simpl in Hlen; lia|]. simpl in Heq, Hlen.
    injection Heq as -> Heq. destruct (IH c Heq) as (x & -> & ->); [lia|]. by exists x.
Qed.

Lemma append_empty_r (a : string) : a +:+ "" = a.
Proof.
  induction a as [|ch a IH]; [done|]. change (String ch (a +:+ "") = String ch a). by f_equal.
Qed.

Lemma sampleId_suffix (d d' part part' : string) :
  part ∈ ["morning"; "afternoon"; "evening"] →
  part' ∈ ["morning"; "afternoon"; "evening"] →
  String.length d ≤ String.length d' →
  d +:+ "-" +:+ part = d' +:+ "-" +:+ part' → d = d' ∧ part = part'.
Proof.
  intros Hpart Hpart' Hlen Heq.
  destruct (append_split _ _ _ _ Heq Hlen) as (x & -> & Hx). clear Heq Hlen.
  repeat (apply elem_of_cons in Hpart as [-> | Hpart]);
    [| | |by apply elem_of_nil in Hpart];
    (repeat (apply elem_of_cons in Hpart' as [-> | Hpart']);
     [| | |by apply elem_of_nil in Hpart']);
    simpl in Hx;
    repeat (destruct x as [|? x]; simpl in Hx;
            [try discriminate Hx; try (by rewrite append_empty_r)
            |injection Hx as ? Hx; subst; try discriminate]);
    destruct x; discriminate Hx.
Qed.

Lemma sampleId_inj (d d' part part' : string) :
  part ∈ ["morning"; "afternoon"; "evening"] →
  part' ∈ ["morning"; "afternoon"; "evening"] →
  "sample-" +:+ d +:+ "-" +:+ part = "sample-" +:+ d' +:+ "-" +:+ part' →
  d = d' ∧ part = part'.
Proof.
  intros Hpart Hpart' Heq. injection Heq as Heq.
  destruct (Nat.le_ge_cases (String.length d) (String.length d')) as [Hle | Hle].
  - by apply sampleId_suffix.
  - symmetry in Heq. by destruct (sampleId_suffix d' d part' part Hpart' Hpart Hle Heq) as [-> ->].
Qed.

Lemma dayIds_elem (dateStr : string) (x : option value) :
  x ∈ dayIds dateStr ↔
  ∃ part, part ∈ ["morning"; "afternoon"; "evening"] ∧
          x = Some (VStr ("sample-" +:+ dateStr +:+ "-" +:+ part)).
Proof.
  unfold dayIds. rewrite list_elem_of_fmap. split; intros (part & H1 & H2); by exists part.
Qed.

Lemma Some_VStr_inj (s s' : string) : Some (VStr s) = Some (VStr s') → s = s'.
Proof. congruence. Qed.

Lemma dayIds_NoDup (dates : list string) : NoDup dates → NoDup (dates ≫= dayIds).
Proof.
  induction 1 as [|d dates Hd Hdates IH]; [apply NoDup_nil_2|].
  rewrite bind_cons. apply NoDup_app. split; [|split; [|done]].
  - unfold dayIds. apply NoDup_fmap_2_strong.
    + intros part part' Hpart Hpart' Heq%Some_VStr_inj.
      by destruct (sampleId_inj d d part part' Hpart Hpart' Heq).
    + apply (bool_decide_unpack _). by vm_compute.
  - intros x (part & Hpart & ->)%dayIds_elem (d' & (part' & Hpart' & Heq%Some_VStr_inj)%dayIds_elem & Hd')%list_elem_of_bind.
    destruct (sampleId_inj d d' part part' Hpart Hpart' Heq) as [-> _]. done.
Qed.

Lemma NoDup_unique_ids (logs : list obj) : NoDup (ids logs) → unique_ids logs.
Proof.
  intros Hids i j a b Hi Hj Heq%strict_eq_true.
  apply (NoDup_lookup (ids logs) i j (a !! "id")); [done| |];
    unfold ids; rewrite list_lookup_fmap; [by rewrite Hi | by rewrite Hj, Heq].
Qed.

Lemma sample_log_typed (dateStr : string) (log : obj) :
  sample_log dateStr log → typed_log log ∧ timed_log log ∧ on_scale log.
Proof.
  intros [(part & Hpart & _ & Htime) (_ & (x & Hdose & _) & (f & Hfocus & Hf) & (a & Hanxiety & Ha))].
  split; [|split].
  - unfold typed_log. by rewrite Hdose, Hfocus, Hanxiety.
  - unfold timed_log. rewrite Htime. right. unfold timeBuckets.
    apply elem_of_cons in Hpart as [-> | Hpart]; [by repeat constructor|].
    apply elem_of_cons in Hpart as [-> | Hpart]; [by repeat constructor|].
    apply elem_of_cons in Hpart as [-> | Hpart]; [by repeat constructor|].
    by apply elem_of_nil in Hpart.
  - intros property y Hproperty Hy.
    apply elem_of_cons in Hproperty as [-> | Hproperty].
    { rewrite Hfocus in Hy. injection Hy as <-.
      split; [apply (proj1 (Z2Qc_inj_le 1 f)) | apply (proj1 (Z2Qc_inj_le f 10))]; lia. }
    apply elem_of_cons in Hproperty as [-> | Hproperty]; [|by apply elem_of_nil in Hproperty].
    rewrite Hanxiety in Hy. injection Hy as <-.
    split; [apply (proj1 (Z2Qc_inj_le 1 a)) | apply (proj1 (Z2Qc_inj_le a 10))]; lia.
Qed.

Lemma generateSampleLogs_length (now : Z) (n : nat) :
  7 ≤ length (generateSampleLogs now n).1 ≤ 21.
Proof.
  unfold generateSampleLogs.
  destruct (sampleDays_spec now sampleDays (mret []) n) as (logs & Heq & Hlength & _).
  unfold sampleDays in Heq at 1. rewrite Heq. exact Hlength.
Qed.

(** [generateSampleLogs] returns between 7 and 21 logs.  When every draw of
    [Math.random()] is at least 0 and below 1, each log is a sample log of one
    of the seven days up to today: its id is made of the date and the part of
    the day, its dose is at least 1 and below 7 mg, its focus level is from 4
    to 9 and its anxiety level from 2 to 6; the ids are unique when the seven
    days have seven different dates; and the sweet-spot matrix and the
    focus/anxiety buckets are computed on the logs without an exception. *)
Theorem generateSampleLogs_shape (now : Z) (n : nat) :
  let logs := (generateSampleLogs now n).1 in
  7 ≤ length logs ≤ 21 ∧
  (unit_random →
   Forall (λ log, ∃ i, i ∈ sampleDays ∧ sample_log (sampleDate now i) log) logs ∧
   (NoDup (sampleDate now <$> sampleDays) → unique_ids logs) ∧
   (∃ m, computeSweetSpotMatrix logs = Return m) ∧
   (∃ result, computeFocusAnxietyBuckets logs = Return result)).
Proof.
  cbv zeta. unfold generateSampleLogs.
  destruct (sampleDays_spec now sampleDays (mret []) n) as (logs & Heq & Hlength & Hlogs).
  unfold sampleDays in Heq at 1. rewrite Heq. cbn [mret gen_ret fst app].
  split; [exact Hlength|]. intros Hunit. destruct (Hlogs Hunit) as [Hsample Hids].
  assert (Forall typed_log logs ∧ Forall timed_log logs) as [Htyped Htimed].
  { split; (eapply Forall_impl; [exact Hsample|]); intros log (i & _ & Hlog);
      by destruct (sample_log_typed _ _ Hlog) as (? & ? & ?). }
  split; [done|]. split; [|split].
  - intros Hdates. apply NoDup_unique_ids. eapply sublist_NoDup; [|exact Hids].
    rewrite <-(list_fmap_bind (sampleDate now) dayIds). by apply dayIds_NoDup.
  - eexists. by apply computeSweetSpotMatrix_summaries.
  - unfold computeFocusAnxietyBuckets. rewrite forEach_bucketLog by done.
    cbn [mbind outcome_bind]. by eexists.
Qed.

(** [initializeSampleData] leaves a store that has logs as it is and returns
    false.  With no log stored (nothing, an empty array, or a text that does
    not parse) it saves the sample logs and returns true, and a later call
    returns false and keeps them; when the medium refuses the write, it
    throws 'Failed to save logs' and the storage is unchanged. *)
Theorem initializeSampleData_contract (now later : Z) (st : localStorage) :
  (storedLogs st ≠ [] → initializeSampleData now st = (Return false, st)) ∧
  (storedLogs st = [] →
   let sampleLogs := (generateSampleLogs now 0).1 in
   (fits (with_logs sampleLogs st) = true →
    initializeSampleData now st = (Return true, with_logs sampleLogs st) ∧
    initializeSampleData later (with_logs sampleLogs st)
    = (Return false, with_logs sampleLogs st)) ∧
   (fits (with_logs sampleLogs st) = false →
    initializeSampleData now st = (Throw "Failed to save logs", st))).
Proof.
  assert (∀ t st', storedLogs st' ≠ [] → initializeSampleData t st' = (Return false, st')) as Hkeep.
  { intros t st' Hlogs. unfold initializeSampleData.
    rewrite (bind_return _ _ _ _ _ (loadLogs_storedLogs st')).
    rewrite bool_decide_eq_false_2; [done|]. by destruct (storedLogs st'). }
  split; [apply Hkeep|]. intros Hempty. cbv zeta.
  assert (initializeSampleData now st
          = (saveLogs (generateSampleLogs now 0).1 ≫= λ _, mret true) st) as ->.
  { unfold initializeSampleData. rewrite (bind_return _ _ _ _ _ (loadLogs_storedLogs st)).
    by rewrite Hempty. }
  split.
  - intros Hfits. split.
    + by rewrite (bind_return _ _ _ _ _ (saveLogs_fits _ _ Hfits)).
    + apply Hkeep. rewrite storedLogs_with_logs. intros Hnil.
      pose proof (proj1 (generateSampleLogs_length now 0)) as Hlength.
      rewrite Hnil in Hlength. simpl in Hlength. lia.
  - intros Hfits. unfold mbind, js_bind, saveLogs. fold (with_logs (generateSampleLogs now 0).1 st).
    by rewrite Hfits.
Qed.

End NicoTracker.

(** ** The results on the sample data and on the fixed-offset host *)

Lemma setDate_previous_day (tz t : Z) :
  utcDay (FixedOffsetHost.setDate tz t (FixedOffsetHost.getDate tz t - 1)) = (utcDay t - 1)%Z.
Proof.
  unfold FixedOffsetHost.setDate, utcDay.
  replace (t + (FixedOffsetHost.getDate tz t - 1 - FixedOffsetHost.getDate tz t) * msPerDay)%Z
    with (t + (-1) * msPerDay)%Z by lia.
  rewrite Z.div_add by done. lia.
Qed.

(** The estimate of no puffs at all is 0. *)
Lemma calculateEstimatedMg_contract_witness :
  ((Qc_of_Z 0 ≤ Qc_of_Z 0)%Qc ∨ (Qc_of_Z 5 ≤ Qc_of_Z 0)%Qc) ∧
  calculateEstimatedMg "Vape" (Qc_of_Z 0) (Qc_of_Z 5) = Qc_of_Z 0.
Proof.
  assert ((Qc_of_Z 0 ≤ Qc_of_Z 0)%Qc ∨ (Qc_of_Z 5 ≤ Qc_of_Z 0)%Qc) as H
    by (left; apply Qcle_refl).
  split; [exact H | exact (proj1 (calculateEstimatedMg_contract "Vape" _ _) H)].
Defined.

(** No log of the sample store has the id z; the check-in on the id b amends
    [sunday], the second log. *)
Lemma updateLog_contract_witness :
  updateLog Sample.roomy (Some (VStr "z")) Sample.checkIn Sample.store
    = (Throw "Log not found", Sample.store) ∧
  ∃ (updated : obj) (st' : localStorage),
    updateLog Sample.roomy (Some (VStr "b")) Sample.checkIn Sample.store = (Return updated, st') ∧
    (∀ k, updated !! k
          = match Sample.checkIn !! k with Some v => Some v | None => Sample.sunday !! k end) ∧
    length (storedLogs st') = 3 ∧
    storedLogs st' !! 1 = Some updated ∧
    (∀ j, j ≠ 1 → storedLogs st' !! j = storedLogs Sample.store !! j) ∧
    nicotracker_settings st' = Absent.
Proof.
  split.
  - apply (proj1 (updateLog_contract Sample.roomy (Some (VStr "z")) Sample.checkIn Sample.store)).
    intros log Hin. repeat (apply elem_of_cons in Hin as [-> | Hin]; [reflexivity|]).
    by apply elem_of_nil in Hin.
  - apply (proj2 (updateLog_contract Sample.roomy (Some (VStr "b")) Sample.checkIn Sample.store)
             1 Sample.sunday);
      [reflexivity | reflexivity | | reflexivity].
    intros [|j] log' Hj Hlog'; [|lia].
    change (Some Sample.monday = Some log') in Hlog'. by injection Hlog' as <-.
Defined.

(** A file whose logs property is not an array is rejected; of the two logs of
    [exported], one has the id of [sunday] and is skipped, the other is
    appended. *)
Lemma importData_contract_witness :
  importData Sample.roomy 0 (Parsed (ImportedData LogsNotArray None)) Sample.store
    = (Throw "Invalid file format: missing logs array", Sample.store) ∧
  ∃ merged : obj,
    importData Sample.roomy 0 (Parsed Sample.exported) Sample.store
      = (Return "Imported 1 new log entries",
         LocalStorage (Stored [Sample.monday; Sample.sunday; Sample.friday; Sample.mondayAgain])
           (Stored merged)) ∧
    merged !! "dailyMgLimit" = Sample.num 30 ∧
    merged !! "dailyEventLimit" = Sample.num 5.
Proof.
  split.
  - apply (proj1 (importData_contract Sample.roomy 0 (ImportedData LogsNotArray None)
                    Sample.store)).
    by right.
  - destruct (proj2 (importData_contract Sample.roomy 0 Sample.exported Sample.store)
                _ eq_refl eq_refl) as (merged & Hkeys & Hrun).
    exists merged. split; [exact (Hrun eq_refl)|].
    rewrite !Hkeys. split; reflexivity.
Defined.

(** The ids of the sample store are unique and stay so along the sample
    operations, which leave five logs. *)
Lemma ids_stay_unique_witness :
  unique_ids (storedLogs Sample.store) ∧
  all_keep_ids_apart Sample.roomy 0 FixedOffsetHost.toISOString Sample.operations Sample.store ∧
  unique_ids
    (storedLogs (perform_all Sample.roomy 0 FixedOffsetHost.toISOString Sample.operations
                   Sample.store)) ∧
  length
    (storedLogs (perform_all Sample.roomy 0 FixedOffsetHost.toISOString Sample.operations
                   Sample.store)) = 5.
Proof.
  assert (unique_ids (storedLogs Sample.store)) as Hstore
    by (by apply unique_idsb_sound).
  assert (all_keep_ids_apart Sample.roomy 0 FixedOffsetHost.toISOString Sample.operations
            Sample.store) as Hops.
  { split; [reflexivity|]. split; [reflexivity|]. split; [|exact I].
    by apply unique_idsb_sound. }
  split; [exact Hstore|]. split; [exact Hops|]. split; [|reflexivity].
  exact (proj1 (ids_stay_unique Sample.roomy 0 FixedOffsetHost.toISOString Sample.operations
                  Sample.store Hstore Hops)).
Defined.

(** C5 as stated fails: an amendment whose updates name the property id
    gives [sunday], whose id is b, the id a of [monday]; the amended log has
    changed its id and two stored logs share one. *)
Lemma ids_counterexample :
  unique_ids (storedLogs Sample.store) ∧
  Sample.sunday !! "id" = Some (VStr "b") ∧
  ∃ (updated : obj) (st' : localStorage),
    updateLog Sample.roomy (Some (VStr "b")) (object [("id", Some (VStr "a"))]) Sample.store
      = (Return updated, st') ∧
    storedLogs st' = [Sample.monday; updated; Sample.friday] ∧
    updated !! "id" = Some (VStr "a") ∧
    Sample.monday !! "id" = Some (VStr "a") ∧
    ¬ unique_ids (storedLogs st').
Proof.
  split; [by apply unique_idsb_sound|]. split; [reflexivity|].
  set (updated := spread Sample.sunday (object [("id", Some (VStr "a"))])).
  exists updated, (LocalStorage (Stored [Sample.monday; updated; Sample.friday]) Absent).
  split; [reflexivity|]. split; [reflexivity|]. split; [reflexivity|]. split; [reflexivity|].
  intros Huniq. by specialize (Huniq 0 1 _ _ eq_refl eq_refl eq_refl).
Qed.

(** The daily stats of 2026-11-02 over the sample journal, whose logs are
    typed. *)
Lemma getDailyStats_contract_witness :
  Forall typed_log Sample.journal ∧
  stats_logs (getDailyStats Sample.numberText Sample.textNumber "2026-11-02" Sample.journal) = [Sample.monday; Sample.mondayAgain] ∧
  eventCount (getDailyStats Sample.numberText Sample.textNumber "2026-11-02" Sample.journal) = 2 ∧
  totalMg (getDailyStats Sample.numberText Sample.textNumber "2026-11-02" Sample.journal)
    = PNumber (Num (sum ((λ log : obj, default (Qc_of_Z 0) (number (log !! "estimatedMg")))
                           <$> on_date "2026-11-02" Sample.journal))) ∧
  stats_avgFocus (getDailyStats Sample.numberText Sample.textNumber "2026-11-02" Sample.journal)
    = Num <$> mean (omap (λ log : obj, number (log !! "focusLevel"))
                      (on_date "2026-11-02" Sample.journal)) ∧
  stats_avgAnxiety (getDailyStats Sample.numberText Sample.textNumber "2026-11-02" Sample.journal)
    = Num <$> mean (omap (λ log : obj, number (log !! "anxietyLevel"))
                      (on_date "2026-11-02" Sample.journal)).
Proof.
  assert (Forall typed_log Sample.journal) as Htyped.
  { repeat (apply List.Forall_cons; [by vm_compute|]). apply List.Forall_nil. }
  split; [exact Htyped|].
  destruct (getDailyStats_contract Sample.numberText Sample.textNumber "2026-11-02" Sample.journal Htyped) as (H1 & H2 & H3 & H4 & H5 & _).
  split; [exact H1|]. split; [exact H2|]. split; [exact H3|]. split; [exact H4 | exact H5].
Defined.

(** The streak on 2026-11-02 over the sample store, on a host five hours west
    of Greenwich: the four date texts from 2026-10-30 to 2026-11-02 differ,
    and four iterations are enough for three logs. *)
Lemma calculateStreak_run_witness :
  ∃ n : nat,
    calculateStreak FixedOffsetHost.isoDay FixedOffsetHost.Date_parse
        (FixedOffsetHost.getDate 300) (FixedOffsetHost.setDate 300) 4 Sample.now Sample.store
      = (Return (Some n), Sample.store) ∧
    (∀ k : nat, k < n →
       logged_on FixedOffsetHost.isoDay (storedLogs Sample.store) (utcDay Sample.now - Z.of_nat k)) ∧
    ¬ logged_on FixedOffsetHost.isoDay (storedLogs Sample.store) (utcDay Sample.now - Z.of_nat n) ∧
    (¬ logged_on FixedOffsetHost.isoDay (storedLogs Sample.store) (utcDay Sample.now) → n = 0) ∧
    (logged_on FixedOffsetHost.isoDay (storedLogs Sample.store) (utcDay Sample.now) →
     logged_on FixedOffsetHost.isoDay (storedLogs Sample.store) (utcDay Sample.now - 1) →
     ¬ logged_on FixedOffsetHost.isoDay (storedLogs Sample.store) (utcDay Sample.now - 2) →
     n = 2).
Proof.
  apply (calculateStreak_run FixedOffsetHost.isoDay FixedOffsetHost.Date_parse
           (FixedOffsetHost.getDate 300) (FixedOffsetHost.setDate 300) 4 Sample.now Sample.store).
  - change (utcDay Sample.now - Z.of_nat (length (storedLogs Sample.store)))%Z with 20756%Z.
    change (utcDay Sample.now) with 20759%Z.
    intros d d' Hd Hd' Hsame.
    assert (d = 20756 ∨ d = 20757 ∨ d = 20758 ∨ d = 20759)%Z as Hcases by lia.
    assert (d' = 20756 ∨ d' = 20757 ∨ d' = 20758 ∨ d' = 20759)%Z as Hcases' by lia.
    destruct Hcases as [-> | [-> | [-> | ->]]], Hcases' as [-> | [-> | [-> | ->]]];
      first [reflexivity | by vm_compute in Hsame].
  - reflexivity.
  - apply setDate_previous_day.
  - simpl. lia.
Defined.

(** C7 as stated fails on a host with daylight saving time.  In New York at
    10:00 on 2026-11-02, the day after the clocks went back, the sample
    store has a log of today and a log of yesterday and none of the day
    before, and the streak is 1, not 2: the walk starts at the UTC midnight
    of today, which is 19:00 of 2026-11-01 in local time, and the step to the
    day of the month before gives 19:00 of 2026-10-31 in local time, which is
    23:00 UTC of that day, so that the date 2026-11-01 is never looked up.
    At a fixed offset of five hours the same store gives 2. *)
Theorem streak_skips_day_at_clock_change :
  let logs := storedLogs Sample.store in
  let today := utcDay Sample.forenoon in
  let midnight := FixedOffsetHost.Date_parse (FixedOffsetHost.isoDay today) in
  FixedOffsetHost.toISOString Sample.forenoon = "2026-11-02T15:00:00.000Z" ∧
  FixedOffsetHost.toISOString (DaylightHost.localTime Sample.forenoon)
    = "2026-11-02T10:00:00.000Z" ∧
  logged_on FixedOffsetHost.isoDay logs today ∧
  logged_on FixedOffsetHost.isoDay logs (today - 1) ∧
  ¬ logged_on FixedOffsetHost.isoDay logs (today - 2) ∧
  FixedOffsetHost.toISOString (DaylightHost.localTime midnight) = "2026-11-01T19:00:00.000Z" ∧
  FixedOffsetHost.toISOString
    (DaylightHost.setDate midnight (DaylightHost.getDate midnight - 1))
    = "2026-10-31T23:00:00.000Z" ∧
  calculateStreak FixedOffsetHost.isoDay FixedOffsetHost.Date_parse
      DaylightHost.getDate DaylightHost.setDate 4 Sample.forenoon Sample.store
    = (Return (Some 1), Sample.store) ∧
  calculateStreak FixedOffsetHost.isoDay FixedOffsetHost.Date_parse
      (FixedOffsetHost.getDate 300) (FixedOffsetHost.setDate 300) 4 Sample.forenoon Sample.store
    = (Return (Some 2), Sample.store).
Proof.
  cbv zeta. split; [reflexivity|]. split; [reflexivity|].
  split; [exists Sample.monday; split; [apply list_elem_of_here | reflexivity]|].
  split; [exists Sample.sunday; split;
          [apply list_elem_of_further, list_elem_of_here | reflexivity]|].
  split.
  { intros (log & Hin & Hdate).
    repeat (apply elem_of_cons in Hin as [-> | Hin]; [by vm_compute in Hdate|]).
    by apply elem_of_nil in Hin. }
  split; [reflexivity|]. split; [reflexivity|]. split; reflexivity.
Qed.


(** C9 as stated fails: five hours west of Greenwich, a log created at 23:30
    on 1969-12-31 local time, which is 04:30 on 1970-01-01 in UTC, is stored
    with the date 1970-01-01, not with the local calendar date, and with the
    time of day of the local hour 23. *)
Lemma local_date_counterexample :
  FixedOffsetHost.toISOString Sample.lateEvening = "1970-01-01T04:30:00.000Z" ∧
  FixedOffsetHost.isoDay (FixedOffsetHost.localDay 300 Sample.lateEvening) = "1969-12-31" ∧
  FixedOffsetHost.getHours 300 Sample.lateEvening = 23%Z ∧
  ∃ created : obj,
    confirmWizard Sample.roomy FixedOffsetHost.isoDay FixedOffsetHost.toISOString
        (FixedOffsetHost.getHours 300) Sample.wizardData Sample.lateEvening
        Sample.lateEvening "k3j9x0q2m" (Sample.lateEvening + 1) (LocalStorage Absent Absent)
      = (Return (), LocalStorage (Stored [created]) Absent) ∧
    created !! "date" = Some (VStr "1970-01-01") ∧
    created !! "date"
      ≠ Some (VStr (FixedOffsetHost.isoDay (FixedOffsetHost.localDay 300 Sample.lateEvening))) ∧
    created !! "timeOfDay" = Some (VStr "night").
Proof.
  split; [reflexivity|]. split; [reflexivity|]. split; [reflexivity|].
  eexists. split; [reflexivity|]. split; [reflexivity|]. split; [|reflexivity].
  intros Hsame. vm_compute in Hsame. discriminate Hsame.
Qed.

(** The cell of the doses in [5,10) in the evening, over the sample journal,
    whose logs are typed and have one of the four times of day. *)
Lemma computeSweetSpotMatrix_cells_witness :
  Forall typed_log Sample.journal ∧ Forall timed_log Sample.journal ∧
  ∃ (m : sweetSpotMatrix) (cell : resultCell),
    computeSweetSpotMatrix Sample.numberText Sample.textNumber Sample.journal = Return m ∧
    cells m !! 6 = Some cell ∧
    reports cell 1 2 (DoseBucket (Qc_of_Z 5) (Qc_of_Z 10) "5-10 mg") "evening" Sample.journal.
Proof.
  assert (Forall typed_log Sample.journal) as Htyped.
  { repeat (apply List.Forall_cons; [by vm_compute|]). apply List.Forall_nil. }
  assert (Forall timed_log Sample.journal) as Htimed.
  { repeat (apply List.Forall_cons; [right; unfold timeBuckets; rewrite !elem_of_cons; auto 10|]).
    apply List.Forall_nil. }
  split; [exact Htyped|]. split; [exact Htimed|].
  destruct (computeSweetSpotMatrix_cells Sample.numberText Sample.textNumber Sample.journal Htyped Htimed)
    as (m & Hm & _ & _ & _ & Hcells).
  destruct (Hcells 1 2 _ "evening" eq_refl eq_refl) as (cell & Hcell & Hreports).
  exists m, cell. split; [exact Hm|]. split; [exact Hcell | exact Hreports].
Defined.

(** C1 at a dose of 1000 mg: the log qualifies, its dose is in [20,∞), and
    yet no cell of the matrix counts it; the row labelled 20+ mg stops at
    999. *)
Theorem sweetSpot_drops_heavy_dose (NumberToString : Qc → string)
    (StringToNumber : string → option Qc) :
  truthy (Sample.heavyDose !! "estimatedMg") = true ∧
  Sample.heavyDose !! "estimatedMg" = Some (VNum (Qc_of_Z 1000)) ∧
  truthy (Sample.heavyDose !! "timeOfDay") = true ∧
  nullish (Sample.heavyDose !! "focusLevel") = false ∧
  nullish (Sample.heavyDose !! "anxietyLevel") = false ∧
  ∃ m : sweetSpotMatrix,
    computeSweetSpotMatrix NumberToString StringToNumber [Sample.heavyDose] = Return m ∧
    count <$> cells m = replicate 20 0.
Proof.
  repeat (split; [reflexivity|]).
  eexists. split; [vm_compute; reflexivity | reflexivity].
Qed.

(** C2 at a dose of exactly 999 mg: the log has a positive dose, a time of
    day and both levels, and yet it does not contribute: every cell reports a
    count of 0 and zero averages and metric. *)
Theorem sweetSpot_cuts_off_at_999 (NumberToString : Qc → string)
    (StringToNumber : string → option Qc) :
  truthy (Sample.boundaryDose !! "estimatedMg") = true ∧
  Sample.boundaryDose !! "estimatedMg" = Some (VNum (Qc_of_Z 999)) ∧
  truthy (Sample.boundaryDose !! "timeOfDay") = true ∧
  nullish (Sample.boundaryDose !! "focusLevel") = false ∧
  nullish (Sample.boundaryDose !! "anxietyLevel") = false ∧
  ∃ m : sweetSpotMatrix,
    computeSweetSpotMatrix NumberToString StringToNumber [Sample.boundaryDose] = Return m ∧
    (λ c, (count c, avgFocus c, avgAnxiety c, metric c)) <$> cells m
      = replicate 20 (0, Num (Qc_of_Z 0), Num (Qc_of_Z 0), Num (Qc_of_Z 0)).
Proof.
  repeat (split; [reflexivity|]).
  eexists. split; [vm_compute; reflexivity | reflexivity].
Qed.

(** ** The further results on the sample data *)

(** On a host whose sort finds the array in order, the most recent log of
    2026-11-02 in the sample store is one of its logs of that date. *)
Lemma getMostRecentLogToday_contract_witness :
  (∀ logs, Sample.sorted logs ≡ₚ logs) ∧
  ∃ recent : option obj,
    getMostRecentLogToday FixedOffsetHost.isoDay Sample.sorted Sample.now Sample.store
      = (Return recent, Sample.store) ∧
    (recent = None
     ↔ on_date (FixedOffsetHost.isoDay (utcDay Sample.now)) (storedLogs Sample.store) = []) ∧
    (∀ log : obj, recent = Some log →
       log ∈ storedLogs Sample.store
       ∧ log !! "date" = Some (VStr (FixedOffsetHost.isoDay (utcDay Sample.now)))).
Proof.
  assert (∀ logs, Sample.sorted logs ≡ₚ logs) as Hsort by done.
  split; [exact Hsort|].
  exact (getMostRecentLogToday_contract FixedOffsetHost.isoDay Sample.sorted Sample.now
           Sample.store Hsort).
Defined.

(** The import of [exported] twice over the sample store. *)
Lemma importData_twice_witness :
  Forall plain_id [Sample.sundayElsewhere; Sample.mondayAgain] ∧
  ∃ (message : string) (st1 : localStorage),
    importData Sample.roomy 0 (Parsed Sample.exported) Sample.store = (Return message, st1) ∧
    importData Sample.roomy 0 (Parsed Sample.exported) st1
      = (Return "Imported 0 new log entries", st1).
Proof.
  assert (Forall plain_id [Sample.sundayElsewhere; Sample.mondayAgain]) as Hplain.
  { repeat (apply List.Forall_cons; [by vm_compute|]). apply List.Forall_nil. }
  split; [exact Hplain|].
  exact (importData_twice Sample.roomy 0 Sample.exported _ Sample.store eq_refl Hplain
           (λ _, eq_refl)).
Defined.

(** On a medium with room for settings of one property only, the import of
    [exported] over a store that holds such settings fails after it has
    stored the new log: the merged settings have the four default properties
    too. *)
Lemma importData_failures_witness :
  importData Sample.tight 0 (Parsed Sample.exported) Sample.configured
  = (Throw "Failed to save settings",
     LocalStorage (Stored [Sample.monday; Sample.sunday; Sample.friday; Sample.mondayAgain])
       (Stored (object [("dailyMgLimit", Sample.num 35)]))).
Proof.
  exact (proj2 (proj2 (proj2 (proj2 (importData_failures Sample.tight 0 Sample.configured)))
                  Sample.exported _ _ eq_refl eq_refl)
           eq_refl eq_refl).
Defined.



(** The metrics of the sweet-spot matrix of the sample journal, whose levels
    are on the scale. *)
Lemma sweetSpot_metric_range_witness :
  Forall typed_log Sample.journal ∧ Forall timed_log Sample.journal ∧
  ∃ m : sweetSpotMatrix,
    computeSweetSpotMatrix Sample.numberText Sample.textNumber Sample.journal = Return m ∧
    ∀ cell : resultCell, cell ∈ cells m →
      ∃ x : Qc, metric cell = Num x ∧ (Qc_of_Z 0 ≤ x)%Qc ∧ (x ≤ Qc_of_Z 100)%Qc.
Proof.
  assert (Forall typed_log Sample.journal) as Htyped.
  { repeat (apply List.Forall_cons; [by vm_compute|]). apply List.Forall_nil. }
  assert (Forall timed_log Sample.journal) as Htimed.
  { repeat (apply List.Forall_cons; [right; unfold timeBuckets; rewrite !elem_of_cons; auto 10|]).
    apply List.Forall_nil. }
  split; [exact Htyped|]. split; [exact Htimed|].
  destruct (sweetSpot_metric_range Sample.numberText Sample.textNumber Sample.journal Htyped Htimed) as (m & Hm & Hcells).
  exists m. split; [exact Hm|]. intros cell Hcell.
  destruct (Hcells cell Hcell) as (x & Hx & Hlo & Hhi & _).
  exists x. split; [exact Hx|]. split; [exact Hlo | exact Hhi].
Defined.

(** The log [dawn] among the logs of the sample journal. *)
Lemma computeSweetSpotMatrix_TypeError_witness :
  misplaced Sample.dawn ∧
  computeSweetSpotMatrix Sample.numberText Sample.textNumber
    [Sample.monday; Sample.dawn; Sample.sunday] = Throw "TypeError".
Proof.
  assert (misplaced Sample.dawn) as Hdawn.
  { split; [|split; [reflexivity|split; [reflexivity|]]].
    - exists (DoseBucket (Qc_of_Z 5) (Qc_of_Z 10) "5-10 mg"). split; [|reflexivity].
      unfold doseBuckets. rewrite !elem_of_cons. auto.
    - exists "dawn". split; [reflexivity|]. split; [done|].
      unfold timeBuckets. rewrite !not_elem_of_cons. split_and!; try done.
      apply not_elem_of_nil. }
  split; [exact Hdawn|].
  apply (computeSweetSpotMatrix_TypeError _ _ _ Sample.dawn); [|exact Hdawn].
  rewrite !elem_of_cons. auto.
Defined.

(** The averages by time of day of the sample journal: one log in the
    evening, with a focus of 8 and an anxiety of 2. *)
Lemma computeFocusAnxietyBuckets_contract_witness :
  Forall typed_log Sample.journal ∧ Forall timed_log Sample.journal ∧
  ∃ (result : gmap string bucketAverages) (averages : bucketAverages),
    computeFocusAnxietyBuckets Sample.numberText Sample.textNumber Sample.journal
      = Return result ∧
    result !! "evening" = Some averages ∧
    bucket_avgFocus averages
      = Num <$> mean (levels "focusLevel" (at_time "evening" Sample.journal)) ∧
    bucket_avgAnxiety averages
      = Num <$> mean (levels "anxietyLevel" (at_time "evening" Sample.journal)) ∧
    bucket_count averages = 1.
Proof.
  assert (Forall typed_log Sample.journal) as Htyped.
  { repeat (apply List.Forall_cons; [by vm_compute|]). apply List.Forall_nil. }
  assert (Forall timed_log Sample.journal) as Htimed.
  { repeat (apply List.Forall_cons; [right; unfold timeBuckets; rewrite !elem_of_cons; auto 10|]).
    apply List.Forall_nil. }
  split; [exact Htyped|]. split; [exact Htimed|].
  destruct (computeFocusAnxietyBuckets_contract Sample.numberText Sample.textNumber Sample.journal
              Htyped Htimed)
    as (result & Hrun & _ & Hresult).
  destruct (Hresult "evening") as (averages & Hlookup & Hfocus & Hanxiety & Hcount).
  { unfold timeBuckets. rewrite !elem_of_cons. auto. }
  exists result, averages. split; [exact Hrun|]. split; [exact Hlookup|].
  split; [exact Hfocus|]. split; [exact Hanxiety|]. rewrite Hcount. reflexivity.
Defined.

(** The log [dawn] has both levels and no group. *)
Lemma computeFocusAnxietyBuckets_TypeError_witness :
  ungrouped Sample.dawn ∧
  computeFocusAnxietyBuckets Sample.numberText Sample.textNumber [Sample.monday; Sample.dawn]
  = Throw "TypeError".
Proof.
  assert (ungrouped Sample.dawn) as Hdawn.
  { split; [by left|]. exists "dawn". split; [reflexivity|]. split; [done|].
    unfold timeBuckets. rewrite !not_elem_of_cons. split_and!; try done.
    apply not_elem_of_nil. }
  split; [exact Hdawn|].
  apply (computeFocusAnxietyBuckets_TypeError _ _ _ Sample.dawn); [|exact Hdawn].
  rewrite !elem_of_cons. auto.
Defined.


Lemma generateSampleLogs_shape_witness :
  let logs := (generateSampleLogs FixedOffsetHost.isoDay FixedOffsetHost.toISOString
                 (FixedOffsetHost.getDate 300) (FixedOffsetHost.setDate 300)
                 (FixedOffsetHost.setHours 300) Sample.draws Sample.now 0).1 in
  7 ≤ length logs ≤ 21 ∧ unique_ids logs.
Proof.
  destruct (generateSampleLogs_shape FixedOffsetHost.isoDay FixedOffsetHost.toISOString
              (FixedOffsetHost.getDate 300) (FixedOffsetHost.setDate 300)
              Sample.numberText Sample.textNumber
              (FixedOffsetHost.setHours 300) Sample.draws Sample.now 0) as [Hlength Hlogs].
  split; [exact Hlength|].
  destruct Hlogs as (_ & Hunique & _).
  - intros n. unfold Sample.draws, Qcle, Qclt, Qc_of_Z, Q2Qc. cbn [this].
    rewrite !Qred_correct. unfold Qle, Qlt, inject_Z. cbn [Qnum Qden].
    pose proof (Nat.mod_upper_bound n 10). lia.
  - apply Hunique. apply (bool_decide_unpack _). by vm_compute.
Defined.
